(** * testingutils: deep equality with a float tolerance, and a table-test runner

    A shallow embedding of the Go package [testingutils] and the properties
    its description states about it.  The package has one algorithm, the
    recursive comparator [IsEqualLoopBreaker]; the rest prints and iterates.

    The repository keeps four successive versions of its one file.  The
    embedding is of the last one, whose functions return a diagnostic beside
    the verdict ([IsEqual], [IsEqualLoopBreaker], [PrintTruncated],
    [RunTest], [RunAllTests]); module [V2] adds the comparator of the version
    before it ([IsEqual_LoopBreaker]), which keeps its call history
    differently, module [V2Runner] the runners of that version, and module
    [V0] the first version ([testingutils.go]), which compares
    [interface{}] values.

    The comparator works on [reflect.Value]s, so the embedding starts with
    the part of Go's [reflect], [fmt] and [testing] packages the code calls:
    a [World] says what every [reflect.Value] denotes, and each method of
    [reflect.Value] is a function of the world that returns [None] where the
    method panics.  Floating-point numbers are binary64, as in Go. *)

From Stdlib Require Import ZArith Floats Bool Ascii String DecimalString Lia.
From stdpp Require Import gmap strings list.

Local Set Warnings "-inexact-float".
Local Open Scope string_scope.
Local Open Scope list_scope.

(** ** Strings *)

(** Go's ["\n"]. *)
Definition nl : string := String "010"%char EmptyString.

(** [fmt]'s [%v] of an [int] loop index. *)
Definition fmt_v (i : nat) : string := NilEmpty.string_of_uint (Nat.to_uint i).

(** ** The reflect package, as far as the code uses it *)

Module reflect.

Inductive Kind : Set :=
| Invalid | Bool | Int | Int8 | Int16 | Int32 | Int64
| Uint | Uint8 | Uint16 | Uint32 | Uint64 | Uintptr
| Float32 | Float64 | Complex64 | Complex128
| Array | Chan | Func | Interface | Map | Ptr | Slice | String | Struct
| UnsafePointer.

#[global] Instance Kind_eq_dec : EqDecision Kind.
Proof. solve_decision. Defined.

(** A [reflect.Value] is a triple of a type, a data pointer and flags, and
    it is a map key under that identity.  The embedding names each such
    triple by a number; [0] is the zero Value [reflect.Value{}]. *)
Definition Value : Set := nat.

(** The kinds the comparator has no branch for and on which neither [Len]
    nor [Float] is defined. *)
Inductive Basic : Set :=
| BInvalid | BBool | BInt | BInt8 | BInt16 | BInt32 | BInt64
| BUint | BUint8 | BUint16 | BUint32 | BUint64 | BUintptr
| BComplex64 | BComplex128 | BFunc | BInterface | BUnsafePointer.

(** What a Value holds, by kind, with what its accessors return:
    [Elem] of a pointer, [Index] of a slice, array or string, [Field] of a
    struct with the field names of its type, [Float] of a float (a
    [float32] read as the [float64] it converts to), [Len] of a map or
    channel. *)
Inductive repr : Set :=
| RFloat32 (f : float)
| RFloat64 (f : float)
| RPtr (elem : option Value)
| RSlice (elems : list Value)
| RArray (elems : list Value)
| RStruct (fields : list (string * Value))
| RString (bytes : list Value)
| RMap (len : nat)
| RChan (len : nat)
| RBasic (k : Basic).

(** A type descriptor, compared by identity. *)
Definition rtype : Set := nat.

(** An [interface{}] value, as [Value.Interface] returns it. *)
Definition iface : Set := nat.

(** The program's memory as [reflect] and [fmt] show it. *)
Record World : Type := {
  (** what each Value other than the zero Value holds *)
  heap : Value -> repr;
  (** [v.Interface()] of a valid Value; [None] where it panics: on a
      Value obtained from an unexported struct field *)
  boxed : Value -> option iface;
  (** [reflect.ValueOf(x)] *)
  ValueOf : iface -> Value;
  (** [v.Type()] *)
  TypeOf : Value -> rtype;
  (** [reflect.DeepEqual]'s traversal of two valid values of one type,
      other than two pointers one of which is nil *)
  deepTraverse : Value -> Value -> bool;
  (** [fmt.Sprint(v)], for the values on which it returns: [fmt] has no
      guard against a slice, a map or an interface that holds itself *)
  Sprint : Value -> string;
  (** [fmt]'s [%f] *)
  fmt_f : float -> string
}.

Definition zero : Value := 0.

Section Methods.
Variable w : World.

Definition holds (v : Value) : repr :=
  match v with
  | O => RBasic BInvalid
  | S _ => heap w v
  end.

Definition kind_of_basic (k : Basic) : Kind :=
  match k with
  | BInvalid => Invalid | BBool => Bool | BInt => Int | BInt8 => Int8
  | BInt16 => Int16 | BInt32 => Int32 | BInt64 => Int64
  | BUint => Uint | BUint8 => Uint8 | BUint16 => Uint16
  | BUint32 => Uint32 | BUint64 => Uint64 | BUintptr => Uintptr
  | BComplex64 => Complex64 | BComplex128 => Complex128
  | BFunc => Func | BInterface => Interface
  | BUnsafePointer => UnsafePointer
  end.

(** [v.Kind()] *)
Definition Value_Kind (v : Value) : Kind :=
  match holds v with
  | RFloat32 _ => Float32
  | RFloat64 _ => Float64
  | RPtr _ => Ptr
  | RSlice _ => Slice
  | RArray _ => Array
  | RStruct _ => Struct
  | RString _ => String
  | RMap _ => Map
  | RChan _ => Chan
  | RBasic k => kind_of_basic k
  end.

(** [v.IsNil()], which the code calls on pointers only. *)
Definition Value_IsNil (v : Value) : option bool :=
  match holds v with
  | RPtr None => Some true
  | RPtr (Some _) => Some false
  | _ => None
  end.

(** [v.Elem()]: the pointee; the zero Value for a nil pointer. *)
Definition Value_Elem (v : Value) : option Value :=
  match holds v with
  | RPtr (Some e) => Some e
  | RPtr None => Some zero
  | _ => None
  end.

(** [v.Float()] *)
Definition Value_Float (v : Value) : option float :=
  match holds v with
  | RFloat32 f | RFloat64 f => Some f
  | _ => None
  end.

(** [v.Len()] *)
Definition Value_Len (v : Value) : option nat :=
  match holds v with
  | RSlice l | RArray l | RString l => Some (length l)
  | RMap n | RChan n => Some n
  | _ => None
  end.

(** [v.Index(i)] *)
Definition Value_Index (v : Value) (i : nat) : option Value :=
  match holds v with
  | RSlice l | RArray l | RString l => l !! i
  | _ => None
  end.

(** [v.NumField()] *)
Definition Value_NumField (v : Value) : option nat :=
  match holds v with
  | RStruct fs => Some (length fs)
  | _ => None
  end.

(** [v.Field(i)] *)
Definition Value_Field (v : Value) (i : nat) : option Value :=
  match holds v with
  | RStruct fs => snd <$> fs !! i
  | _ => None
  end.

(** [v.Type().Field(i).Name] *)
Definition Type_Field_Name (v : Value) (i : nat) : option string :=
  match holds v with
  | RStruct fs => fst <$> fs !! i
  | _ => None
  end.

(** [v.IsValid()] *)
Definition IsValid (v : Value) : bool :=
  bool_decide (Value_Kind v <> Invalid).

(** [v.Interface()] *)
Definition Value_Interface (v : Value) : option iface :=
  if IsValid v then boxed w v else None.

(** [reflect]'s [deepValueEqual] on its first levels: an invalid value
    equals only an invalid one, the types must be the same, and two
    pointers are equal when they are the same pointer, so a nil
    pointer equals a nil pointer and no other. *)
Definition deepValueEqual (v1 v2 : Value) : bool :=
  if negb (IsValid v1) || negb (IsValid v2)
  then Bool.eqb (IsValid v1) (IsValid v2)
  else if negb (bool_decide (TypeOf w v1 = TypeOf w v2)) then false
  else match holds v1, holds v2 with
       | RPtr None, RPtr None => true
       | RPtr None, RPtr (Some _) | RPtr (Some _), RPtr None => false
       | _, _ => deepTraverse w v1 v2
       end.

(** [reflect.DeepEqual(x, y)]; a nil interface is the one whose
    [ValueOf] is the zero Value. *)
Definition DeepEqual (x y : iface) : bool :=
  let v1 := ValueOf w x in
  let v2 := ValueOf w y in
  if negb (IsValid v1) || negb (IsValid v2)
  then Bool.eqb (IsValid v1) (IsValid v2)
  else if negb (bool_decide (TypeOf w v1 = TypeOf w v2)) then false
  else deepValueEqual v1 v2.
End Methods.

End reflect.

(** ** The testing package *)

(** What a [*testing.T] has been told, oldest first: [t.Logf] adds a line,
    [t.Errorf] adds a line and marks the test failed, [t.Fatal] does the
    same and then leaves the test function. *)
Inductive event : Set :=
| Logged (line : string)
| Errored (line : string)
| Fataled (line : string).

Definition T : Set := list event.

Definition Logf (t : T) (line : string) : T := t ++ [Logged line].
Definition Errorf (t : T) (line : string) : T := t ++ [Errored line].

(** How a call ends: it returns [x] and leaves the state [s]; or [t.Fatal]
    stopped the test; or the Go runtime panicked (a [reflect] method called
    on the wrong kind, an index out of range); or the recursion did not end
    within the steps allowed. *)
Inductive outcome (St A : Type) : Type :=
| Done (x : A) (s : St)
| Fatal (s : St)
| Panic (s : St)
| Diverge.

Arguments Done {St A} x s.
Arguments Fatal {St A} s.
Arguments Panic {St A} s.
Arguments Diverge {St A}.

(** ** The comparator (the current version of the package) *)

(** [const EPSILON = .00001] *)
Definition EPSILON : float := 0.00001%float.

(** [type callHistoryElem struct { a, b reflect.Value }] *)
Definition callHistoryElem : Set := (reflect.Value * reflect.Value)%type.

(** [map[callHistoryElem]struct{}]: a Go map used as a set.  The map is
    shared by every call of one comparison, so each call returns it. *)
Definition callHistory : Type := gset callHistoryElem.

Section Comparator.
Variable w : reflect.World.

Definition compared : Type := outcome (callHistory * T) (bool * string).

(** [for i := 0; i < n; i++ { pass, msg := cmp(at_a(i), at_b(i)); if !pass
    { return false, msg } }; return true, ""], for the [count] indices from
    [i] on. *)
Fixpoint compareFrom
    (cmp : reflect.Value -> reflect.Value -> callHistory -> T -> compared)
    (at_a at_b : nat -> option reflect.Value) (count i : nat)
    (h : callHistory) (t : T) : compared :=
  match count with
  | O => Done (true, "") (h, t)
  | S count' =>
      match at_a i, at_b i with
      | Some x, Some y =>
          match cmp x y h t with
          | Done (true, _) (h', t') => compareFrom cmp at_a at_b count' (S i) h' t'
          | Done (false, msg) s' => Done (false, msg) s'
          | other => other
          end
      | _, _ => Panic (h, t)
      end
  end.

(** [diff := a.Float() - b.Float(); ok := (diff < EPSILON) && (-diff < EPSILON)] *)
Definition withinEpsilon (x y : float) : bool :=
  let diff := (x - y)%float in
  (diff <? EPSILON)%float && (- diff <? EPSILON)%float.

Definition isFloatKind (k : reflect.Kind) : bool :=
  bool_decide (k = reflect.Float64) || bool_decide (k = reflect.Float32).

Definition isSeqKind (k : reflect.Kind) : bool :=
  bool_decide (k = reflect.Slice) || bool_decide (k = reflect.Array).

(** The two values after [if a.Kind() == reflect.Ptr && !a.IsNil() &&
    !b.IsNil() { a = a.Elem(); b = b.Elem() }]; [None] on a panic. *)
Definition indirect (a b : reflect.Value)
  : option (reflect.Value * reflect.Value) :=
  if bool_decide (reflect.Value_Kind w a = reflect.Ptr) then
    match reflect.Value_IsNil w a with
    | None => None
    | Some true => Some (a, b)
    | Some false =>
        match reflect.Value_IsNil w b with
        | None => None
        | Some true => Some (a, b)
        | Some false =>
            match reflect.Value_Elem w a, reflect.Value_Elem w b with
            | Some a', Some b' => Some (a', b')
            | _, _ => None
            end
        end
    end
  else Some (a, b).

(** The body of [IsEqualLoopBreaker] from the float test on, where [a]
    and [b] are the variables the indirection may have reassigned and
    [cmp] is the recursive call. *)
Definition afterIndirect
    (cmp : reflect.Value -> reflect.Value -> callHistory -> T -> compared)
    (a b : reflect.Value) (h : callHistory) (t : T) : compared :=
  (* if a & b are float64 see whether they are within EPSILON of each other *)
  if isFloatKind (reflect.Value_Kind w a) then
    match reflect.Value_Float w a, reflect.Value_Float w b with
    | Some fa, Some fb =>
        if withinEpsilon fa fb then Done (true, "") (h, t)
        else
          let msg :=
            "Failing on a floating-point comparison: "
              +:+ reflect.fmt_f w fa +:+ " != "
              +:+ reflect.fmt_f w fb +:+ nl in
          Done (false, msg) (h, Logf t msg)
    | _, _ => Panic (h, t)
    end
  else
    (* add this call to the call history *)
    let h := {[ (a, b) ]} ∪ h in
    (* if a and b are slices or structs, check their elements *)
    if isSeqKind (reflect.Value_Kind w a) then
      match reflect.Value_Len w a, reflect.Value_Len w b with
      | Some la, Some lb =>
          if negb (la =? lb)%nat
          then Done (false, "Slices having different lengths") (h, t)
          else compareFrom cmp
                 (reflect.Value_Index w a) (reflect.Value_Index w b) la 0 h t
      | _, _ => Panic (h, t)
      end
    else if bool_decide (reflect.Value_Kind w a = reflect.Struct) then
      match reflect.Value_NumField w a, reflect.Value_NumField w b with
      | Some na, Some nb =>
          if negb (na =? nb)%nat
          then Done (false, "Number of fields in struct do not match") (h, t)
          else compareFrom cmp
                 (reflect.Value_Field w a) (reflect.Value_Field w b) na 0 h t
      | _, _ => Panic (h, t)
      end
    else
      (* cover any unhandled case *)
      match reflect.Value_Interface w a, reflect.Value_Interface w b with
      | Some ia, Some ib =>
          if reflect.DeepEqual w ia ib then Done (true, "") (h, t)
          else Done (false, "reflect.DeepEqual failed") (h, t)
      | _, _ => Panic (h, t)
      end.

(** [IsEqualLoopBreaker]; [fuel] bounds the depth of the recursion. *)
Fixpoint IsEqualLoopBreaker (fuel : nat) (a b : reflect.Value)
    (h : callHistory) (t : T) : compared :=
  match fuel with
  | O => Diverge
  | S fuel' =>
      (* if there's loop then we haven't found a problem so far *)
      if bool_decide ((a, b) ∈ h) then Done (true, "") (h, t)
      (* if a and b aren't the same thing => not equal *)
      else if negb (bool_decide (reflect.Value_Kind w a = reflect.Value_Kind w b))
      then Done (false, "Not same types") (h, t)
      else
        (* if a and b are pointers indirect to their values *)
        match indirect a b with
        | None => Panic (h, t)
        | Some (a, b) => afterIndirect (IsEqualLoopBreaker fuel') a b h t
        end
  end.

(** [IsEqual]: a comparison with a fresh call history. *)
Definition IsEqual (fuel : nat) (a b : reflect.Value) (t : T)
  : outcome T (bool * string) :=
  match IsEqualLoopBreaker fuel a b ∅ t with
  | Done r (_, t') => Done r t'
  | Fatal (_, t') => Fatal t'
  | Panic (_, t') => Panic t'
  | Diverge => Diverge
  end.
End Comparator.

(** ** The truncated printer *)

Section Printer.
Variable w : reflect.World.

(** [PrintTruncated], for the values on which [fmt.Sprint] returns; Go's
    [len] and slicing of a string count bytes, as [String.length] and
    [substring] do. *)
Definition PrintTruncated (val : reflect.Value) : string :=
  let result := reflect.Sprint w val in
  if (String.length result <? 5000)%nat then result
  else substring 0 5000 result +:+ nl +:+ "[...output truncated...]".
End Printer.

(** ** The runners *)

(** The function under test, as [reflect] shows it: [fn.Type().NumIn()],
    [fn.Type().NumOut()] and [fn.Call(in)], which is [None] when the call
    panics. *)
Record Func : Type := {
  NumIn : nat;
  NumOut : nat;
  Call : list reflect.Value -> option (list reflect.Value)
}.

Section Runner.
Variable w : reflect.World.

(** The closure [rvals] of [RunTest]: the fields of a struct with their
    names, or the value alone (and then no names). *)
Definition rvals (vals : reflect.iface) : list reflect.Value * list string :=
  let valOfVals := reflect.ValueOf w vals in
  if bool_decide (reflect.Value_Kind w valOfVals = reflect.Struct) then
    let n := default 0 (reflect.Value_NumField w valOfVals) in
    (omap (reflect.Value_Field w valOfVals) (seq 0 n),
     omap (reflect.Type_Field_Name w valOfVals) (seq 0 n))
  else ([valOfVals], []).

Definition Fatal_ {A} (t : T) (line : string) : outcome T A :=
  Fatal (t ++ [Fataled line]).

(** The loop of [RunTest] over the results, for the [count] positions from
    [i] on. *)
Fixpoint compareResults (fuel : nat) (got expect : list reflect.Value)
    (exNames : list string) (count i : nat) (t : T)
  : outcome T (bool * string) :=
  match count with
  | O => Done (true, "") t
  | S count' =>
      match got !! i, expect !! i with
      | Some g, Some e =>
          match IsEqual w fuel g e t with
          | Done (true, _) t' =>
              compareResults fuel got expect exNames count' (S i) t'
          | Done (false, msg) t' =>
              (* if this function returns more than one result, figure
                 out the name of problem result *)
              let name :=
                if (1 <? length got)%nat
                then (λ n, " (" +:+ n +:+ ")") <$> exNames !! i
                else Some "" in
              match name with
              | None => Panic t'
              | Some name =>
                  let t' := Logf t' ("Expected" +:+ name +:+ ": "
                              +:+ PrintTruncated w e +:+ nl +:+ nl) in
                  let t' := Logf t' ("Got     " +:+ name +:+ ": "
                              +:+ PrintTruncated w g +:+ nl +:+ nl) in
                  Done (false, msg) t'
              end
          | other => other
          end
      | _, _ => Panic t
      end
  end.

(** [RunTest] *)
Definition RunTest (fuel : nat) (fnptr : Func)
    (invals expectvals : reflect.iface) (t : T) : outcome T (bool * string) :=
  let '(in_, _) := rvals invals in
  let '(expect, exNames) := rvals expectvals in
  if negb (length in_ =? NumIn fnptr)%nat then
    Fatal_ t "The number of in params doesn't match function parameters."
  else
    match Call fnptr in_ with
    | None => Panic t
    | Some got =>
        if negb (length got =? NumOut fnptr)%nat then
          Fatal_ t "The number of expect params doesn't match function results."
        else compareResults fuel got expect exNames (length got) 0 t
    end.

(** The closure [fracture] of [RunAllTests]: the elements of a slice, each
    as an [interface{}]. *)
Definition fracture (blob : reflect.iface) : option (list reflect.iface) :=
  let v := reflect.ValueOf w blob in
  n ← reflect.Value_Len w v;
  mapM (λ i, reflect.Value_Index w v i ≫= reflect.Value_Interface w) (seq 0 n).

(** The loop of [RunAllTests], for the [count] cases from [i] on. *)
Fixpoint runCases (fuel : nat) (fnptr : Func)
    (allIn allExpect : list reflect.iface) (count i : nat) (t : T)
  : outcome T unit :=
  match count with
  | O => Done tt t
  | S count' =>
      let t := Logf t ("Testing case " +:+ fmt_v i +:+ nl) in
      match allIn !! i, allExpect !! i with
      | Some x, Some y =>
          match RunTest fuel fnptr x y t with
          | Done (pass, msg) t' =>
              let t' :=
                if pass then t'
                else Errorf t' ("FAIL case " +:+ fmt_v i +:+ " (" +:+ msg
                                  +:+ ")" +:+ nl) in
              runCases fuel fnptr allIn allExpect count' (S i) t'
          | Fatal t' => Fatal t'
          | Panic t' => Panic t'
          | Diverge => Diverge
          end
      | _, _ => Panic t
      end
  end.

(** [RunAllTests] *)
Definition RunAllTests (fuel : nat) (fnptr : Func)
    (allInVals allExpectVals : reflect.iface) (t : T) : outcome T unit :=
  (* confirm that allInVals and allExpectVals are slices *)
  if negb (bool_decide
             (reflect.Value_Kind w (reflect.ValueOf w allInVals) = reflect.Slice))
  then Fatal_ t "allInVals is not a slice"
  else if negb (bool_decide
             (reflect.Value_Kind w (reflect.ValueOf w allExpectVals) = reflect.Slice))
  then Fatal_ t "allExpectVals is not a slice"
  else
    match fracture allInVals, fracture allExpectVals with
    | Some allIn, Some allExpect =>
        if negb (length allIn =? length allExpect)%nat then
          Fatal_ t "Number of input tests doesn't match number of expected results"
        else runCases fuel fnptr allIn allExpect (length allIn) 0 t
    | _, _ => Panic t
    end.
End Runner.

(** ** The comparator of the earlier version

    The version of the package before the diagnostics were added records a
    call in the history as soon as the history has been consulted, before
    the kind test and the indirection. *)

Module V2.
(** [const EPSILON = .0000000000001] *)
Definition EPSILON : float := 0.0000000000001%float.

Section Comparator.
Variable w : reflect.World.

Definition compared : Type := outcome callHistory bool.

(** [for i := 0; i < n; i++ { if !cmp(at_a(i), at_b(i)) { return false
    } }; return true] *)
Fixpoint allFrom
    (cmp : reflect.Value -> reflect.Value -> callHistory -> compared)
    (at_a at_b : nat -> option reflect.Value) (count i : nat)
    (h : callHistory) : compared :=
  match count with
  | O => Done true h
  | S count' =>
      match at_a i, at_b i with
      | Some x, Some y =>
          match cmp x y h with
          | Done true h' => allFrom cmp at_a at_b count' (S i) h'
          | other => other
          end
      | _, _ => Panic h
      end
  end.

(** The body of [IsEqual_LoopBreaker] after the indirection. *)
Definition afterIndirect
    (cmp : reflect.Value -> reflect.Value -> callHistory -> compared)
    (a b : reflect.Value) (h : callHistory) : compared :=
  if bool_decide (reflect.Value_Kind w a = reflect.Slice) then
    match reflect.Value_Len w a, reflect.Value_Len w b with
    | Some la, Some lb =>
        if negb (la =? lb)%nat then Done false h
        else allFrom cmp
               (reflect.Value_Index w a) (reflect.Value_Index w b) la 0 h
    | _, _ => Panic h
    end
  else if bool_decide (reflect.Value_Kind w a = reflect.Struct) then
    match reflect.Value_NumField w a, reflect.Value_NumField w b with
    | Some na, Some nb =>
        if negb (na =? nb)%nat then Done false h
        else allFrom cmp
               (reflect.Value_Field w a) (reflect.Value_Field w b) na 0 h
    | _, _ => Panic h
    end
  else if bool_decide (reflect.Value_Kind w a = reflect.Float64) then
    match reflect.Value_Float w a, reflect.Value_Float w b with
    | Some fa, Some fb =>
        let diff := (fa - fb)%float in
        Done ((diff <? EPSILON)%float && (- diff <? EPSILON)%float) h
    | _, _ => Panic h
    end
  else
    match reflect.Value_Interface w a, reflect.Value_Interface w b with
    | Some ia, Some ib => Done (reflect.DeepEqual w ia ib) h
    | _, _ => Panic h
    end.

(** [IsEqual_LoopBreaker] *)
Fixpoint IsEqual_LoopBreaker (fuel : nat) (a b : reflect.Value)
    (h : callHistory) : compared :=
  match fuel with
  | O => Diverge
  | S fuel' =>
      (* if there's loop then we haven't found a problem so far *)
      if bool_decide ((a, b) ∈ h) then Done true h
      else
        let h := {[ (a, b) ]} ∪ h in
        if negb (bool_decide (reflect.Value_Kind w a = reflect.Value_Kind w b))
        then Done false h
        else
          match indirect w a b with
          | None => Panic h
          | Some (a, b) => afterIndirect (IsEqual_LoopBreaker fuel') a b h
          end
  end.

(** [IsEqual] *)
Definition IsEqual (fuel : nat) (a b : reflect.Value) : compared :=
  IsEqual_LoopBreaker fuel a b ∅.
End Comparator.
End V2.

(** ** Descriptions used in the statements *)

(** What a call returned, when it returned. *)
Definition returned {St A} (o : outcome St A) : option A :=
  match o with
  | Done x _ => Some x
  | _ => None
  end.

(** Two binary64 results that are the opposite of one another, or are both a zero. *)
Definition mirrored (x y : spec_float) : Prop :=
  y = SFopp x \/ (exists s s', x = S754_zero s /\ y = S754_zero s').

(** A comparison as a function of one state, the call history with the test
    log. *)
Definition inState
    (cmp : reflect.Value -> reflect.Value -> callHistory -> T -> compared)
    (x y : reflect.Value) (s : callHistory * T) : compared :=
  cmp x y s.1 s.2.

(** The comparator, so. *)
Definition compareIn (w : reflect.World) (fuel : nat)
  : reflect.Value -> reflect.Value -> callHistory * T -> compared :=
  inState (IsEqualLoopBreaker w fuel).

(** [passes cmp pairs s s']: compared one after the other from the state
    [s], every pair of [pairs] is found equal, and the state is then [s']. *)
Inductive passes {St : Type}
    (cmp : reflect.Value -> reflect.Value -> St -> outcome St (bool * string))
  : list (reflect.Value * reflect.Value) -> St -> St -> Prop :=
| passes_nil s : passes cmp [] s s
| passes_cons x y pairs s msg s1 s2 :
    cmp x y s = Done (true, msg) s1 ->
    passes cmp pairs s1 s2 ->
    passes cmp ((x, y) :: pairs) s s2.

(** What the indirection leaves of a value compared with itself: the
    pointee of a pointer that is not nil, the value otherwise. *)
Definition pointee (w : reflect.World) (v : reflect.Value) : reflect.Value :=
  match reflect.holds w v with
  | reflect.RPtr (Some e) => e
  | _ => v
  end.

(** [selfEqualWithin w n v]: followed through pointers, elements and fields,
    [v] is exhausted within [n] levels; its floating-point leaves are finite
    numbers; its other leaves can be boxed and are [DeepEqual] to
    themselves. *)
Fixpoint selfEqualWithin (w : reflect.World) (n : nat) (v : reflect.Value) : bool :=
  match n with
  | O => false
  | S n' =>
      let body := pointee w v in
      match reflect.holds w body with
      | reflect.RFloat32 f | reflect.RFloat64 f => is_finite f
      | reflect.RSlice l | reflect.RArray l => forallb (selfEqualWithin w n') l
      | reflect.RStruct fs => forallb (selfEqualWithin w n') fs.*2
      | _ =>
          match reflect.Value_Interface w body with
          | Some i => reflect.DeepEqual w i i
          | None => false
          end
      end
  end.

(** [exhaustedWithin w n v]: followed through pointers, elements and fields,
    [v] is exhausted within [n] levels. *)
Fixpoint exhaustedWithin (w : reflect.World) (n : nat) (v : reflect.Value) : bool :=
  match n with
  | O => false
  | S n' =>
      match reflect.holds w (pointee w v) with
      | reflect.RSlice l | reflect.RArray l => forallb (exhaustedWithin w n') l
      | reflect.RStruct fs => forallb (exhaustedWithin w n') fs.*2
      | _ => true
      end
  end.

(** [ValueOf(v.Interface())] holds what [v] holds and has its type; so it is
    for a pointer, which [Interface] copies. *)
Definition boxesAs (w : reflect.World) (v : reflect.Value) (i : reflect.iface) : Prop :=
  reflect.Value_Interface w v = Some i
  /\ reflect.holds w (reflect.ValueOf w i) = reflect.holds w v
  /\ reflect.TypeOf w (reflect.ValueOf w i) = reflect.TypeOf w v.

(** The outcome [o] with its state changed by [f]. *)
Definition mapState {St St' A} (f : St -> St') (o : outcome St A) : outcome St' A :=
  match o with
  | Done x s => Done x (f s)
  | Fatal s => Fatal (f s)
  | Panic s => Panic (f s)
  | Diverge => Diverge
  end.

(** The state of a comparison with the lines [t0] before its log. *)
Definition later (t0 : T) (s : callHistory * T) : callHistory * T := (s.1, t0 ++ s.2).


(** What one case of a batch leaves in the log: the announcement of case
    [i], what the case itself logged, and the failure of a case that did not
    pass, with its number and diagnostic. *)
Definition caseLog (i : nat) (r : bool * string * T) : T :=
  [Logged ("Testing case " +:+ fmt_v i +:+ nl)]
    ++ r.2
    ++ (if r.1.1 then []
        else [Errored ("FAIL case " +:+ fmt_v i +:+ " (" +:+ r.1.2 +:+ ")" +:+ nl)]).

(** The log of the cases numbered from [i] on, in order. *)
Fixpoint batchLog (i : nat) (rs : list (bool * string * T)) : T :=
  match rs with
  | [] => []
  | r :: rs => caseLog i r ++ batchLog (S i) rs
  end.


(** ** Example worlds *)

(** A cell of an example world: the type of a Value, what it holds, the bits
    of a scalar, and whether [Interface] may box it. *)
Record cell : Set := {
  ctype : reflect.rtype;
  cholds : reflect.repr;
  cbits : Z;
  cexported : bool
}.

Definition exported (ty : reflect.rtype) (r : reflect.repr) (bits : Z) : cell :=
  {| ctype := ty; cholds := r; cbits := bits; cexported := true |}.

Definition unexported (ty : reflect.rtype) (r : reflect.repr) (bits : Z) : cell :=
  {| ctype := ty; cholds := r; cbits := bits; cexported := false |}.

(** The world whose Value [k] is the [k]th cell; an interface is named by
    the Value it boxes, and scalars are deeply equal when their bits are. *)
Definition world_of (cells : list cell) (sprint : reflect.Value -> string)
  : reflect.World :=
  {| reflect.heap := λ v,
       default (reflect.RBasic reflect.BInvalid) (cholds <$> cells !! pred v);
     reflect.boxed := λ v,
       match cells !! pred v with
       | Some c => if cexported c then Some v else None
       | None => None
       end;
     reflect.ValueOf := λ i, i;
     reflect.TypeOf := λ v, default 0 (ctype <$> cells !! pred v);
     reflect.deepTraverse := λ v1 v2,
       bool_decide (cbits <$> cells !! pred v1 = cbits <$> cells !! pred v2);
     reflect.Sprint := sprint;
     reflect.fmt_f := λ _, "<float>" |}.

Definition t_float64 : reflect.rtype := 1.
Definition t_float32 : reflect.rtype := 2.
Definition t_int : reflect.rtype := 3.
Definition t_string : reflect.rtype := 4.
Definition t_slice_int : reflect.rtype := 5.
Definition t_array2_int : reflect.rtype := 6.
Definition t_ptr_int : reflect.rtype := 7.
Definition t_ptr_string : reflect.rtype := 8.
Definition t_ptr_slice_int : reflect.rtype := 9.
Definition t_Node : reflect.rtype := 10.
Definition t_ptr_Node : reflect.rtype := 11.
Definition t_pair : reflect.rtype := 12.
Definition t_record : reflect.rtype := 13.
Definition t_ptr_record : reflect.rtype := 14.

(** [1.0], [1.0 + EPSILON/2], [1.0 + EPSILON*10] as [float64], [1.0] as
    [float32], and a [float64] NaN. *)
Definition floats : reflect.World :=
  world_of
    [ exported t_float64 (reflect.RFloat64 1) 0;
      exported t_float64 (reflect.RFloat64 (1 + EPSILON / 2)) 0;
      exported t_float64 (reflect.RFloat64 (1 + EPSILON * 10)) 0;
      exported t_float32 (reflect.RFloat32 1) 0;
      exported t_float64 (reflect.RFloat64 nan) 0 ]
    fmt_v.

(** [type Node struct { Next *Node }; n := &Node{}; n.Next = n]: Value 1 is
    [reflect.ValueOf(n)], Value 2 is the struct it points to, Value 3 is the
    field [Next] of that struct, a pointer to the same struct.  Values 2 and
    3 start at one address and are two map keys all the same, a [Node] and a
    [*Node]. *)
Definition ring : reflect.World :=
  world_of
    [ exported t_ptr_Node (reflect.RPtr (Some 2)) 0;
      exported t_Node (reflect.RStruct [("Next", 3)]) 0;
      exported t_ptr_Node (reflect.RPtr (Some 2)) 0 ]
    fmt_v.

(** The ints 7 and 8 (Values 1 and 2), the slice [[]int{7}] (3), the array
    [[2]int{7, 8}] (4), and the slices [[]int{7, 8}] (5) and [[]int{7, 7}]
    (6). *)
Definition seqs : reflect.World :=
  world_of
    [ exported t_int (reflect.RBasic reflect.BInt) 7;
      exported t_int (reflect.RBasic reflect.BInt) 8;
      exported t_slice_int (reflect.RSlice [1]) 0;
      exported t_array2_int (reflect.RArray [1; 2]) 0;
      exported t_slice_int (reflect.RSlice [1; 2]) 0;
      exported t_slice_int (reflect.RSlice [1; 1]) 0 ]
    fmt_v.

(** [p := &[]int{}] (Value 1, pointing to Value 3) and [q := &""] (Value 2,
    pointing to Value 4). *)
Definition mixed : reflect.World :=
  world_of
    [ exported t_ptr_slice_int (reflect.RPtr (Some 3)) 0;
      exported t_ptr_string (reflect.RPtr (Some 4)) 0;
      exported t_slice_int (reflect.RSlice []) 0;
      exported t_string (reflect.RString []) 0 ]
    fmt_v.

(** Two nil [*int] (Values 1 and 2), a nil [*string] (3), a pointer to the
    int of Value 5 (4), and the nil [*int] fields of a struct with
    unexported fields (6 and 7). *)
Definition nils : reflect.World :=
  world_of
    [ exported t_ptr_int (reflect.RPtr None) 0;
      exported t_ptr_int (reflect.RPtr None) 0;
      exported t_ptr_string (reflect.RPtr None) 0;
      exported t_ptr_int (reflect.RPtr (Some 5)) 0;
      exported t_int (reflect.RBasic reflect.BInt) 42;
      unexported t_ptr_int (reflect.RPtr None) 0;
      unexported t_ptr_int (reflect.RPtr None) 0 ]
    fmt_v.

(** [p := &struct{ X float64; Tags []int; Peer *int }{0.5, []int{7, 7}, nil}]:
    Value 1 is [reflect.ValueOf(p)], Value 2 the struct, Values 3, 4 and 5
    its fields, Value 6 both elements of [Tags]. *)
Definition tree : reflect.World :=
  world_of
    [ exported t_ptr_record (reflect.RPtr (Some 2)) 0;
      exported t_record (reflect.RStruct [("X", 3); ("Tags", 4); ("Peer", 5)]) 0;
      exported t_float64 (reflect.RFloat64 0.5) 0;
      exported t_slice_int (reflect.RSlice [6; 6]) 0;
      exported t_ptr_int (reflect.RPtr None) 0;
      exported t_int (reflect.RBasic reflect.BInt) 7 ]
    fmt_v.

(** A value that [fmt.Sprint] renders in exactly 5000 bytes. *)
Definition wide : reflect.World :=
  world_of [ exported t_string (reflect.RString []) 0 ]
    (λ _, string_of_list_ascii (replicate 5000 "a"%char)).

(** A world of ints for the runners: Value [k], for [k] from 1 to 12, is the
    int [k]; Value 13 is [struct{ Double, Succ int }{2, 9}]; Values 14 and
    15 are the slices [[]int{1, 2, 3, 4, 5}] and [[]int{2, 4, 7, 8, 10}]. *)
Definition ints : reflect.World :=
  world_of
    (((λ k, exported t_int (reflect.RBasic reflect.BInt) (Z.of_nat k)) <$> seq 1 12)
       ++ [ exported t_pair (reflect.RStruct [("Double", 2); ("Succ", 9)]) 0;
            exported t_slice_int (reflect.RSlice [1; 2; 3; 4; 5]) 0;
            exported t_slice_int (reflect.RSlice [2; 4; 7; 8; 10]) 0 ])
    fmt_v.

(** [func(x int) int { return 2 * x }] on the ints of [ints], where the int
    [k] is Value [k]. *)
Definition double : Func :=
  {| NumIn := 1; NumOut := 1;
     Call := λ args, match args with
                     | [x] => Some [2 * x]
                     | _ => None
                     end |}.

(** [func(x int) (int, int) { return 2 * x, x + 1 }], likewise. *)
Definition doubleAndSucc : Func :=
  {| NumIn := 1; NumOut := 2;
     Call := λ args, match args with
                     | [x] => Some [2 * x; x + 1]
                     | _ => None
                     end |}.

(** ** Descriptions used in the further properties *)

(** The diagnostics of the comparator that come without a log line. *)
Definition plainDiagnostics : list string :=
  [ "Not same types";
    "Slices having different lengths";
    "Number of fields in struct do not match";
    "reflect.DeepEqual failed" ].

(** The diagnostic of two floating-point numbers that are too far apart. *)
Definition floatDiagnostic (w : reflect.World) (fa fb : float) : string :=
  "Failing on a floating-point comparison: "
    +:+ reflect.fmt_f w fa +:+ " != " +:+ reflect.fmt_f w fb +:+ nl.

(** What holds of a call that returned [r] from the history [h] and the log
    [t] and left the state [s']: the history has only grown; a pass has the
    empty message and logged nothing; a failure has one of the diagnostics,
    and has logged it when it is the one of the floating-point numbers. *)
Definition settled (w : reflect.World) (h : callHistory) (t : T)
    (r : bool * string) (s' : callHistory * T) : Prop :=
  h ⊆ s'.1
  /\ (if r.1 then r.2 = "" /\ s'.2 = t
      else (r.2 ∈ plainDiagnostics /\ s'.2 = t)
           \/ (exists fa fb, r.2 = floatDiagnostic w fa fb /\ s'.2 = Logf t r.2)).

(** What a comparison may go on to from a value: the pointee of a pointer
    that is not nil, the elements of a slice, an array or a string, the
    fields of a struct. *)
Definition children (w : reflect.World) (v : reflect.Value) : list reflect.Value :=
  match reflect.holds w v with
  | reflect.RPtr (Some e) => [e]
  | reflect.RSlice l | reflect.RArray l | reflect.RString l => l
  | reflect.RStruct fs => fs.*2
  | _ => []
  end.

(** [closedUnder w U]: the values of [U] have their children in [U]. *)
Definition closedUnder (w : reflect.World) (U : list reflect.Value) : bool :=
  forallb (λ v, forallb (λ c, bool_decide (c ∈ U)) (children w v)) U.

(** The pairs of values of [U] that a call history has not recorded. *)
Definition unvisited (U : list reflect.Value) (h : callHistory) : callHistory :=
  list_to_set (list_prod U U) ∖ h.

(** What the induction carries: the call ends, and a call that returns
    has only added to the history. *)
Definition ends (o : V2.compared) (h : callHistory) : Prop :=
  o <> Diverge /\ forall r h', o = Done r h' -> h ⊆ h'.

(** [sameShapeWithin w n a b]: down to [n] levels, what the indirection
    leaves of the two values the comparator is given is of one kind: for
    [a] and [b], and for the elements and fields at matching positions of
    two slices, arrays or structs. *)
Fixpoint sameShapeWithin (w : reflect.World) (n : nat) (a b : reflect.Value) : bool :=
  match n with
  | O => true
  | S n' =>
      match indirect w a b with
      | None => true
      | Some (a', b') =>
          bool_decide (reflect.Value_Kind w a' = reflect.Value_Kind w b')
          && match reflect.holds w a', reflect.holds w b' with
             | reflect.RSlice la, reflect.RSlice lb
             | reflect.RArray la, reflect.RArray lb =>
                 forallb (λ p, sameShapeWithin w n' p.1 p.2) (zip la lb)
             | reflect.RStruct fa, reflect.RStruct fb =>
                 forallb (λ p, sameShapeWithin w n' p.1 p.2) (zip fa.*2 fb.*2)
             | _, _ => true
             end
      end
  end.

(** The call history of the comparison with the operands exchanged. *)
Definition exchanged (h : callHistory) : callHistory := set_map prod_swap h.

(** Two comparisons end alike: both return, with one verdict and with
    histories that are one another's exchange, or both panic, or neither
    ends. *)
Definition endAlike (o1 o2 : compared) : Prop :=
  match o1, o2 with
  | Done r1 s1, Done r2 s2 => r1.1 = r2.1 /\ s2.1 = exchanged s1.1
  | Fatal _, Fatal _ | Panic _, Panic _ | Diverge, Diverge => True
  | _, _ => False
  end.

(** ** The versions with [log.Fatal]

    Where the current version stops the test with [t.Fatal], the versions
    before it stop the process with [log.Fatal], and their runners return
    no diagnostic. *)

(** How a call of the versions with [log.Fatal] ends: it returns [x]; or
    [log.Fatal] has printed [line] and left the process; or the Go runtime
    panicked; or the recursion did not end within the steps allowed. *)
Inductive ended (A : Type) : Type :=
| Returns (x : A)
| Exits (line : string)
| Panics
| Diverges.

Arguments Returns {A} x.
Arguments Exits {A} line.
Arguments Panics {A}.
Arguments Diverges {A}.

(** ** The first version of the package ([testingutils.go])

    The first version compares [interface{}] values.  It keeps no call
    history and follows no pointer, it reads a floating-point number with
    the type assertion [a.(float64)], and its runner goes on after a result
    that does not match. *)

Module V0.

(** [const EPSILON = .0000000000001], local to [IsEqual] *)
Definition EPSILON : float := 0.0000000000001%float.

Section Package.
Variable w : reflect.World.

(** The type descriptor of [float64]. *)
Variable float64 : reflect.rtype.

(** [x, ok := a.(float64)]: the number, when the dynamic type of [a] is
    [float64] itself. *)
Definition assertFloat64 (a : reflect.iface) : option float :=
  let v := reflect.ValueOf w a in
  if reflect.IsValid w v && bool_decide (reflect.TypeOf w v = float64)
  then reflect.Value_Float w v
  else None.

(** [reflect.ValueOf(a).Index(i).Interface()] *)
Definition elemAt (a : reflect.iface) (i : nat) : option reflect.iface :=
  reflect.Value_Index w (reflect.ValueOf w a) i ≫= reflect.Value_Interface w.

(** [reflect.ValueOf(a).Field(i).Interface()] *)
Definition fieldAt (a : reflect.iface) (i : nat) : option reflect.iface :=
  reflect.Value_Field w (reflect.ValueOf w a) i ≫= reflect.Value_Interface w.

(** [for i := 0; i < n; i++ { if !cmp(at_a(i), at_b(i)) { return false
    } }; return true], for the [count] indices from [i] on. *)
Fixpoint allFrom (cmp : reflect.iface -> reflect.iface -> ended bool)
    (at_a at_b : nat -> option reflect.iface) (count i : nat) : ended bool :=
  match count with
  | O => Returns true
  | S count' =>
      match at_a i, at_b i with
      | Some x, Some y =>
          match cmp x y with
          | Returns true => allFrom cmp at_a at_b count' (S i)
          | other => other
          end
      | _, _ => Panics
      end
  end.

(** [IsEqual]; [fuel] bounds the depth of the recursion. *)
Fixpoint IsEqual (fuel : nat) (a b : reflect.iface) : ended bool :=
  match fuel with
  | O => Diverges
  | S fuel' =>
      let va := reflect.ValueOf w a in
      let vb := reflect.ValueOf w b in
      (* if a and b aren't the same thing => not equal *)
      if negb (bool_decide (reflect.Value_Kind w va = reflect.Value_Kind w vb))
      then Returns false
      (* if a and b are slices or structs, check their elements *)
      else if bool_decide (reflect.Value_Kind w va = reflect.Slice) then
        match reflect.Value_Len w va, reflect.Value_Len w vb with
        | Some la, Some lb =>
            if negb (la =? lb)%nat then Returns false
            else allFrom (IsEqual fuel') (elemAt a) (elemAt b) la 0
        | _, _ => Panics
        end
      else if bool_decide (reflect.Value_Kind w va = reflect.Struct) then
        match reflect.Value_NumField w va, reflect.Value_NumField w vb with
        | Some na, Some nb =>
            if negb (na =? nb)%nat then Returns false
            else allFrom (IsEqual fuel') (fieldAt a) (fieldAt b) na 0
        | _, _ => Panics
        end
      (* if a & b are float64 see whether they are within EPSILON of each
         other *)
      else if bool_decide (reflect.Value_Kind w va = reflect.Float64)
              && bool_decide (reflect.Value_Kind w vb = reflect.Float64) then
        match assertFloat64 a with
        | None => Exits "Fail sanity check: a is not a float64"
        | Some aflt =>
            match assertFloat64 b with
            | None => Exits "Fail sanity check: b is not a float64"
            | Some bflt =>
                Returns ((aflt - bflt <? EPSILON)%float
                         && (bflt - aflt <? EPSILON)%float)
            end
        end
      (* cover any unhandled case *)
      else Returns (reflect.DeepEqual w a b)
  end.

(** [PrintTruncated], for the values on which [fmt.Sprint] returns: the cap
    of this version is 500 bytes. *)
Definition PrintTruncated (val : reflect.iface) : string :=
  let result := reflect.Sprint w (reflect.ValueOf w val) in
  if (String.length result <? 500)%nat then result
  else substring 0 500 result +:+ nl +:+ "[...output truncated...]".

(** The loop of [RunTest] over the results, for the [count] positions from
    [i] on; [pass] is the variable of that name.  The closure [rvals] is
    the one of the current version. *)
Fixpoint compareResults (fuel : nat) (got expect : list reflect.Value)
    (exNames : list string) (count i : nat) (pass : bool) (t : T)
  : ended (bool * T) :=
  match count with
  | O => Returns (pass, t)
  | S count' =>
      match got !! i ≫= reflect.Value_Interface w,
            expect !! i ≫= reflect.Value_Interface w with
      | Some g, Some e =>
          match IsEqual fuel g e with
          | Returns true =>
              compareResults fuel got expect exNames count' (S i) pass t
          | Returns false =>
              (* if this function returns more than one result, figure
                 out the name of problem result *)
              let name :=
                if (1 <? length got)%nat
                then (λ n, " (" +:+ n +:+ ")") <$> exNames !! i
                else Some "" in
              match name with
              | None => Panics
              | Some name =>
                  let t := Logf t ("Expected" +:+ name +:+ ": "
                             +:+ PrintTruncated e +:+ nl +:+ nl) in
                  let t := Logf t ("Got     " +:+ name +:+ ": "
                             +:+ PrintTruncated g +:+ nl +:+ nl) in
                  compareResults fuel got expect exNames count' (S i) false t
              end
          | Exits line => Exits line
          | Panics => Panics
          | Diverges => Diverges
          end
      | _, _ => Panics
      end
  end.

(** [RunTest] *)
Definition RunTest (fuel : nat) (fnptr : Func)
    (invals expectvals : reflect.iface) (t : T) : ended (bool * T) :=
  let '(in_, _) := rvals w invals in
  let '(expect, exNames) := rvals w expectvals in
  if negb (length in_ =? NumIn fnptr)%nat then
    Exits "The number of in params doesn't match function parameters."
  else
    match Call fnptr in_ with
    | None => Panics
    | Some got =>
        if negb (length got =? NumOut fnptr)%nat then
          Exits "The number of expect params doesn't match function results."
        else compareResults fuel got expect exNames (length got) 0 true t
    end.

(** The loop of [RunAllTests], for the [count] cases from [i] on. *)
Fixpoint runCases (fuel : nat) (fnptr : Func)
    (allIn allExpect : list reflect.iface) (count i : nat) (t : T)
  : ended (unit * T) :=
  match count with
  | O => Returns (tt, t)
  | S count' =>
      let t := Logf t ("Testing case " +:+ fmt_v i +:+ nl) in
      match allIn !! i, allExpect !! i with
      | Some x, Some y =>
          match RunTest fuel fnptr x y t with
          | Returns (pass, t') =>
              let t' :=
                if pass then t'
                else Errorf t' ("FAIL case " +:+ fmt_v i +:+ nl) in
              runCases fuel fnptr allIn allExpect count' (S i) t'
          | Exits line => Exits line
          | Panics => Panics
          | Diverges => Diverges
          end
      | _, _ => Panics
      end
  end.

(** [RunAllTests]; the closure [fracture] is the one of the current
    version. *)
Definition RunAllTests (fuel : nat) (fnptr : Func)
    (allInVals allExpectVals : reflect.iface) (t : T) : ended (unit * T) :=
  (* confirm that allInVals and allExpectVals are slices *)
  if negb (bool_decide
             (reflect.Value_Kind w (reflect.ValueOf w allInVals) = reflect.Slice))
  then Exits "allInVals is not a slice"
  else if negb (bool_decide
             (reflect.Value_Kind w (reflect.ValueOf w allExpectVals) = reflect.Slice))
  then Exits "allExpectVals is not a slice"
  else
    match fracture w allInVals, fracture w allExpectVals with
    | Some allIn, Some allExpect =>
        if negb (length allIn =? length allExpect)%nat then
          Exits "Number of input tests doesn't match number of expected results"
        else runCases fuel fnptr allIn allExpect (length allIn) 0 t
    | _, _ => Panics
    end.
End Package.

(** Two comparisons end alike: both return, with one verdict, or both are
    stopped by [log.Fatal], or both panic, or neither ends. *)
Definition endAlike (o1 o2 : ended bool) : Prop :=
  match o1, o2 with
  | Returns x, Returns y => x = y
  | Exits _, Exits _ | Panics, Panics | Diverges, Diverges => True
  | _, _ => False
  end.


(** The outcome [o] of a runner with the lines [t0] before its log. *)
Definition after {A} (t0 : T) (o : ended (A * T)) : ended (A * T) :=
  match o with
  | Returns (x, t) => Returns (x, t0 ++ t)
  | Exits line => Exits line
  | Panics => Panics
  | Diverges => Diverges
  end.

(** What one case of a batch leaves in the log: the announcement of case
    [i], what the case itself logged, and the failure of a case that did not
    pass, with its number. *)
Definition caseLog (i : nat) (r : bool * T) : T :=
  [Logged ("Testing case " +:+ fmt_v i +:+ nl)]
    ++ r.2
    ++ (if r.1 then [] else [Errored ("FAIL case " +:+ fmt_v i +:+ nl)]).

(** The log of the cases numbered from [i] on, in order. *)
Fixpoint batchLog (i : nat) (rs : list (bool * T)) : T :=
  match rs with
  | [] => []
  | r :: rs => caseLog i r ++ batchLog (S i) rs
  end.
End V0.

(** ** The runners of the earlier version

    The runners that call the comparator of module [V2].  They hand it the
    results as the [reflect.Value]s they are, and go on after a result that
    does not match.  They print the values of such a result, and whether
    they end depends on whether [fmt.Sprint] does. *)

Module V2Runner.
Section Runner.
Variable w : reflect.World.

(** Whether [fmt.Sprint(v)] returns.  [fmt] follows the elements of slices,
    arrays and maps, the fields of structs and the values of interfaces
    with no guard against cycles, and a pointer at the top level only: it
    returns on a cycle of pointers, and does not on a value that holds
    itself through a slice, a map or an interface. *)
Variable Sprint_returns : reflect.Value -> bool.

(** [PrintTruncated]: the cap of the earlier version is 500 bytes; [None]
    where [fmt.Sprint] does not return. *)
Definition PrintTruncated (val : reflect.Value) : option string :=
  if Sprint_returns val then
    let result := reflect.Sprint w val in
    Some (if (String.length result <? 500)%nat then result
          else substring 0 500 result +:+ nl +:+ "[...output truncated...]")
  else None.

(** The loop of [RunTest] over the results, for the [count] positions from
    [i] on; [pass] is the variable of that name.  The comparator has no
    [t.Fatal]. *)
Fixpoint compareResults (fuel : nat) (got expect : list reflect.Value)
    (exNames : list string) (count i : nat) (pass : bool) (t : T)
  : ended (bool * T) :=
  match count with
  | O => Returns (pass, t)
  | S count' =>
      match got !! i, expect !! i with
      | Some g, Some e =>
          match V2.IsEqual w fuel g e with
          | Done true _ =>
              compareResults fuel got expect exNames count' (S i) pass t
          | Done false _ =>
              (* if this function returns more than one result, figure
                 out the name of problem result *)
              let name :=
                if (1 <? length got)%nat
                then (λ n, " (" +:+ n +:+ ")") <$> exNames !! i
                else Some "" in
              match name with
              | None => Panics
              | Some name =>
                  match PrintTruncated e with
                  | None => Diverges
                  | Some printed_e =>
                      let t := Logf t ("Expected" +:+ name +:+ ": "
                                 +:+ printed_e +:+ nl +:+ nl) in
                      match PrintTruncated g with
                      | None => Diverges
                      | Some printed_g =>
                          let t := Logf t ("Got     " +:+ name +:+ ": "
                                     +:+ printed_g +:+ nl +:+ nl) in
                          compareResults fuel got expect exNames count' (S i)
                            false t
                      end
                  end
              end
          | Fatal _ | Panic _ => Panics
          | Diverge => Diverges
          end
      | _, _ => Panics
      end
  end.

(** [RunTest]; the closure [rvals] is the one of the current version. *)
Definition RunTest (fuel : nat) (fnptr : Func)
    (invals expectvals : reflect.iface) (t : T) : ended (bool * T) :=
  let '(in_, _) := rvals w invals in
  let '(expect, exNames) := rvals w expectvals in
  if negb (length in_ =? NumIn fnptr)%nat then
    Exits "The number of in params doesn't match function parameters."
  else
    match Call fnptr in_ with
    | None => Panics
    | Some got =>
        if negb (length got =? NumOut fnptr)%nat then
          Exits "The number of expect params doesn't match function results."
        else compareResults fuel got expect exNames (length got) 0 true t
    end.

(** The loop of [RunAllTests], for the [count] cases from [i] on. *)
Fixpoint runCases (fuel : nat) (fnptr : Func)
    (allIn allExpect : list reflect.iface) (count i : nat) (t : T)
  : ended (unit * T) :=
  match count with
  | O => Returns (tt, t)
  | S count' =>
      let t := Logf t ("Testing case " +:+ fmt_v i +:+ nl) in
      match allIn !! i, allExpect !! i with
      | Some x, Some y =>
          match RunTest fuel fnptr x y t with
          | Returns (pass, t') =>
              let t' :=
                if pass then t'
                else Errorf t' ("FAIL case " +:+ fmt_v i +:+ nl) in
              runCases fuel fnptr allIn allExpect count' (S i) t'
          | Exits line => Exits line
          | Panics => Panics
          | Diverges => Diverges
          end
      | _, _ => Panics
      end
  end.

(** [RunAllTests]; the closure [fracture] is the one of the current
    version. *)
Definition RunAllTests (fuel : nat) (fnptr : Func)
    (allInVals allExpectVals : reflect.iface) (t : T) : ended (unit * T) :=
  (* confirm that allInVals and allExpectVals are slices *)
  if negb (bool_decide
             (reflect.Value_Kind w (reflect.ValueOf w allInVals) = reflect.Slice))
  then Exits "allInVals is not a slice"
  else if negb (bool_decide
             (reflect.Value_Kind w (reflect.ValueOf w allExpectVals) = reflect.Slice))
  then Exits "allExpectVals is not a slice"
  else
    match fracture w allInVals, fracture w allExpectVals with
    | Some allIn, Some allExpect =>
        if negb (length allIn =? length allExpect)%nat then
          Exits "Number of input tests doesn't match number of expected results"
        else runCases fuel fnptr allIn allExpect (length allIn) 0 t
    | _, _ => Panics
    end.
End Runner.
End V2Runner.

(** ** Further example worlds *)

Definition t_ptr_float64 : reflect.rtype := 15.
Definition t_ptr_ptr_float64 : reflect.rtype := 16.

(** [x := 1.0; y := 1.0 + EPSILON/2; px := &x; py := &y; ppx := &px;
    ppy := &py]: Values 1 and 2 are [ppx] and [ppy], Values 3 and 4 are
    [px] and [py], Values 5 and 6 are [x] and [y].  [reflect.DeepEqual]
    tells [px] from [py], which point to different numbers: their bits
    stand for the numbers. *)
Definition behind : reflect.World :=
  world_of
    [ exported t_ptr_ptr_float64 (reflect.RPtr (Some 3)) 0;
      exported t_ptr_ptr_float64 (reflect.RPtr (Some 4)) 0;
      exported t_ptr_float64 (reflect.RPtr (Some 5)) 1;
      exported t_ptr_float64 (reflect.RPtr (Some 6)) 2;
      exported t_float64 (reflect.RFloat64 1) 0;
      exported t_float64 (reflect.RFloat64 (1 + EPSILON / 2)) 0 ]
    fmt_v.

Definition t_Celsius : reflect.rtype := 17.
Definition t_Item : reflect.rtype := 18.
Definition t_ptr_Item : reflect.rtype := 19.
Definition t_slice_ptr_Item : reflect.rtype := 20.

(** [type Celsius float64]: Value 1 is [Celsius(1.0)], Value 2 is
    [float64(1.0)]. *)
Definition degrees : reflect.World :=
  world_of
    [ exported t_Celsius (reflect.RFloat64 1) 0;
      exported t_float64 (reflect.RFloat64 1) 0 ]
    fmt_v.

(** [func(x int) int { if x > 2 { panic("too big") }; return 2 * x }] on
    the ints of [ints]. *)
Definition doubleSmall : Func :=
  {| NumIn := 1; NumOut := 1;
     Call := λ args, match args with
                     | [x] => if (2 <? x)%nat then None else Some [2 * x]
                     | _ => None
                     end |}.

(** [type Item struct { Val int; Next *Item }; n := &Item{Val: 1};
    n.Next = n; m := &Item{Val: 2}; m.Next = m]: two cycles that differ in
    [Val].  Value 1 is [reflect.ValueOf(n)], Value 2 the struct it points
    to, Values 3 and 4 the fields of that struct, and Value 5 the slice
    [[]*Item{n}]; Values 6 to 10 are the same for [m]. *)
Definition rings : reflect.World :=
  world_of
    [ exported t_ptr_Item (reflect.RPtr (Some 2)) 0;
      exported t_Item (reflect.RStruct [("Val", 3); ("Next", 4)]) 0;
      exported t_int (reflect.RBasic reflect.BInt) 1;
      exported t_ptr_Item (reflect.RPtr (Some 2)) 0;
      exported t_slice_ptr_Item (reflect.RSlice [1]) 0;
      exported t_ptr_Item (reflect.RPtr (Some 7)) 0;
      exported t_Item (reflect.RStruct [("Val", 8); ("Next", 9)]) 0;
      exported t_int (reflect.RBasic reflect.BInt) 2;
      exported t_ptr_Item (reflect.RPtr (Some 7)) 0;
      exported t_slice_ptr_Item (reflect.RSlice [6]) 0 ]
    fmt_v.

(** [func(p *Item) *Item { return p }] *)
Definition same : Func :=
  {| NumIn := 1; NumOut := 1;
     Call := λ args, match args with
                     | [p] => Some [p]
                     | _ => None
                     end |}.

(** [struct{ X float64; n int }{0.5, 7}]: Value 1 is the struct, Values 2
    and 3 are its fields; [n] is not exported. *)
Definition hidden : reflect.World :=
  world_of
    [ exported t_record (reflect.RStruct [("X", 2); ("n", 3)]) 0;
      exported t_float64 (reflect.RFloat64 0.5) 0;
      unexported t_int (reflect.RBasic reflect.BInt) 7 ]
    fmt_v.

(** * Properties *)

(** ** Binary64 subtraction and the tolerance test *)

Lemma binary_round_aux_negb s m e l :
  binary_round_aux prec emax (negb s) m e l
  = SFopp (binary_round_aux prec emax s m e l).
Proof.
  unfold binary_round_aux.
  destruct (shr_fexp prec emax m e l) as [mrs' e'].
  destruct (shr_fexp prec emax _ e' loc_Exact) as [mrs'' e''].
  destruct (shr_m mrs''); try reflexivity.
  destruct (Z.leb _ _); reflexivity.
Qed.

Lemma binary_round_negb s m e :
  binary_round prec emax (negb s) m e = SFopp (binary_round prec emax s m e).
Proof.
  unfold binary_round.
  destruct (shl_align m e _) as [mz ez]. apply binary_round_aux_negb.
Qed.

Lemma binary_normalize_opp m e :
  mirrored (binary_normalize prec emax m e false)
           (binary_normalize prec emax (- m) e false).
Proof.
  destruct m as [|p|p]; simpl.
  - right. eauto.
  - left. apply (binary_round_negb false).
  - left. rewrite <- (binary_round_negb true). reflexivity.
Qed.

(** [y - x] is the opposite of [x - y], up to the sign of a zero. *)
Lemma SFsub_swap x y : mirrored (SF64sub x y) (SF64sub y x).
Proof.
  destruct x as [sx|sx| |sx mx ex], y as [sy|sy| |sy my ey];
    try (left; reflexivity);
    try solve [destruct sx, sy; simpl; solve [left; reflexivity | right; eauto]].
  unfold SF64sub, SFsub. rewrite (Z.min_comm ey ex).
  set (X := cond_Zopp sx _). set (Y := cond_Zopp sy _).
  replace (Y - X)%Z with (- (X - Y))%Z by lia.
  apply binary_normalize_opp.
Qed.

Lemma SFltb_mirrored x y e : mirrored x y -> SFltb (SFopp x) e = SFltb y e.
Proof.
  intros [-> | (s & s' & -> & ->)]; [reflexivity|].
  destruct e; reflexivity.
Qed.

Lemma ltb_opp_sub a b e : (- (a - b) <? e)%float = (b - a <? e)%float.
Proof.
  rewrite !FloatAxioms.ltb_spec, FloatAxioms.opp_spec, !FloatAxioms.sub_spec.
  apply SFltb_mirrored, SFsub_swap.
Qed.

(** The test [diff < EPSILON && -diff < EPSILON] is the symmetric one. *)
Lemma withinEpsilon_symmetric_form x y :
  withinEpsilon x y = ((x - y <? EPSILON)%float && (y - x <? EPSILON)%float).
Proof. unfold withinEpsilon. cbv zeta. rewrite ltb_opp_sub. reflexivity. Qed.

Lemma withinEpsilon_comm x y : withinEpsilon x y = withinEpsilon y x.
Proof. rewrite !withinEpsilon_symmetric_form. apply andb_comm. Qed.

Lemma SFsub_diag x :
  match x with S754_nan | S754_infinity _ => False | _ => True end ->
  SF64sub x x = S754_zero false.
Proof.
  destruct x as [s|s| |s m e]; try tauto; intros _.
  - destruct s; reflexivity.
  - unfold SF64sub, SFsub. rewrite Z.sub_diag. reflexivity.
Qed.

Lemma is_finite_SF x :
  is_finite x = true ->
  match Prim2SF x with S754_nan | S754_infinity _ => False | _ => True end.
Proof.
  unfold is_finite, is_nan, is_infinity. intros H.
  rewrite !FloatAxioms.eqb_spec, FloatAxioms.abs_spec in H.
  destruct (Prim2SF x) as [s|s| |s m e]; try tauto.
  - destruct s; vm_compute in H; discriminate H.
  - vm_compute in H; discriminate H.
Qed.

(** A finite number is within the tolerance of itself. *)
Lemma withinEpsilon_refl x : is_finite x = true -> withinEpsilon x x = true.
Proof.
  intros H. apply is_finite_SF in H.
  unfold withinEpsilon. cbv zeta.
  rewrite !FloatAxioms.ltb_spec, FloatAxioms.opp_spec, FloatAxioms.sub_spec,
    SFsub_diag by assumption.
  vm_compute. reflexivity.
Qed.

(** ** The accessors of [reflect.Value] *)

Section ReflectFacts.
Variable w : reflect.World.

Lemma Value_Float_kind v f :
  reflect.Value_Float w v = Some f ->
  isFloatKind (reflect.Value_Kind w v) = true.
Proof.
  unfold reflect.Value_Float, reflect.Value_Kind.
  destruct (reflect.holds w v); intros; simplify_eq; reflexivity.
Qed.

Lemma Value_Float_not_Ptr v f :
  reflect.Value_Float w v = Some f ->
  reflect.Value_Kind w v <> reflect.Ptr.
Proof.
  unfold reflect.Value_Float, reflect.Value_Kind.
  destruct (reflect.holds w v); intros; simplify_eq; discriminate.
Qed.

Lemma indirect_not_Ptr a b :
  reflect.Value_Kind w a <> reflect.Ptr -> indirect w a b = Some (a, b).
Proof. intros H. unfold indirect. rewrite bool_decide_eq_false_2; done. Qed.
End ReflectFacts.

(** ** C1: floating-point values *)

Section Floats.
Variable w : reflect.World.

(** Two floats of one kind: the answer is the tolerance test, the message
    names both numbers, and a failure is logged. *)
Lemma IsEqualLoopBreaker_floats fuel a b fa fb h t :
  reflect.Value_Float w a = Some fa ->
  reflect.Value_Float w b = Some fb ->
  reflect.Value_Kind w a = reflect.Value_Kind w b ->
  (a, b) ∉ h ->
  IsEqualLoopBreaker w (S fuel) a b h t
  = if withinEpsilon fa fb then Done (true, "") (h, t)
    else
      let msg := "Failing on a floating-point comparison: "
                   +:+ reflect.fmt_f w fa +:+ " != "
                   +:+ reflect.fmt_f w fb +:+ nl in
      Done (false, msg) (h, Logf t msg).
Proof.
  intros Ha Hb Hk Hh. cbn [IsEqualLoopBreaker].
  rewrite bool_decide_eq_false_2 by assumption.
  rewrite (bool_decide_eq_true_2 _ Hk). cbn [negb].
  rewrite indirect_not_Ptr by eauto using Value_Float_not_Ptr.
  unfold afterIndirect.
  rewrite (Value_Float_kind _ _ _ Ha), Ha, Hb. reflexivity.
Qed.
End Floats.

(** C1 (as amended): in the current version of the package, for every pair
    of floating-point values [a] and [b] of one kind (both [float64] or both
    [float32]) passed to the comparator, the result is equal exactly when
    [(a - b) < EPSILON] and [(b - a) < EPSILON]; in particular [1.0] and
    [1.0 + EPSILON/2] are found equal, and [1.0] and [1.0 + EPSILON*10] are
    not.  A [float32] against a [float64] is unequal with "Not same types",
    whatever the numbers. *)
Theorem IsEqual_floats_of_one_kind w fuel a b fa fb t :
  reflect.Value_Float w a = Some fa ->
  reflect.Value_Float w b = Some fb ->
  (reflect.Value_Kind w a = reflect.Value_Kind w b ->
   fst <$> returned (IsEqual w (S fuel) a b t)
   = Some ((fa - fb <? EPSILON)%float && (fb - fa <? EPSILON)%float)
   /\ (fa = 1%float -> fb = (1 + EPSILON / 2)%float ->
       IsEqual w (S fuel) a b t = Done (true, "") t)
   /\ (fa = 1%float -> fb = (1 + EPSILON * 10)%float ->
       fst <$> returned (IsEqual w (S fuel) a b t) = Some false))
  /\ (reflect.Value_Kind w a <> reflect.Value_Kind w b ->
      IsEqual w (S fuel) a b t = Done (false, "Not same types") t).
Proof.
  intros Ha Hb. split.
  2: { intros Hk. unfold IsEqual. cbn [IsEqualLoopBreaker].
       rewrite bool_decide_eq_false_2 by set_solver.
       rewrite (bool_decide_eq_false_2 _ Hk). reflexivity. }
  intros Hk.
  assert (Hrun : IsEqual w (S fuel) a b t
                 = if withinEpsilon fa fb then Done (true, "") t
                   else
                     let msg := "Failing on a floating-point comparison: "
                                  +:+ reflect.fmt_f w fa +:+ " != "
                                  +:+ reflect.fmt_f w fb +:+ nl in
                     Done (false, msg) (Logf t msg)).
  { unfold IsEqual.
    rewrite (IsEqualLoopBreaker_floats w fuel a b fa fb ∅ t Ha Hb Hk)
      by set_solver.
    destruct (withinEpsilon fa fb); reflexivity. }
  rewrite Hrun. split; [|split].
  - rewrite <- withinEpsilon_symmetric_form.
    destruct (withinEpsilon fa fb); reflexivity.
  - intros -> ->. reflexivity.
  - intros -> ->. reflexivity.
Qed.

Lemma IsEqual_floats_of_one_kind_witness :
  reflect.Value_Float floats 1 = Some 1%float
  /\ reflect.Value_Float floats 2 = Some (1 + EPSILON / 2)%float
  /\ reflect.Value_Kind floats 1 = reflect.Value_Kind floats 2
  /\ IsEqual floats 1 1 2 [] = Done (true, "") [].
Proof.
  split; [reflexivity|]. split; [reflexivity|]. split; [reflexivity|].
  destruct (IsEqual_floats_of_one_kind floats 0 1 2 1%float (1 + EPSILON / 2)%float []
              eq_refl eq_refl) as [Hsame _].
  destruct (Hsame eq_refl) as (_ & Hnear & _).
  exact (Hnear eq_refl eq_refl).
Defined.

(** C1 as stated fails on a [float32] and a [float64]: [float32(1.0)] and
    [float64(1.0)] differ by zero, and the comparator answers "Not same
    types". *)
Lemma IsEqual_float32_float64_differ :
  reflect.Value_Float floats 4 = Some 1%float
  /\ reflect.Value_Float floats 1 = Some 1%float
  /\ ((1 - 1 <? EPSILON)%float && (1 - 1 <? EPSILON)%float) = true
  /\ IsEqual floats 1 4 1 [] = Done (false, "Not same types") [].
Proof. repeat split; reflexivity. Qed.

(** ** The steps of the comparator *)

Section Steps.
Variable w : reflect.World.

Lemma IsEqualLoopBreaker_visited fuel a b h t :
  (a, b) ∈ h -> IsEqualLoopBreaker w (S fuel) a b h t = Done (true, "") (h, t).
Proof. intros H. cbn [IsEqualLoopBreaker]. rewrite bool_decide_eq_true_2; done. Qed.

Lemma IsEqualLoopBreaker_kinds_differ fuel a b h t :
  (a, b) ∉ h ->
  reflect.Value_Kind w a <> reflect.Value_Kind w b ->
  IsEqualLoopBreaker w (S fuel) a b h t = Done (false, "Not same types") (h, t).
Proof.
  intros Hh Hk. cbn [IsEqualLoopBreaker].
  rewrite bool_decide_eq_false_2 by assumption.
  rewrite (bool_decide_eq_false_2 _ Hk). reflexivity.
Qed.

Lemma IsEqualLoopBreaker_enter fuel a b a' b' h t :
  (a, b) ∉ h ->
  reflect.Value_Kind w a = reflect.Value_Kind w b ->
  indirect w a b = Some (a', b') ->
  IsEqualLoopBreaker w (S fuel) a b h t
  = afterIndirect w (IsEqualLoopBreaker w fuel) a' b' h t.
Proof.
  intros Hh Hk Hi. cbn [IsEqualLoopBreaker].
  rewrite bool_decide_eq_false_2 by assumption.
  rewrite (bool_decide_eq_true_2 _ Hk). cbn [negb]. rewrite Hi. reflexivity.
Qed.

(** The loop does not look at the accessors beyond what they return. *)
Lemma compareFrom_ext cmp at_a at_a' at_b at_b' count i h t :
  (forall k, at_a k = at_a' k) -> (forall k, at_b k = at_b' k) ->
  compareFrom cmp at_a at_b count i h t = compareFrom cmp at_a' at_b' count i h t.
Proof.
  intros Ea Eb. revert i h t.
  induction count as [|count IH]; intros i h t; [reflexivity|].
  cbn [compareFrom]. rewrite <- Ea, <- Eb.
  destruct (at_a i), (at_b i); try reflexivity.
  destruct (cmp _ _ h t) as [[[] ?] [? ?]| | |]; auto.
Qed.

(** A struct against a struct, once past the indirection. *)
Lemma afterIndirect_structs cmp a b fa fb h t :
  reflect.holds w a = reflect.RStruct fa ->
  reflect.holds w b = reflect.RStruct fb ->
  afterIndirect w cmp a b h t
  = if negb (length fa =? length fb)%nat
    then Done (false, "Number of fields in struct do not match")
           ({[ (a, b) ]} ∪ h, t)
    else compareFrom cmp (fa.*2 !!.) (fb.*2 !!.) (length fa) 0
           ({[ (a, b) ]} ∪ h) t.
Proof.
  intros Ha Hb.
  unfold afterIndirect, reflect.Value_Kind, reflect.Value_NumField.
  rewrite Ha, Hb. cbn.
  destruct (negb _); [reflexivity|].
  apply compareFrom_ext; intros k;
    unfold reflect.Value_Field; rewrite ?Ha, ?Hb, list_lookup_fmap; reflexivity.
Qed.

(** A slice or an array against a slice or an array. *)
Lemma afterIndirect_sequences cmp a b la lb h t :
  (reflect.holds w a = reflect.RSlice la \/ reflect.holds w a = reflect.RArray la) ->
  (reflect.holds w b = reflect.RSlice lb \/ reflect.holds w b = reflect.RArray lb) ->
  afterIndirect w cmp a b h t
  = if negb (length la =? length lb)%nat
    then Done (false, "Slices having different lengths") ({[ (a, b) ]} ∪ h, t)
    else compareFrom cmp (la !!.) (lb !!.) (length la) 0 ({[ (a, b) ]} ∪ h) t.
Proof.
  intros Ha Hb.
  unfold afterIndirect, reflect.Value_Kind, reflect.Value_Len.
  destruct Ha as [Ha|Ha], Hb as [Hb|Hb]; rewrite Ha, Hb; cbn;
    (destruct (negb _); [reflexivity|]);
    apply compareFrom_ext; intros k;
    unfold reflect.Value_Index; rewrite ?Ha, ?Hb; reflexivity.
Qed.
End Steps.

(** ** C2: termination on cyclic values *)

(** The field [Next] of the ring is compared against itself again and again:
    the call history is consulted for the pair of pointers passed in, and
    what is recorded is the pair of structs they point to. *)
Lemma ring_field_never_returns fuel h t :
  (3, 3) ∉ h -> IsEqualLoopBreaker ring fuel 3 3 h t = Diverge.
Proof.
  revert h t. induction fuel as [|fuel IH]; intros h t Hh; [reflexivity|].
  rewrite (IsEqualLoopBreaker_enter ring fuel 3 3 2 2) by (assumption || reflexivity).
  rewrite (afterIndirect_structs ring _ 2 2 [("Next", 3)] [("Next", 3)])
    by reflexivity.
  cbn [length Nat.eqb negb compareFrom fmap list_fmap lookup list_lookup snd].
  rewrite IH; [reflexivity|].
  rewrite elem_of_union, elem_of_singleton.
  intros [Heq|Hin]; [discriminate Heq | contradiction].
Qed.

(** C2 (the code departs from it): comparing the one-node ring [n.Next = n]
    with itself does not return, however deep the recursion may go. *)
Theorem IsEqual_pointer_cycle_never_returns fuel t :
  IsEqual ring fuel 1 1 t = Diverge.
Proof.
  unfold IsEqual. destruct fuel as [|fuel]; [reflexivity|].
  rewrite (IsEqualLoopBreaker_enter ring fuel 1 1 2 2) by (set_solver || reflexivity).
  rewrite (afterIndirect_structs ring _ 2 2 [("Next", 3)] [("Next", 3)])
    by reflexivity.
  cbn [length Nat.eqb negb compareFrom fmap list_fmap lookup list_lookup snd].
  rewrite ring_field_never_returns; [reflexivity|].
  rewrite elem_of_union, elem_of_singleton, elem_of_empty.
  intros [Heq|[]]. discriminate Heq.
Qed.

(** The earlier version, which records the pair it was called with, finds
    the same ring equal to itself. *)
Lemma V2_IsEqual_pointer_cycle_returns :
  returned (V2.IsEqual ring 3 1 1) = Some true.
Proof. vm_compute. reflexivity. Qed.

(** ** C3: a value against itself *)

Section Reflexivity.
Variable w : reflect.World.

Lemma indirect_self v : indirect w v v = Some (pointee w v, pointee w v).
Proof.
  unfold indirect, pointee, reflect.Value_Kind, reflect.Value_IsNil,
    reflect.Value_Elem.
  destruct (reflect.holds w v) as [| |[e|]| | | | | | |k]; try reflexivity.
  destruct k; reflexivity.
Qed.

Lemma compareFrom_self cmp (l : list reflect.Value) t :
  (forall v h, v ∈ l -> exists h', cmp v v h t = Done (true, "") (h', t)) ->
  forall count i h,
    count + i = length l ->
    exists h', compareFrom cmp (l !!.) (l !!.) count i h t = Done (true, "") (h', t).
Proof.
  intros Hcmp. induction count as [|count IH]; intros i h Hlen.
  - exists h. reflexivity.
  - cbn [compareFrom].
    destruct (lookup_lt_is_Some_2 l i) as [v Hv]; [lia|].
    rewrite Hv.
    destruct (Hcmp v h) as [h' ->]; [by eapply list_elem_of_lookup_2|].
    apply IH. lia.
Qed.

Lemma forallb_elem_of {A} (f : A -> bool) (l : list A) x :
  forallb f l = true -> x ∈ l -> f x = true.
Proof.
  intros H Hx. rewrite forallb_forall in H. apply H.
  by apply list_elem_of_In.
Qed.

Lemma IsEqualLoopBreaker_self n v h t :
  selfEqualWithin w n v = true ->
  exists h', IsEqualLoopBreaker w n v v h t = Done (true, "") (h', t).
Proof.
  revert v h. induction n as [|n IH]; intros v h Hv; [discriminate Hv|].
  destruct (decide ((v, v) ∈ h)) as [Hin|Hnin].
  { exists h. by apply IsEqualLoopBreaker_visited. }
  rewrite (IsEqualLoopBreaker_enter w n v v _ _ h t Hnin eq_refl (indirect_self v)).
  cbn [selfEqualWithin] in Hv.
  set (b := pointee w v) in *. clearbody b.
  destruct (reflect.holds w b) as [f|f|e|l|l|fs|l|k|k|k] eqn:Hb.
  - exists h. unfold afterIndirect, reflect.Value_Kind, reflect.Value_Float.
    rewrite Hb. cbn. by rewrite withinEpsilon_refl.
  - exists h. unfold afterIndirect, reflect.Value_Kind, reflect.Value_Float.
    rewrite Hb. cbn. by rewrite withinEpsilon_refl.
  - destruct (reflect.Value_Interface w b) as [i|] eqn:Hi; [|discriminate Hv].
    eexists. unfold afterIndirect, reflect.Value_Kind. rewrite Hb. cbn.
    rewrite Hi, Hv. reflexivity.
  - rewrite (afterIndirect_sequences w _ b b l l) by eauto.
    rewrite Nat.eqb_refl. cbn [negb].
    apply compareFrom_self; [|lia].
    intros x h0 Hx. apply IH. by eapply forallb_elem_of.
  - rewrite (afterIndirect_sequences w _ b b l l) by eauto.
    rewrite Nat.eqb_refl. cbn [negb].
    apply compareFrom_self; [|lia].
    intros x h0 Hx. apply IH. by eapply forallb_elem_of.
  - rewrite (afterIndirect_structs w _ b b fs fs) by eauto.
    rewrite Nat.eqb_refl. cbn [negb].
    apply compareFrom_self; [|by rewrite length_fmap].
    intros x h0 Hx. apply IH. by eapply forallb_elem_of.
  - destruct (reflect.Value_Interface w b) as [i|] eqn:Hi; [|discriminate Hv].
    eexists. unfold afterIndirect, reflect.Value_Kind. rewrite Hb. cbn.
    rewrite Hi, Hv. reflexivity.
  - destruct (reflect.Value_Interface w b) as [i|] eqn:Hi; [|discriminate Hv].
    eexists. unfold afterIndirect, reflect.Value_Kind. rewrite Hb. cbn.
    rewrite Hi, Hv. reflexivity.
  - destruct (reflect.Value_Interface w b) as [i|] eqn:Hi; [|discriminate Hv].
    eexists. unfold afterIndirect, reflect.Value_Kind. rewrite Hb. cbn.
    rewrite Hi, Hv. reflexivity.
  - destruct (reflect.Value_Interface w b) as [i|] eqn:Hi; [|discriminate Hv].
    eexists. unfold afterIndirect, reflect.Value_Kind. rewrite Hb.
    destruct k; cbn; rewrite Hi, Hv; reflexivity.
Qed.
End Reflexivity.

(** C3 (as amended): the comparator finds [x] equal to [x] for every value
    [x] that is exhausted within finitely many levels of pointers, elements
    and fields, whose floating-point leaves are finite numbers, and whose
    other leaves can be boxed and are [DeepEqual] to themselves; it returns
    within as many levels of recursion. *)
Theorem IsEqual_reflexive_on_finite_values w n x t :
  selfEqualWithin w n x = true ->
  IsEqual w n x x t = Done (true, "") t.
Proof.
  intros Hx. unfold IsEqual.
  destruct (IsEqualLoopBreaker_self w n x ∅ t Hx) as [h' ->]. reflexivity.
Qed.

Lemma IsEqual_reflexive_on_finite_values_witness :
  selfEqualWithin tree 3 1 = true
  /\ IsEqual tree 3 1 1 [] = Done (true, "") [].
Proof.
  split; [reflexivity|].
  apply (IsEqual_reflexive_on_finite_values tree 3 1 []). reflexivity.
Defined.

(** C3 as stated fails on a NaN: compared with itself it is found unequal
    (the difference is a NaN, and no NaN is below [EPSILON]). *)
Lemma IsEqual_NaN_differs_from_itself :
  reflect.holds floats 5 = reflect.RFloat64 nan
  /\ fst <$> returned (IsEqual floats 1 5 5 []) = Some false.
Proof. split; reflexivity. Qed.

(** ** Values without cycles: the comparator returns *)

Section Finite.
Variable w : reflect.World.

Lemma compareFrom_returns cmp at_a at_b :
  (forall i x y h t, at_a i = Some x -> cmp x y h t <> Diverge) ->
  forall count i h t, compareFrom cmp at_a at_b count i h t <> Diverge.
Proof.
  intros Hcmp. induction count as [|count IH]; intros i h t; [discriminate|].
  cbn [compareFrom]. destruct (at_a i) as [x|] eqn:Hx; [|discriminate].
  destruct (at_b i) as [y|]; [|discriminate].
  specialize (Hcmp i x y h t Hx).
  destruct (cmp x y h t) as [[[] msg] [h' t']| | |]; try discriminate; [apply IH|].
  contradiction.
Qed.

(** What is left of [a] after the indirection is its pointee, or a pointer. *)
Lemma indirect_left a b a' b' :
  indirect w a b = Some (a', b') ->
  a' = pointee w a \/ exists e, reflect.holds w a' = reflect.RPtr e.
Proof.
  unfold indirect, pointee, reflect.Value_Kind, reflect.Value_IsNil,
    reflect.Value_Elem.
  destruct (reflect.holds w a) as [| |[e|]| | | | | | |k] eqn:Ha;
    try destruct (reflect.holds w b) as [| |[e'|]| | | | | | |k'];
    intros H; case_bool_decide; simplify_eq;
    first [by left | right; eauto].
Qed.

Lemma afterIndirect_returns cmp a b h t :
  (forall x y h t,
      x ∈ match reflect.holds w a with
          | reflect.RSlice l | reflect.RArray l => l
          | reflect.RStruct fs => fs.*2
          | _ => []
          end ->
      cmp x y h t <> Diverge) ->
  afterIndirect w cmp a b h t <> Diverge.
Proof.
  intros Hcmp. unfold afterIndirect.
  destruct (isFloatKind _).
  { destruct (reflect.Value_Float w a), (reflect.Value_Float w b); try discriminate.
    destruct (withinEpsilon _ _); discriminate. }
  cbv zeta. destruct (isSeqKind _) eqn:Hseq.
  { destruct (reflect.Value_Len w a), (reflect.Value_Len w b); try discriminate.
    destruct (negb _); [discriminate|].
    apply compareFrom_returns. intros i x y h0 t0 Hx. apply Hcmp.
    unfold reflect.Value_Index in Hx. unfold reflect.Value_Kind in Hseq.
    destruct (reflect.holds w a); try discriminate Hx; try discriminate Hseq;
      by eapply list_elem_of_lookup_2. }
  destruct (bool_decide _).
  { destruct (reflect.Value_NumField w a), (reflect.Value_NumField w b);
      try discriminate.
    destruct (negb _); [discriminate|].
    apply compareFrom_returns. intros i x y h0 t0 Hx. apply Hcmp.
    unfold reflect.Value_Field in Hx.
    destruct (reflect.holds w a); try discriminate Hx.
    rewrite <- list_lookup_fmap in Hx. by eapply list_elem_of_lookup_2. }
  destruct (reflect.Value_Interface w a), (reflect.Value_Interface w b);
    try discriminate.
  destruct (reflect.DeepEqual _ _ _); discriminate.
Qed.
(** On a first argument that is exhausted within [n] levels the comparator
    returns or panics within [n] levels of recursion, whatever the second
    argument and the call history are. *)
Lemma IsEqualLoopBreaker_returns_on_finite_values n :
  forall a b h t,
    exhaustedWithin w n a = true ->
    IsEqualLoopBreaker w n a b h t <> Diverge.
Proof.
  induction n as [|n IH]; intros a b h t Ha; [discriminate Ha|].
  cbn [IsEqualLoopBreaker].
  destruct (bool_decide _); [discriminate|].
  destruct (negb _); [discriminate|].
  destruct (indirect w a b) as [[a' b']|] eqn:Hi; [|discriminate].
  apply afterIndirect_returns. intros x y h0 t0 Hx. apply IH.
  cbn [exhaustedWithin] in Ha.
  destruct (indirect_left a b a' b' Hi) as [-> | [e He]].
  - destruct (reflect.holds w (pointee w a)); try (by apply elem_of_nil in Hx);
      by eapply forallb_elem_of.
  - rewrite He in Hx. by apply elem_of_nil in Hx.
Qed.
End Finite.

(** ** C4: sequences *)

Section Sequences.
Variable w : reflect.World.
Variable cmp : reflect.Value -> reflect.Value -> callHistory -> T -> compared.

Lemma drop_zip_lookup (la lb : list reflect.Value) i x y :
  la !! i = Some x -> lb !! i = Some y ->
  drop i (zip la lb) = (x, y) :: drop (S i) (zip la lb).
Proof.
  intros Hx Hy. apply drop_S.
  rewrite lookup_zip_with, Hx, Hy. reflexivity.
Qed.

(** Every pair passes: the loop returns [true] and the empty message. *)
Lemma compareFrom_all_pass la lb count i h t s1 :
  length la = length lb ->
  count + i = length la ->
  passes (inState cmp) (drop i (zip la lb)) (h, t) s1 ->
  compareFrom cmp (la !!.) (lb !!.) count i h t = Done (true, "") s1.
Proof.
  intros Hlen. revert i h t.
  induction count as [|count IH]; intros i h t Hi Hp.
  - rewrite drop_ge in Hp by (rewrite length_zip_with; lia).
    inversion Hp; subst. reflexivity.
  - destruct (lookup_lt_is_Some_2 la i) as [x Hx]; [lia|].
    destruct (lookup_lt_is_Some_2 lb i) as [y Hy]; [lia|].
    rewrite (drop_zip_lookup la lb i x y Hx Hy) in Hp.
    inversion Hp as [|? ? ? ? msg [h' t'] ? Hc Hrest]; subst.
    cbn [compareFrom]. rewrite Hx, Hy.
    unfold inState in Hc. cbn [fst snd] in Hc. rewrite Hc.
    apply IH; [lia|assumption].
Qed.

(** The pairs before the [k]th pass and the [k]th fails: the loop returns
    [false] with the message of the [k]th, whatever comes after it. *)
Lemma compareFrom_first_fail la lb k :
  length la = length lb ->
  forall count i h t s1 x y m s2,
    count + i = length la ->
    passes (inState cmp) (take k (drop i (zip la lb))) (h, t) s1 ->
    la !! (i + k) = Some x -> lb !! (i + k) = Some y ->
    inState cmp x y s1 = Done (false, m) s2 ->
    compareFrom cmp (la !!.) (lb !!.) count i h t = Done (false, m) s2.
Proof.
  intros Hlen. induction k as [|k IH]; intros count i h t s1 x y m s2 Hi Hp Hx Hy Hc.
  - rewrite Nat.add_0_r in Hx, Hy.
    inversion Hp; subst.
    apply lookup_lt_Some in Hx as Hlt.
    destruct count as [|count]; [lia|].
    cbn [compareFrom]. rewrite Hx, Hy.
    unfold inState in Hc. cbn [fst snd] in Hc. rewrite Hc. reflexivity.
  - assert (Hlt : i + S k < length la) by (by eapply lookup_lt_Some).
    destruct (lookup_lt_is_Some_2 la i) as [x0 Hx0]; [lia|].
    destruct (lookup_lt_is_Some_2 lb i) as [y0 Hy0]; [lia|].
    rewrite (drop_zip_lookup la lb i x0 y0 Hx0 Hy0) in Hp.
    cbn [take] in Hp.
    inversion Hp as [|? ? ? ? msg [h' t'] ? Hc0 Hrest]; subst.
    destruct count as [|count]; [lia|].
    cbn [compareFrom]. rewrite Hx0, Hy0.
    unfold inState in Hc0. cbn [fst snd] in Hc0. rewrite Hc0.
    apply (IH count (S i) h' t' s1 x y m s2); try assumption; try lia.
    + by replace (S i + k) with (i + S k) by lia.
    + by replace (S i + k) with (i + S k) by lia.
Qed.
End Sequences.

(** C4 (as amended): for every pair of sequences of one kind (two slices, or
    two arrays), the comparator reports unequal with a diagnostic that
    mentions the lengths when the lengths differ; otherwise it compares the
    elements at matching indices in order, from the call history that holds
    the pair itself: when the elements before index [i] are found equal and
    the elements at [i] are not, it returns unequal with the diagnostic of
    that comparison, whatever the later elements are, and when all are found
    equal it returns equal. *)
Theorem IsEqual_sequences_of_one_kind w fuel a b la lb t :
  (reflect.holds w a = reflect.RSlice la /\ reflect.holds w b = reflect.RSlice lb)
  \/ (reflect.holds w a = reflect.RArray la /\ reflect.holds w b = reflect.RArray lb) ->
  (length la <> length lb ->
   IsEqual w (S fuel) a b t = Done (false, "Slices having different lengths") t)
  /\ (length la = length lb ->
      (forall i x y s1 m h2 t2,
          passes (compareIn w fuel) (take i (zip la lb)) ({[ (a, b) ]}, t) s1 ->
          la !! i = Some x -> lb !! i = Some y ->
          compareIn w fuel x y s1 = Done (false, m) (h2, t2) ->
          IsEqual w (S fuel) a b t = Done (false, m) t2)
      /\ (forall h1 t1,
          passes (compareIn w fuel) (zip la lb) ({[ (a, b) ]}, t) (h1, t1) ->
          IsEqual w (S fuel) a b t = Done (true, "") t1)).
Proof.
  intros Hab.
  assert (Hk : reflect.Value_Kind w a = reflect.Value_Kind w b).
  { unfold reflect.Value_Kind. destruct Hab as [[-> ->]|[-> ->]]; reflexivity. }
  assert (Hi : indirect w a b = Some (a, b)).
  { apply indirect_not_Ptr. unfold reflect.Value_Kind.
    destruct Hab as [[-> _]|[-> _]]; discriminate. }
  assert (Hrun : IsEqualLoopBreaker w (S fuel) a b ∅ t
                 = if negb (length la =? length lb)%nat
                   then Done (false, "Slices having different lengths")
                          ({[ (a, b) ]}, t)
                   else compareFrom (IsEqualLoopBreaker w fuel) (la !!.) (lb !!.)
                          (length la) 0 {[ (a, b) ]} t).
  { rewrite (IsEqualLoopBreaker_enter w fuel a b a b ∅ t) by (set_solver || assumption).
    rewrite (afterIndirect_sequences w _ a b la lb) by (destruct Hab as [[??]|[??]]; eauto).
    rewrite (right_id_L ∅ (∪)). reflexivity. }
  unfold IsEqual. rewrite Hrun. split.
  - intros Hne. apply Nat.eqb_neq in Hne. rewrite Hne. reflexivity.
  - intros Hlen. rewrite Hlen, Nat.eqb_refl. cbn [negb]. split.
    + intros i x y s1 m h2 t2 Hp Hx Hy Hc.
      rewrite (compareFrom_first_fail (IsEqualLoopBreaker w fuel) la lb i Hlen
                 (length lb) 0 {[ (a, b) ]} t s1 x y m (h2, t2));
        [reflexivity | lia | exact Hp | exact Hx | exact Hy | exact Hc].
    + intros h1 t1 Hp.
      rewrite (compareFrom_all_pass (IsEqualLoopBreaker w fuel) la lb
                 (length lb) 0 {[ (a, b) ]} t (h1, t1));
        [reflexivity | exact Hlen | lia | exact Hp].
Qed.

Lemma IsEqual_sequences_of_one_kind_witness :
  ((reflect.holds seqs 5 = reflect.RSlice [1; 2]
    /\ reflect.holds seqs 6 = reflect.RSlice [1; 1])
   \/ (reflect.holds seqs 5 = reflect.RArray [1; 2]
       /\ reflect.holds seqs 6 = reflect.RArray [1; 1]))
  /\ IsEqual seqs 2 5 6 [] = Done (false, "reflect.DeepEqual failed") [].
Proof.
  split; [left; split; reflexivity|].
  destruct (IsEqual_sequences_of_one_kind seqs 1 5 6 [1; 2] [1; 1] [])
    as [_ Hsame]; [left; split; reflexivity|].
  destruct (Hsame eq_refl) as [Hfail _].
  apply (Hfail 1 2 1 ({[ (1, 1) ]} ∪ {[ (5, 6) ]}, [])
           "reflect.DeepEqual failed" ({[ (2, 1) ]} ∪ ({[ (1, 1) ]} ∪ {[ (5, 6) ]})) []).
  - apply (passes_cons (compareIn seqs 1) 1 1 [] ({[ (5, 6) ]}, []) ""
             ({[ (1, 1) ]} ∪ {[ (5, 6) ]}, []) ({[ (1, 1) ]} ∪ {[ (5, 6) ]}, []));
      [vm_compute; reflexivity | apply passes_nil].
  - reflexivity.
  - reflexivity.
  - vm_compute. reflexivity.
Defined.

(** C4 as stated fails on a slice against an array: [[]int{7}] and
    [[2]int{7, 8}] differ in length, and the diagnostic is "Not same types",
    which says nothing of lengths. *)
Lemma IsEqual_slice_against_array :
  reflect.holds seqs 3 = reflect.RSlice [1]
  /\ reflect.holds seqs 4 = reflect.RArray [1; 2]
  /\ IsEqual seqs 1 3 4 [] = Done (false, "Not same types") [].
Proof. repeat split; reflexivity. Qed.

(** ** C5: one case *)



Section OneCase.
Variable w : reflect.World.


(** Anything else is one value without a name. *)
Lemma rvals_single vals :
  reflect.Value_Kind w (reflect.ValueOf w vals) <> reflect.Struct ->
  rvals w vals = ([reflect.ValueOf w vals], []).
Proof. intros H. unfold rvals. cbv zeta. rewrite (bool_decide_eq_false_2 _ H). reflexivity. Qed.

End OneCase.

Section Results.
Variable w : reflect.World.
Variable fuel : nat.
Variables got expect : list reflect.Value.
Variable exNames : list string.
Hypothesis enough_expected : length got <= length expect.


End Results.




(** ** C6: a batch of cases *)

Section Frame.
Variable w : reflect.World.

(** The comparator adds to the log and never reads it: run after the lines
    [t0], it does what it does on their continuation, after them. *)
Lemma compareFrom_frame cmp at_a at_b t0 :
  (forall x y h t, cmp x y h (t0 ++ t) = mapState (later t0) (cmp x y h t)) ->
  forall count i h t,
    compareFrom cmp at_a at_b count i h (t0 ++ t)
    = mapState (later t0) (compareFrom cmp at_a at_b count i h t).
Proof.
  intros Hcmp. induction count as [|count IH]; intros i h t; [reflexivity|].
  cbn [compareFrom]. destruct (at_a i), (at_b i); try reflexivity.
  rewrite Hcmp.
  destruct (cmp _ _ h t) as [[[] msg] [h' t']| | |]; cbn; try reflexivity.
  apply IH.
Qed.

Lemma afterIndirect_frame cmp a b h t0 t :
  (forall x y h t, cmp x y h (t0 ++ t) = mapState (later t0) (cmp x y h t)) ->
  afterIndirect w cmp a b h (t0 ++ t)
  = mapState (later t0) (afterIndirect w cmp a b h t).
Proof.
  intros Hcmp. unfold afterIndirect.
  destruct (isFloatKind _).
  { destruct (reflect.Value_Float w a), (reflect.Value_Float w b); try reflexivity.
    destruct (withinEpsilon _ _); [reflexivity|].
    cbn. unfold later, Logf. cbn. by rewrite app_assoc. }
  cbv zeta. destruct (isSeqKind _).
  { destruct (reflect.Value_Len w a), (reflect.Value_Len w b); try reflexivity.
    destruct (negb _); [reflexivity|]. by apply compareFrom_frame. }
  destruct (bool_decide _).
  { destruct (reflect.Value_NumField w a), (reflect.Value_NumField w b); try reflexivity.
    destruct (negb _); [reflexivity|]. by apply compareFrom_frame. }
  destruct (reflect.Value_Interface w a), (reflect.Value_Interface w b); try reflexivity.
  destruct (reflect.DeepEqual _ _ _); reflexivity.
Qed.

Lemma IsEqualLoopBreaker_frame fuel a b h t0 t :
  IsEqualLoopBreaker w fuel a b h (t0 ++ t)
  = mapState (later t0) (IsEqualLoopBreaker w fuel a b h t).
Proof.
  revert a b h t. induction fuel as [|fuel IH]; intros a b h t; [reflexivity|].
  cbn [IsEqualLoopBreaker].
  destruct (bool_decide _); [reflexivity|].
  destruct (negb _); [reflexivity|].
  destruct (indirect w a b) as [[a' b']|]; [|reflexivity].
  apply afterIndirect_frame. intros x y h0 t1. apply IH.
Qed.

Lemma IsEqual_frame fuel a b t0 t :
  IsEqual w fuel a b (t0 ++ t) = mapState (app t0) (IsEqual w fuel a b t).
Proof.
  unfold IsEqual. rewrite IsEqualLoopBreaker_frame.
  destruct (IsEqualLoopBreaker w fuel a b ∅ t) as [r [h' t']|[h' t']|[h' t']|];
    reflexivity.
Qed.

Lemma compareResults_frame fuel got expect exNames t0 count i t :
  compareResults w fuel got expect exNames count i (t0 ++ t)
  = mapState (app t0) (compareResults w fuel got expect exNames count i t).
Proof.
  revert i t. induction count as [|count IH]; intros i t; [reflexivity|].
  cbn [compareResults]. destruct (got !! i), (expect !! i); try reflexivity.
  rewrite IsEqual_frame.
  destruct (IsEqual w fuel _ _ t) as [[[] msg] t'| | |]; cbn; try reflexivity.
  - apply IH.
  - destruct (if (1 <? length got)%nat then _ else _); [|reflexivity].
    cbn. unfold Logf. by rewrite <- !app_assoc.
Qed.

(** A case run after the lines [t0] does what it does on an empty log,
    after them. *)
Lemma RunTest_frame fuel fnptr invals expectvals t0 t :
  RunTest w fuel fnptr invals expectvals (t0 ++ t)
  = mapState (app t0) (RunTest w fuel fnptr invals expectvals t).
Proof.
  unfold RunTest.
  destruct (rvals w invals) as [in_ inNames], (rvals w expectvals) as [expect exNames].
  destruct (negb _).
  { unfold Fatal_. cbn. by rewrite app_assoc. }
  destruct (Call fnptr in_) as [got|]; [|reflexivity].
  destruct (negb _).
  { unfold Fatal_. cbn. by rewrite app_assoc. }
  apply compareResults_frame.
Qed.
End Frame.

Section Reports.
Variable w : reflect.World.









Section Batch.
Variable fuel : nat.
Variable fnptr : Func.
Variables allIn allExpect : list reflect.iface.
Variable rs : list (bool * string * T).
Hypothesis same_length : length allIn = length allExpect.
Hypothesis one_result_each : length rs = length allIn.
Hypothesis each_case_returns :
  forall i x y r,
    allIn !! i = Some x -> allExpect !! i = Some y -> rs !! i = Some r ->
    RunTest w fuel fnptr x y [] = Done r.1 r.2.


End Batch.
End Reports.



(** ** C7: the truncated printer *)

Lemma length_substring_prefix m s :
  m <= String.length s -> String.length (substring 0 m s) = m.
Proof.
  revert s. induction m as [|m IH]; intros s Hm.
  - destruct s; reflexivity.
  - destruct s as [|c s]; cbn in *; [lia|]. rewrite IH; [reflexivity|lia].
Qed.

Lemma substring_whole s : substring 0 (String.length s) s = s.
Proof. induction s as [|c s IH]; cbn; [reflexivity|]. by rewrite IH. Qed.

(** A rendering shorter than the cap is returned as it is. *)
Lemma PrintTruncated_below_cap w v :
  String.length (reflect.Sprint w v) < 5000 ->
  PrintTruncated w v = reflect.Sprint w v.
Proof.
  intros H. unfold PrintTruncated. cbv zeta.
  apply Nat.ltb_lt in H. rewrite H. reflexivity.
Qed.

(** A rendering of the cap's length or more is cut to the cap: 5000 bytes
    of it, then the marker. *)
Lemma PrintTruncated_from_cap w v :
  5000 <= String.length (reflect.Sprint w v) ->
  PrintTruncated w v
  = substring 0 5000 (reflect.Sprint w v) +:+ nl +:+ "[...output truncated...]"
  /\ String.length (substring 0 5000 (reflect.Sprint w v)) = 5000.
Proof.
  intros H. unfold PrintTruncated. cbv zeta.
  rewrite (proj2 (Nat.ltb_ge _ _) H). split; [reflexivity|].
  by apply length_substring_prefix.
Qed.

(** At the cap's length nothing is cut, and the marker is added. *)
Lemma PrintTruncated_at_cap w v :
  String.length (reflect.Sprint w v) = 5000 ->
  PrintTruncated w v = reflect.Sprint w v +:+ nl +:+ "[...output truncated...]".
Proof.
  intros H. destruct (PrintTruncated_from_cap w v) as [-> _]; [lia|].
  by rewrite <- H, substring_whole.
Qed.

(** C7 (the code departs from it): a rendering of exactly the cap's 5000
    bytes is not longer than the cap, and it is not returned unchanged: the
    marker is added to it, though nothing was cut. *)
Theorem PrintTruncated_marks_a_rendering_of_cap_length :
  String.length (reflect.Sprint wide 1) = 5000
  /\ PrintTruncated wide 1
     = reflect.Sprint wide 1 +:+ nl +:+ "[...output truncated...]".
Proof. split; vm_compute; reflexivity. Qed.

(** ** C8: symmetry *)

(** C8 (the code departs from it): the kinds are compared before the
    indirection and not after it, so a pointer to an empty slice is found
    equal to a pointer to an empty string (both have length zero and no
    element is compared), while the same two the other way round reach
    [reflect.DeepEqual], which tells a string from a slice. *)
Theorem IsEqual_not_symmetric_across_pointees :
  IsEqual mixed 2 1 2 [] = Done (true, "") []
  /\ IsEqual mixed 2 2 1 [] = Done (false, "reflect.DeepEqual failed") [].
Proof. split; reflexivity. Qed.

(** ** C9: errors of the test's author *)

Section Authoring.
Variable w : reflect.World.

(** Too many or too few inputs: [t.Fatal]. *)
Lemma RunTest_input_count_is_checked fuel fnptr invals expectvals t :
  length (rvals w invals).1 <> NumIn fnptr ->
  RunTest w fuel fnptr invals expectvals t
  = Fatal_ t "The number of in params doesn't match function parameters.".
Proof.
  intros H. unfold RunTest.
  destruct (rvals w invals) as [in_ inNames], (rvals w expectvals) as [expect exNames].
  cbn [fst] in H. apply Nat.eqb_neq in H. rewrite H. reflexivity.
Qed.

(** Something other than a slice: [t.Fatal]. *)
Lemma RunAllTests_inputs_must_be_a_slice fuel fnptr allInVals allExpectVals t :
  reflect.Value_Kind w (reflect.ValueOf w allInVals) <> reflect.Slice ->
  RunAllTests w fuel fnptr allInVals allExpectVals t
  = Fatal_ t "allInVals is not a slice".
Proof.
  intros H. unfold RunAllTests. rewrite (bool_decide_eq_false_2 _ H). reflexivity.
Qed.

Lemma RunAllTests_expected_must_be_a_slice fuel fnptr allInVals allExpectVals t :
  reflect.Value_Kind w (reflect.ValueOf w allInVals) = reflect.Slice ->
  reflect.Value_Kind w (reflect.ValueOf w allExpectVals) <> reflect.Slice ->
  RunAllTests w fuel fnptr allInVals allExpectVals t
  = Fatal_ t "allExpectVals is not a slice".
Proof.
  intros H1 H2. unfold RunAllTests.
  rewrite (bool_decide_eq_true_2 _ H1), (bool_decide_eq_false_2 _ H2). reflexivity.
Qed.

(** Slices of different lengths: [t.Fatal]. *)
Lemma RunAllTests_lengths_must_agree fuel fnptr allInVals allExpectVals allIn allExpect t :
  reflect.Value_Kind w (reflect.ValueOf w allInVals) = reflect.Slice ->
  reflect.Value_Kind w (reflect.ValueOf w allExpectVals) = reflect.Slice ->
  fracture w allInVals = Some allIn ->
  fracture w allExpectVals = Some allExpect ->
  length allIn <> length allExpect ->
  RunAllTests w fuel fnptr allInVals allExpectVals t
  = Fatal_ t "Number of input tests doesn't match number of expected results".
Proof.
  intros H1 H2 H3 H4 H5. unfold RunAllTests.
  rewrite (bool_decide_eq_true_2 _ H1), (bool_decide_eq_true_2 _ H2), H3, H4.
  apply Nat.eqb_neq in H5. rewrite H5. reflexivity.
Qed.
End Authoring.

(** C9 (the code departs from it): the test that is to catch a wrong number
    of expected results counts the results the call returned, which are as
    many as the function declares, and never the expected ones.  Two
    expected results for a function of one result are no error: the case
    passes on the first and the second is not looked at. *)
Theorem RunTest_accepts_a_surplus_expected_result :
  NumOut double = 1
  /\ length (rvals ints 13).1 = 2
  /\ RunTest ints 1 double 1 13 [] = Done (true, "") [].
Proof. repeat split; reflexivity. Qed.

(** ** C10: nil pointers *)

Section NilPointers.
Variable w : reflect.World.
Variables a b : reflect.Value.
Variables ea eb : option reflect.Value.
Hypothesis holds_a : reflect.holds w a = reflect.RPtr ea.
Hypothesis holds_b : reflect.holds w b = reflect.RPtr eb.
Hypothesis one_is_nil : ea = None \/ eb = None.

(** The indirection needs both pointers not to be nil. *)
Lemma indirect_with_a_nil : indirect w a b = Some (a, b).
Proof.
  unfold indirect, reflect.Value_Kind, reflect.Value_IsNil.
  rewrite holds_a, holds_b.
  destruct one_is_nil as [-> | ->]; [reflexivity|]. destruct ea; reflexivity.
Qed.

(** [reflect.DeepEqual] on the two pointers, boxed. *)
Lemma DeepEqual_with_a_nil ia ib :
  boxesAs w a ia ->
  boxesAs w b ib ->
  reflect.DeepEqual w ia ib
  = bool_decide (ea = None /\ eb = None /\ reflect.TypeOf w a = reflect.TypeOf w b).
Proof.
  intros (Hia & Hha & Hta) (Hib & Hhb & Htb).
  unfold reflect.DeepEqual, reflect.deepValueEqual, reflect.IsValid,
    reflect.Value_Kind.
  rewrite Hha, Hhb, Hta, Htb, holds_a, holds_b.
  assert (Hv : bool_decide (reflect.Ptr <> reflect.Invalid) = true)
    by (apply bool_decide_eq_true_2; discriminate).
  rewrite Hv. cbn [negb orb].
  destruct (decide (reflect.TypeOf w a = reflect.TypeOf w b)) as [Hty|Hty].
  - rewrite (bool_decide_eq_true_2 _ Hty). cbn [negb].
    destruct ea as [pa|], eb as [pb|].
    + destruct one_is_nil; discriminate.
    + symmetry. apply bool_decide_eq_false_2. intros (? & _); discriminate.
    + symmetry. apply bool_decide_eq_false_2. intros (_ & ? & _); discriminate.
    + symmetry. apply bool_decide_eq_true_2. auto.
  - rewrite (bool_decide_eq_false_2 _ Hty). cbn [negb].
    symmetry. apply bool_decide_eq_false_2. intros (_ & _ & ?). contradiction.
Qed.
End NilPointers.

(** C10 (as amended): for two pointers at least one of which is nil, and
    both of which [Interface] can box (neither was read from an unexported
    struct field), the comparator does not dereference: the indirection
    leaves both as they are, the pair recorded in the call history is the
    pair of pointers, and the answer is that of [reflect.DeepEqual], which is
    true exactly when both are nil pointers of one type, and false when
    exactly one is nil. *)
Theorem IsEqual_nil_pointers w fuel a b ea eb ia ib t :
  reflect.holds w a = reflect.RPtr ea ->
  reflect.holds w b = reflect.RPtr eb ->
  ea = None \/ eb = None ->
  boxesAs w a ia ->
  boxesAs w b ib ->
  indirect w a b = Some (a, b)
  /\ IsEqualLoopBreaker w (S fuel) a b ∅ t
     = (if reflect.DeepEqual w ia ib
        then Done (true, "") ({[ (a, b) ]}, t)
        else Done (false, "reflect.DeepEqual failed") ({[ (a, b) ]}, t))
  /\ reflect.DeepEqual w ia ib
     = bool_decide (ea = None /\ eb = None /\ reflect.TypeOf w a = reflect.TypeOf w b).
Proof.
  intros Ha Hb Hnil Ba Bb.
  pose proof (indirect_with_a_nil w a b ea eb Ha Hb Hnil) as Hi.
  split; [exact Hi|]. split.
  - destruct Ba as (Hia & _), Bb as (Hib & _).
    rewrite (IsEqualLoopBreaker_enter w fuel a b a b ∅ t);
      [ | set_solver | unfold reflect.Value_Kind; by rewrite Ha, Hb | exact Hi].
    unfold afterIndirect, reflect.Value_Kind. rewrite Ha. cbn.
    rewrite Hia, Hib, (right_id_L ∅ (∪)). reflexivity.
  - by apply (DeepEqual_with_a_nil w a b ea eb).
Qed.

Lemma IsEqual_nil_pointers_witness :
  reflect.holds nils 1 = reflect.RPtr None
  /\ reflect.holds nils 2 = reflect.RPtr None
  /\ boxesAs nils 1 1
  /\ boxesAs nils 2 2
  /\ IsEqualLoopBreaker nils 1 1 2 ∅ [] = Done (true, "") ({[ (1, 2) ]}, []).
Proof.
  assert (B1 : boxesAs nils 1 1) by (repeat split).
  assert (B2 : boxesAs nils 2 2) by (repeat split).
  split; [reflexivity|]. split; [reflexivity|]. split; [exact B1|]. split; [exact B2|].
  destruct (IsEqual_nil_pointers nils 0 1 2 None None 1 2 []
              eq_refl eq_refl (or_introl eq_refl) B1 B2) as (_ & Hrun & Hdeep).
  rewrite Hrun, Hdeep. reflexivity.
Defined.

(** C10 as stated fails on pointers read from unexported struct fields: two
    nil pointers of one type, and the fallback panics in [Interface] instead
    of answering. *)
Lemma IsEqual_nil_pointers_of_unexported_fields :
  reflect.holds nils 6 = reflect.RPtr None
  /\ reflect.holds nils 7 = reflect.RPtr None
  /\ reflect.TypeOf nils 6 = reflect.TypeOf nils 7
  /\ IsEqual nils 1 6 7 [] = Panic [].
Proof. repeat split; reflexivity. Qed.

(** The earlier version does the same with nil pointers: no indirection, the
    pair of pointers in the history, the answer of [reflect.DeepEqual]. *)
Lemma V2_IsEqual_nil_pointers w fuel a b ea eb ia ib :
  reflect.holds w a = reflect.RPtr ea ->
  reflect.holds w b = reflect.RPtr eb ->
  ea = None \/ eb = None ->
  boxesAs w a ia ->
  boxesAs w b ib ->
  V2.IsEqual w (S fuel) a b
  = Done (bool_decide (ea = None /\ eb = None
                       /\ reflect.TypeOf w a = reflect.TypeOf w b))
      {[ (a, b) ]}.
Proof.
  intros Ha Hb Hnil Ba Bb.
  rewrite <- (DeepEqual_with_a_nil w a b ea eb Ha Hb Hnil ia ib Ba Bb).
  destruct Ba as (Hia & _), Bb as (Hib & _).
  unfold V2.IsEqual. cbn [V2.IsEqual_LoopBreaker].
  rewrite bool_decide_eq_false_2 by set_solver.
  rewrite bool_decide_eq_true_2
    by (unfold reflect.Value_Kind; by rewrite Ha, Hb).
  cbn [negb]. rewrite (indirect_with_a_nil w a b ea eb Ha Hb Hnil).
  unfold V2.afterIndirect, reflect.Value_Kind. rewrite Ha. cbn.
  rewrite Hia, Hib, (right_id_L ∅ (∪)). reflexivity.
Qed.

(** * Further properties of the code *)

(** ** What a comparison leaves behind *)

Section Traces.
Variable w : reflect.World.

Lemma settled_plain h h' t msg :
  h ⊆ h' -> msg ∈ plainDiagnostics -> settled w h t (false, msg) (h', t).
Proof. intros Hh Hm. split; [exact Hh|]. left. by split. Qed.

Lemma settled_pass h h' t : h ⊆ h' -> settled w h t (true, "") (h', t).
Proof. intros Hh. split; [exact Hh|]. by split. Qed.

Lemma compareFrom_settled cmp at_a at_b :
  (forall x y h t r s', cmp x y h t = Done r s' -> settled w h t r s') ->
  forall count i h t r s',
    compareFrom cmp at_a at_b count i h t = Done r s' -> settled w h t r s'.
Proof.
  intros Hcmp. induction count as [|count IH]; intros i h t r s' H.
  - cbn in H. simplify_eq. by apply settled_pass.
  - cbn [compareFrom] in H. destruct (at_a i), (at_b i); try discriminate H.
    destruct (cmp _ _ h t) as [[[] msg] [h1 t1]| | |] eqn:Hc; try discriminate H.
    + apply Hcmp in Hc as [Hh [_ Ht]]. cbn in Hh, Ht. subst t1.
      apply IH in H as [Hh' Hr].
      split; [by etrans|exact Hr].
    + simplify_eq. by apply Hcmp in Hc.
Qed.

Lemma IsEqualLoopBreaker_settled fuel :
  forall a b h t r s',
    IsEqualLoopBreaker w fuel a b h t = Done r s' -> settled w h t r s'.
Proof.
  assert (Hgrow : forall (p : callHistoryElem) (h : callHistory), h ⊆ {[ p ]} ∪ h)
    by (intros; apply union_subseteq_r).
  assert (Hin : forall (p : callHistoryElem) (h h' : callHistory),
             {[ p ]} ∪ h ⊆ h' -> h ⊆ h')
    by (intros p h h' H; etrans; [apply Hgrow|exact H]).
  induction fuel as [|fuel IH]; intros a b h t r s' H; [discriminate H|].
  cbn [IsEqualLoopBreaker] in H.
  destruct (bool_decide _); [simplify_eq; by apply settled_pass|].
  destruct (negb _).
  { simplify_eq. apply settled_plain; [done|]. unfold plainDiagnostics.
    rewrite !elem_of_cons. auto. }
  destruct (indirect w a b) as [[a' b']|]; [|discriminate H].
  unfold afterIndirect in H.
  destruct (isFloatKind _).
  { destruct (reflect.Value_Float w a') as [fa|], (reflect.Value_Float w b') as [fb|];
      try discriminate H.
    destruct (withinEpsilon _ _); simplify_eq; [by apply settled_pass|].
    split; [done|]. right. exists fa, fb. by split. }
  cbv zeta in H. destruct (isSeqKind _).
  { destruct (reflect.Value_Len w a'), (reflect.Value_Len w b'); try discriminate H.
    destruct (negb _).
    { simplify_eq. apply settled_plain; [apply Hgrow|]. unfold plainDiagnostics.
      rewrite !elem_of_cons. auto. }
    apply (compareFrom_settled _ _ _ IH) in H as [Hh Hr].
    split; [by eapply Hin|exact Hr]. }
  destruct (bool_decide _).
  { destruct (reflect.Value_NumField w a'), (reflect.Value_NumField w b');
      try discriminate H.
    destruct (negb _).
    { simplify_eq. apply settled_plain; [apply Hgrow|]. unfold plainDiagnostics.
      rewrite !elem_of_cons. auto. }
    apply (compareFrom_settled _ _ _ IH) in H as [Hh Hr].
    split; [by eapply Hin|exact Hr]. }
  destruct (reflect.Value_Interface w a'), (reflect.Value_Interface w b');
    try discriminate H.
  destruct (reflect.DeepEqual _ _ _); simplify_eq.
  - apply settled_pass, Hgrow.
  - apply settled_plain; [apply Hgrow|]. unfold plainDiagnostics.
    rewrite !elem_of_cons. auto.
Qed.

Lemma IsEqual_settled fuel a b t r t' :
  IsEqual w fuel a b t = Done r t' -> exists h', settled w ∅ t r (h', t').
Proof.
  unfold IsEqual. intros H.
  destruct (IsEqualLoopBreaker w fuel a b ∅ t) as [r0 [h1 t1]|[??]|[??]|] eqn:Hc;
    try discriminate H.
  simplify_eq. exists h1. by apply (IsEqualLoopBreaker_settled fuel a b).
Qed.
End Traces.

(** X1: the call history a comparison is given is only added to: whatever
    the comparator returns, every pair that was in the history before the
    call is in it after the call. *)
Theorem IsEqualLoopBreaker_history_only_grows w fuel a b h t r h' t' :
  IsEqualLoopBreaker w fuel a b h t = Done r (h', t') -> h ⊆ h'.
Proof. intros H. by apply IsEqualLoopBreaker_settled in H as [Hh _]. Qed.

Lemma IsEqualLoopBreaker_history_only_grows_witness :
  IsEqualLoopBreaker seqs 2 5 6 {[ (1, 2) ]} []
  = Done (false, "reflect.DeepEqual failed")
      ({[ (2, 1) ]} ∪ ({[ (1, 1) ]} ∪ ({[ (5, 6) ]} ∪ {[ (1, 2) ]})), [])
  /\ ({[ (1, 2) ]} : callHistory)
       ⊆ {[ (2, 1) ]} ∪ ({[ (1, 1) ]} ∪ ({[ (5, 6) ]} ∪ {[ (1, 2) ]})).
Proof.
  assert (H : IsEqualLoopBreaker seqs 2 5 6 {[ (1, 2) ]} []
              = Done (false, "reflect.DeepEqual failed")
                  ({[ (2, 1) ]} ∪ ({[ (1, 1) ]} ∪ ({[ (5, 6) ]} ∪ {[ (1, 2) ]})), []))
    by (vm_compute; reflexivity).
  split; [exact H|].
  exact (IsEqualLoopBreaker_history_only_grows seqs 2 5 6 _ [] _ _ [] H).
Defined.

(** X2: a comparison that finds its arguments equal says nothing: the
    message is empty and the test log is as it was. *)
Theorem IsEqual_pass_is_silent w fuel a b t msg t' :
  IsEqual w fuel a b t = Done (true, msg) t' -> msg = "" /\ t' = t.
Proof. intros H. by apply IsEqual_settled in H as [h' [_ Hr]]. Qed.

Lemma IsEqual_pass_is_silent_witness :
  IsEqual tree 3 1 1 [Logged "before"] = Done (true, "") [Logged "before"]
  /\ "" = "" /\ [Logged "before"] = [Logged "before"].
Proof.
  assert (H : IsEqual tree 3 1 1 [Logged "before"] = Done (true, "") [Logged "before"])
    by (vm_compute; reflexivity).
  split; [exact H|].
  exact (IsEqual_pass_is_silent tree 3 1 1 _ _ _ H).
Defined.

(** X3: a comparison that finds its arguments unequal returns one of five
    diagnostics, none of them empty: "Not same types", "Slices having
    different lengths", "Number of fields in struct do not match" or
    "reflect.DeepEqual failed", with the test log as it was, or the
    diagnostic of two floating-point numbers, which it has also logged, as
    the one line it added. *)
Theorem IsEqual_failure_is_diagnosed w fuel a b t msg t' :
  IsEqual w fuel a b t = Done (false, msg) t' ->
  msg <> ""
  /\ ((msg ∈ plainDiagnostics /\ t' = t)
      \/ (exists fa fb, msg = floatDiagnostic w fa fb /\ t' = t ++ [Logged msg])).
Proof.
  intros H. apply IsEqual_settled in H as [h' [_ Hr]]. cbn in Hr.
  split; [|exact Hr].
  destruct Hr as [[Hm _]|(fa & fb & -> & _)]; [|discriminate].
  unfold plainDiagnostics in Hm. rewrite !elem_of_cons, elem_of_nil in Hm.
  destruct Hm as [->|[->|[->|[->|[]]]]]; discriminate.
Qed.

Lemma IsEqual_failure_is_diagnosed_witness :
  IsEqual floats 1 1 3 [] 
  = Done (false, floatDiagnostic floats 1 (1 + EPSILON * 10))
      [Logged (floatDiagnostic floats 1 (1 + EPSILON * 10))]
  /\ floatDiagnostic floats 1 (1 + EPSILON * 10) <> "".
Proof.
  assert (H : IsEqual floats 1 1 3 [] 
              = Done (false, floatDiagnostic floats 1 (1 + EPSILON * 10))
                  [Logged (floatDiagnostic floats 1 (1 + EPSILON * 10))])
    by (vm_compute; reflexivity).
  split; [exact H|].
  exact (proj1 (IsEqual_failure_is_diagnosed floats 1 1 3 [] _ _ H)).
Defined.

(** ** Structs and pointers *)

(** X4: for every pair of structs, the comparator reports unequal with
    "Number of fields in struct do not match" when the field counts differ;
    otherwise it compares the fields at matching positions in order, from
    the call history that holds the pair itself: when the fields before
    position [i] are found equal and the fields at [i] are not, it returns
    unequal with the diagnostic of that comparison, whatever the later
    fields are, and when all are found equal it returns equal.  The field
    names play no part. *)
Theorem IsEqual_structs w fuel a b fa fb t :
  reflect.holds w a = reflect.RStruct fa ->
  reflect.holds w b = reflect.RStruct fb ->
  (length fa <> length fb ->
   IsEqual w (S fuel) a b t
   = Done (false, "Number of fields in struct do not match") t)
  /\ (length fa = length fb ->
      (forall i x y s1 m h2 t2,
          passes (compareIn w fuel) (take i (zip fa.*2 fb.*2)) ({[ (a, b) ]}, t) s1 ->
          fa.*2 !! i = Some x -> fb.*2 !! i = Some y ->
          compareIn w fuel x y s1 = Done (false, m) (h2, t2) ->
          IsEqual w (S fuel) a b t = Done (false, m) t2)
      /\ (forall h1 t1,
          passes (compareIn w fuel) (zip fa.*2 fb.*2) ({[ (a, b) ]}, t) (h1, t1) ->
          IsEqual w (S fuel) a b t = Done (true, "") t1)).
Proof.
  intros Ha Hb.
  assert (Hk : reflect.Value_Kind w a = reflect.Value_Kind w b)
    by (unfold reflect.Value_Kind; rewrite Ha, Hb; reflexivity).
  assert (Hi : indirect w a b = Some (a, b)).
  { apply indirect_not_Ptr. unfold reflect.Value_Kind. rewrite Ha. discriminate. }
  assert (Hrun : IsEqualLoopBreaker w (S fuel) a b ∅ t
                 = if negb (length fa =? length fb)%nat
                   then Done (false, "Number of fields in struct do not match")
                          ({[ (a, b) ]}, t)
                   else compareFrom (IsEqualLoopBreaker w fuel)
                          (fa.*2 !!.) (fb.*2 !!.) (length fa) 0 {[ (a, b) ]} t).
  { rewrite (IsEqualLoopBreaker_enter w fuel a b a b ∅ t) by (set_solver || assumption).
    rewrite (afterIndirect_structs w _ a b fa fb) by assumption.
    rewrite (right_id_L ∅ (∪)). reflexivity. }
  unfold IsEqual. rewrite Hrun. split.
  - intros Hne. apply Nat.eqb_neq in Hne. rewrite Hne. reflexivity.
  - intros Hlen. rewrite Hlen, Nat.eqb_refl. cbn [negb].
    assert (Hlen' : length fa.*2 = length fb.*2) by (by rewrite !length_fmap).
    split.
    + intros i x y s1 m h2 t2 Hp Hx Hy Hc.
      rewrite (compareFrom_first_fail (IsEqualLoopBreaker w fuel) fa.*2 fb.*2 i Hlen'
                 (length fb) 0 {[ (a, b) ]} t s1 x y m (h2, t2));
        [reflexivity | rewrite length_fmap; lia | exact Hp | exact Hx | exact Hy
        | exact Hc].
    + intros h1 t1 Hp.
      rewrite (compareFrom_all_pass (IsEqualLoopBreaker w fuel) fa.*2 fb.*2
                 (length fb) 0 {[ (a, b) ]} t (h1, t1));
        [reflexivity | exact Hlen' | rewrite length_fmap; lia | exact Hp].
Qed.

Lemma IsEqual_structs_witness :
  reflect.holds ints 13 = reflect.RStruct [("Double", 2); ("Succ", 9)]
  /\ IsEqual ints 2 13 13 [] = Done (true, "") [].
Proof.
  split; [reflexivity|].
  destruct (IsEqual_structs ints 1 13 13 [("Double", 2); ("Succ", 9)]
              [("Double", 2); ("Succ", 9)] [] eq_refl eq_refl) as [_ Hsame].
  destruct (Hsame eq_refl) as [_ Hpass].
  apply (Hpass ({[ (9, 9) ]} ∪ ({[ (2, 2) ]} ∪ {[ (13, 13) ]}))).
  apply (passes_cons (compareIn ints 1) 2 2 [(9, 9)] ({[ (13, 13) ]}, []) ""
           ({[ (2, 2) ]} ∪ {[ (13, 13) ]}, [])
           ({[ (9, 9) ]} ∪ ({[ (2, 2) ]} ∪ {[ (13, 13) ]}), []));
    [vm_compute; reflexivity|].
  apply (passes_cons (compareIn ints 1) 9 9 [] ({[ (2, 2) ]} ∪ {[ (13, 13) ]}, []) ""
           ({[ (9, 9) ]} ∪ ({[ (2, 2) ]} ∪ {[ (13, 13) ]}), [])
           ({[ (9, 9) ]} ∪ ({[ (2, 2) ]} ∪ {[ (13, 13) ]}), []));
    [vm_compute; reflexivity | apply passes_nil].
Defined.

(** X5: two pointers that are not nil are compared as what they point to:
    when the two pointees are of one kind, and are not pointers themselves,
    comparing the pointers is comparing the pointees, with the same verdict,
    diagnostic and log. *)
Theorem IsEqual_pointers_as_pointees w fuel p q a b t :
  reflect.holds w p = reflect.RPtr (Some a) ->
  reflect.holds w q = reflect.RPtr (Some b) ->
  reflect.Value_Kind w a = reflect.Value_Kind w b ->
  reflect.Value_Kind w a <> reflect.Ptr ->
  IsEqual w (S fuel) p q t = IsEqual w (S fuel) a b t.
Proof.
  intros Hp Hq Hk Hn. unfold IsEqual.
  rewrite (IsEqualLoopBreaker_enter w fuel p q a b ∅ t).
  - rewrite (IsEqualLoopBreaker_enter w fuel a b a b ∅ t);
      [reflexivity | set_solver | exact Hk | by apply indirect_not_Ptr].
  - set_solver.
  - unfold reflect.Value_Kind. rewrite Hp, Hq. reflexivity.
  - unfold indirect, reflect.Value_Kind, reflect.Value_IsNil, reflect.Value_Elem.
    rewrite Hp, Hq. reflexivity.
Qed.

Lemma IsEqual_pointers_as_pointees_witness :
  reflect.holds tree 1 = reflect.RPtr (Some 2)
  /\ reflect.Value_Kind tree 2 <> reflect.Ptr
  /\ IsEqual tree 3 1 1 [] = IsEqual tree 3 2 2 [].
Proof.
  split; [reflexivity|]. split; [discriminate|].
  apply (IsEqual_pointers_as_pointees tree 2 1 1 2 2 []);
    [reflexivity | reflexivity | reflexivity | discriminate].
Defined.

(** X6: the comparator follows one pointer, not two.  For two pointers
    that are not nil, the first of which points to a pointer, the pointees
    are handed to [reflect.DeepEqual] as they are: the verdict is
    [DeepEqual]'s, so floating-point numbers behind the second pointer are
    compared without the tolerance. *)
Theorem IsEqual_follows_one_pointer w fuel p q a b e ia ib t :
  reflect.holds w p = reflect.RPtr (Some a) ->
  reflect.holds w q = reflect.RPtr (Some b) ->
  reflect.holds w a = reflect.RPtr e ->
  reflect.Value_Interface w a = Some ia ->
  reflect.Value_Interface w b = Some ib ->
  IsEqual w (S fuel) p q t
  = if reflect.DeepEqual w ia ib then Done (true, "") t
    else Done (false, "reflect.DeepEqual failed") t.
Proof.
  intros Hp Hq Ha Hia Hib. unfold IsEqual.
  rewrite (IsEqualLoopBreaker_enter w fuel p q a b ∅ t).
  - unfold afterIndirect, reflect.Value_Kind. rewrite Ha. cbn.
    rewrite Hia, Hib. destruct (reflect.DeepEqual w ia ib); reflexivity.
  - set_solver.
  - unfold reflect.Value_Kind. rewrite Hp, Hq. reflexivity.
  - unfold indirect, reflect.Value_Kind, reflect.Value_IsNil, reflect.Value_Elem.
    rewrite Hp, Hq. reflexivity.
Qed.

Lemma IsEqual_follows_one_pointer_witness :
  reflect.holds behind 1 = reflect.RPtr (Some 3)
  /\ reflect.holds behind 2 = reflect.RPtr (Some 4)
  /\ reflect.holds behind 3 = reflect.RPtr (Some 5)
  /\ IsEqual behind 2 3 4 [] = Done (true, "") []
  /\ IsEqual behind 2 1 2 [] = Done (false, "reflect.DeepEqual failed") [].
Proof.
  split; [reflexivity|]. split; [reflexivity|]. split; [reflexivity|].
  split; [reflexivity|].
  rewrite (IsEqual_follows_one_pointer behind 1 1 2 3 4 (Some 5) 3 4 []);
    reflexivity.
Defined.

(** ** Numbers that are not finite *)

Lemma SFeqb_refl x :
  match x with S754_nan => False | _ => True end -> SFeqb x x = true.
Proof.
  destruct x as [s|s| |s m e]; intros H; try contradiction.
  - destruct s; reflexivity.
  - destruct s; reflexivity.
  - unfold SFeqb, SFcompare.
    destruct s; rewrite Z.compare_refl, Pos.compare_cont_refl; reflexivity.
Qed.

Lemma not_finite_SF x :
  is_finite x = false ->
  match Prim2SF x with S754_nan | S754_infinity _ => True | _ => False end.
Proof.
  unfold is_finite, is_nan, is_infinity. intros H.
  rewrite !FloatAxioms.eqb_spec, FloatAxioms.abs_spec in H.
  destruct (Prim2SF x) as [s|s| |s m e]; try tauto.
  - vm_compute in H. discriminate H.
  - rewrite SFeqb_refl in H by exact I. vm_compute in H. discriminate H.
Qed.

Lemma withinEpsilon_not_finite_l x y :
  is_finite x = false -> withinEpsilon x y = false.
Proof.
  intros H. apply not_finite_SF in H.
  unfold withinEpsilon. cbv zeta.
  rewrite !FloatAxioms.ltb_spec, FloatAxioms.opp_spec, FloatAxioms.sub_spec.
  destruct (Prim2SF x) as [sx|sx| |sx mx ex]; try tauto;
    destruct (Prim2SF y) as [sy|sy| |sy my ey];
    try destruct sx; try destruct sy; vm_compute; reflexivity.
Qed.

Lemma withinEpsilon_not_finite x y :
  is_finite x = false \/ is_finite y = false -> withinEpsilon x y = false.
Proof.
  intros [H|H]; [|rewrite withinEpsilon_comm];
    by apply withinEpsilon_not_finite_l.
Qed.

(** X7: a NaN or an infinity is within the tolerance of nothing: two
    floating-point values of one kind, one of which is not a finite number,
    are found unequal, whatever the other is (itself included), with the
    diagnostic of the two numbers. *)
Theorem IsEqual_non_finite_floats_differ w fuel a b fa fb t :
  reflect.Value_Float w a = Some fa ->
  reflect.Value_Float w b = Some fb ->
  reflect.Value_Kind w a = reflect.Value_Kind w b ->
  is_finite fa = false \/ is_finite fb = false ->
  IsEqual w (S fuel) a b t
  = Done (false, floatDiagnostic w fa fb) (Logf t (floatDiagnostic w fa fb)).
Proof.
  intros Ha Hb Hk Hn. unfold IsEqual.
  rewrite (IsEqualLoopBreaker_floats w fuel a b fa fb ∅ t Ha Hb Hk) by set_solver.
  rewrite (withinEpsilon_not_finite fa fb Hn). reflexivity.
Qed.

Lemma IsEqual_non_finite_floats_differ_witness :
  reflect.Value_Float floats 5 = Some nan
  /\ reflect.Value_Float floats 1 = Some 1%float
  /\ is_finite nan = false
  /\ IsEqual floats 1 5 1 []
     = Done (false, floatDiagnostic floats nan 1)
         (Logf [] (floatDiagnostic floats nan 1)).
Proof.
  split; [reflexivity|]. split; [reflexivity|]. split; [reflexivity|].
  apply (IsEqual_non_finite_floats_differ floats 0 5 1 nan 1%float []);
    [reflexivity | reflexivity | reflexivity | left; reflexivity].
Defined.

(** ** Enough levels of recursion *)

Section Levels.
Variable w : reflect.World.

Lemma compareFrom_more cmp cmp' at_a at_b :
  (forall x y h t, cmp x y h t <> Diverge -> cmp' x y h t = cmp x y h t) ->
  forall count i h t,
    compareFrom cmp at_a at_b count i h t <> Diverge ->
    compareFrom cmp' at_a at_b count i h t = compareFrom cmp at_a at_b count i h t.
Proof.
  intros Hcmp. induction count as [|count IH]; intros i h t H; [reflexivity|].
  cbn [compareFrom] in *. destruct (at_a i), (at_b i); try reflexivity.
  destruct (cmp _ _ h t) as [[[] msg] [h1 t1]| | |] eqn:Hc;
    try (rewrite Hcmp, Hc by (rewrite Hc; discriminate); reflexivity).
  - rewrite Hcmp, Hc by (rewrite Hc; discriminate). by apply IH.
  - contradiction.
Qed.

Lemma afterIndirect_more cmp cmp' a b h t :
  (forall x y h t, cmp x y h t <> Diverge -> cmp' x y h t = cmp x y h t) ->
  afterIndirect w cmp a b h t <> Diverge ->
  afterIndirect w cmp' a b h t = afterIndirect w cmp a b h t.
Proof.
  intros Hcmp. unfold afterIndirect.
  destruct (isFloatKind _); [reflexivity|].
  cbv zeta. destruct (isSeqKind _).
  { destruct (reflect.Value_Len w a), (reflect.Value_Len w b); try reflexivity.
    destruct (negb _); [reflexivity|]. by apply compareFrom_more. }
  destruct (bool_decide _); [|reflexivity].
  destruct (reflect.Value_NumField w a), (reflect.Value_NumField w b);
    try reflexivity.
  destruct (negb _); [reflexivity|]. by apply compareFrom_more.
Qed.

(** A comparison that ended within [n] levels ends the same way within
    more. *)
Lemma IsEqualLoopBreaker_more n :
  forall m a b h t,
    n <= m ->
    IsEqualLoopBreaker w n a b h t <> Diverge ->
    IsEqualLoopBreaker w m a b h t = IsEqualLoopBreaker w n a b h t.
Proof.
  induction n as [|n IH]; intros m a b h t Hm H; [by destruct H|].
  destruct m as [|m]; [lia|].
  cbn [IsEqualLoopBreaker] in *.
  destruct (bool_decide _); [reflexivity|].
  destruct (negb _); [reflexivity|].
  destruct (indirect w a b) as [[a' b']|]; [|reflexivity].
  apply afterIndirect_more; [|exact H].
  intros x y h0 t0. apply IH. lia.
Qed.
End Levels.

(** X8: on a first argument without cycles the comparator ends, whatever
    the second argument is: when the first argument is exhausted within [n]
    levels of pointers, elements and fields, the comparison returns or
    panics within [n] levels of recursion, and more levels change nothing. *)
Theorem IsEqual_ends_on_finite_values w n fuel a b t :
  exhaustedWithin w n a = true ->
  n <= fuel ->
  IsEqual w n a b t <> Diverge
  /\ IsEqual w fuel a b t = IsEqual w n a b t.
Proof.
  intros Ha Hn.
  pose proof (IsEqualLoopBreaker_returns_on_finite_values w n a b ∅ t Ha) as Hr.
  unfold IsEqual. rewrite (IsEqualLoopBreaker_more w n fuel a b ∅ t Hn Hr).
  split; [|reflexivity].
  destruct (IsEqualLoopBreaker w n a b ∅ t) as [r [??]|[??]|[??]|];
    [discriminate..|contradiction].
Qed.

Lemma IsEqual_ends_on_finite_values_witness :
  exhaustedWithin tree 3 1 = true
  /\ IsEqual tree 3 1 1 [] <> Diverge
  /\ IsEqual tree 100 1 1 [] = IsEqual tree 3 1 1 [].
Proof.
  split; [reflexivity|].
  apply (IsEqual_ends_on_finite_values tree 3 100 1 1 []); [reflexivity|lia].
Defined.

(** ** The length of what the printer returns *)

Lemma length_append s1 s2 :
  String.length (s1 +:+ s2) = String.length s1 + String.length s2.
Proof.
  induction s1 as [|c s1 IH]; [reflexivity|].
  change (S (String.length (s1 +:+ s2)) = S (String.length s1 + String.length s2)).
  by rewrite IH.
Qed.

Lemma substring_append_prefix s1 s2 :
  substring 0 (String.length s1) (s1 +:+ s2) = s1.
Proof.
  induction s1 as [|c s1 IH]; [by destruct s2|].
  change (String c (substring 0 (String.length s1) (s1 +:+ s2)) = String c s1).
  by rewrite IH.
Qed.

(** X9: whatever the value, the printer returns at most 5025 bytes, and the
    first 5000 bytes of what it returns are the first 5000 bytes of the
    rendering. *)
Theorem PrintTruncated_is_bounded w v :
  String.length (PrintTruncated w v) <= 5000 + 25
  /\ substring 0 5000 (PrintTruncated w v)
     = substring 0 5000 (reflect.Sprint w v).
Proof.
  destruct (Nat.lt_ge_cases (String.length (reflect.Sprint w v)) 5000) as [H|H].
  - rewrite PrintTruncated_below_cap by exact H. split; [lia|reflexivity].
  - destruct (PrintTruncated_from_cap w v H) as [-> Hlen]. split.
    + rewrite length_append, Hlen.
      change (String.length (nl +:+ "[...output truncated...]")) with 25. lia.
    + rewrite <- Hlen at 1. rewrite substring_append_prefix. reflexivity.
Qed.

(** ** A case with too few expected values *)

Section Shortfall.
Variable w : reflect.World.
Variable fuel : nat.
Variables got expect : list reflect.Value.
Variable exNames : list string.

(** The expected values run out while every result so far has passed: the
    next [expect[i]] is out of range. *)
Lemma compareResults_runs_out count :
  forall i t t1,
    count + i = length got ->
    i <= length expect < length got ->
    passes (IsEqual w fuel) (drop i (zip got expect)) t t1 ->
    compareResults w fuel got expect exNames count i t = Panic t1.
Proof.
  induction count as [|count IH]; intros i t t1 Hi Hr Hp; [lia|].
  cbn [compareResults].
  destruct (lookup_lt_is_Some_2 got i) as [g Hg]; [lia|]. rewrite Hg.
  destruct (decide (i = length expect)) as [->|Hne].
  - rewrite (lookup_ge_None_2 expect) by lia.
    rewrite drop_ge in Hp by (rewrite length_zip_with; lia).
    inversion Hp; subst. reflexivity.
  - destruct (lookup_lt_is_Some_2 expect i) as [e He]; [lia|]. rewrite He.
    rewrite (drop_zip_lookup got expect i g e Hg He) in Hp.
    inversion Hp as [|? ? ? ? msg t' ? Hc Hrest]; subst.
    rewrite Hc. apply IH; [lia | lia | assumption].
Qed.

(** The loop looks at the first [count + i] expected values, and at
    their names when there are several results. *)
Lemma compareResults_ext expect' exNames' count :
  forall i t,
    take (count + i) expect = take (count + i) expect' ->
    (1 < length got -> take (count + i) exNames = take (count + i) exNames') ->
    compareResults w fuel got expect exNames count i t
    = compareResults w fuel got expect' exNames' count i t.
Proof.
  induction count as [|count IH]; intros i t He Hn; [reflexivity|].
  cbn [compareResults].
  assert (Hei : expect !! i = expect' !! i).
  { rewrite <- (lookup_take_lt expect (S count + i) i) by lia.
    rewrite <- (lookup_take_lt expect' (S count + i) i) by lia.
    by rewrite He. }
  assert (Hni : 1 < length got -> exNames !! i = exNames' !! i).
  { intros H1.
    rewrite <- (lookup_take_lt exNames (S count + i) i) by lia.
    rewrite <- (lookup_take_lt exNames' (S count + i) i) by lia.
    by rewrite Hn. }
  rewrite <- Hei.
  destruct (got !! i), (expect !! i); try reflexivity.
  destruct (IsEqual w fuel _ _ t) as [[[] msg] t'| | |]; try reflexivity.
  - apply IH; replace (count + S i) with (S count + i) by lia; assumption.
  - destruct (1 <? length got)%nat eqn:H1; [|reflexivity].
    apply Nat.ltb_lt in H1. rewrite (Hni H1). reflexivity.
Qed.
End Shortfall.

(** X10: a case with fewer expected values than the function has results,
    all of which match the results they stand against, does not fail and
    does not pass: [expect[i]] is out of range at the first result without
    an expected value, and the runner panics. *)
Theorem RunTest_panics_without_an_expected_value
    w fuel fnptr invals expectvals got t t1 :
  length (rvals w invals).1 = NumIn fnptr ->
  Call fnptr (rvals w invals).1 = Some got ->
  length got = NumOut fnptr ->
  length (rvals w expectvals).1 < length got ->
  passes (IsEqual w fuel) (zip got (rvals w expectvals).1) t t1 ->
  RunTest w fuel fnptr invals expectvals t = Panic t1.
Proof.
  intros Hin Hcall Hout Hlt Hp. unfold RunTest.
  destruct (rvals w invals) as [in_ inNames], (rvals w expectvals) as [expect exNames].
  cbn [fst] in *.
  rewrite Hin, Nat.eqb_refl, Hcall, Hout, Nat.eqb_refl. cbn [negb].
  rewrite <- Hout.
  apply compareResults_runs_out; [lia | lia | exact Hp].
Qed.

Lemma RunTest_panics_without_an_expected_value_witness :
  Call doubleAndSucc (rvals ints 1).1 = Some [2; 2]
  /\ (rvals ints 2).1 = [2]
  /\ RunTest ints 1 doubleAndSucc 1 2 [] = Panic [].
Proof.
  split; [reflexivity|]. split; [reflexivity|].
  apply (RunTest_panics_without_an_expected_value ints 1 doubleAndSucc 1 2 [2; 2] [] []);
    [reflexivity | reflexivity | reflexivity | vm_compute; lia |].
  apply (passes_cons (IsEqual ints 1) 2 2 [] [] "" [] []);
    [reflexivity | apply passes_nil].
Defined.

(** X11: the runner looks at as many expected values as the call returned
    results, and at their names when there are several results: two
    expected values that agree on those give the same outcome, whatever
    else they hold. *)
Theorem RunTest_ignores_surplus_expected_values
    w fuel fnptr invals expectvals expectvals' got t :
  Call fnptr (rvals w invals).1 = Some got ->
  take (length got) (rvals w expectvals).1
  = take (length got) (rvals w expectvals').1 ->
  (1 < length got ->
   take (length got) (rvals w expectvals).2
   = take (length got) (rvals w expectvals').2) ->
  RunTest w fuel fnptr invals expectvals t
  = RunTest w fuel fnptr invals expectvals' t.
Proof.
  intros Hcall He Hn. unfold RunTest.
  destruct (rvals w invals) as [in_ inNames], (rvals w expectvals) as [expect exNames],
    (rvals w expectvals') as [expect' exNames'].
  cbn [fst snd] in *.
  destruct (negb _); [reflexivity|]. rewrite Hcall.
  destruct (negb _); [reflexivity|].
  apply compareResults_ext; by rewrite Nat.add_0_r.
Qed.

Lemma RunTest_ignores_surplus_expected_values_witness :
  Call double (rvals ints 1).1 = Some [2]
  /\ (rvals ints 13).1 = [2; 9]
  /\ (rvals ints 2).1 = [2]
  /\ RunTest ints 1 double 1 13 [] = RunTest ints 1 double 1 2 [].
Proof.
  split; [reflexivity|]. split; [reflexivity|]. split; [reflexivity|].
  apply (RunTest_ignores_surplus_expected_values ints 1 double 1 13 2 [2] []);
    [reflexivity | reflexivity | cbn; lia].
Defined.

(** ** A batch that is cut short, and the log before a batch *)

Section Abort.
Variable w : reflect.World.
Variable fuel : nat.
Variable fnptr : Func.
Variables allIn allExpect : list reflect.iface.
Variable rs : list (bool * string * T).
Variables x y : reflect.iface.
Hypothesis case_in : allIn !! length rs = Some x.
Hypothesis case_expect : allExpect !! length rs = Some y.
Hypothesis earlier_cases_return :
  forall i x y r,
    allIn !! i = Some x -> allExpect !! i = Some y -> rs !! i = Some r ->
    RunTest w fuel fnptr x y [] = Done r.1 r.2.

(** The cases before one that does not return are run and reported; the
    one that does not return is announced, and ends the loop. *)
Lemma runCases_stops count :
  forall i t tk,
    i <= length rs < i + count ->
    (RunTest w fuel fnptr x y [] = Fatal tk ->
     runCases w fuel fnptr allIn allExpect count i t
     = Fatal (t ++ batchLog i (drop i rs)
                ++ [Logged ("Testing case " +:+ fmt_v (length rs) +:+ nl)] ++ tk))
    /\ (RunTest w fuel fnptr x y [] = Panic tk ->
        runCases w fuel fnptr allIn allExpect count i t
        = Panic (t ++ batchLog i (drop i rs)
                   ++ [Logged ("Testing case " +:+ fmt_v (length rs) +:+ nl)] ++ tk)).
Proof.
  induction count as [|count IH]; intros i t tk Hi; [lia|].
  cbn [runCases].
  destruct (decide (i = length rs)) as [->|Hne].
  - rewrite case_in, case_expect, drop_ge by lia. cbn [batchLog app].
    rewrite <- (app_nil_r (Logf t _)), RunTest_frame.
    split; intros ->; cbn [mapState]; unfold Logf; by rewrite <- app_assoc.
  - assert (Hk : length rs < length allIn) by (by eapply lookup_lt_Some).
    assert (Hk' : length rs < length allExpect) by (by eapply lookup_lt_Some).
    destruct (lookup_lt_is_Some_2 allIn i) as [xi Hx]; [lia|].
    destruct (lookup_lt_is_Some_2 allExpect i) as [yi Hy]; [lia|].
    destruct (lookup_lt_is_Some_2 rs i) as [r Hr]; [lia|].
    rewrite (drop_S _ _ _ Hr). cbn [batchLog]. rewrite Hx, Hy.
    rewrite <- (app_nil_r (Logf t _)), RunTest_frame,
      (earlier_cases_return i xi yi r Hx Hy Hr).
    destruct r as [[pass msg] log]. cbn [mapState fst snd].
    destruct (IH (S i)
                (if pass then Logf t ("Testing case " +:+ fmt_v i +:+ nl) ++ log
                 else Errorf (Logf t ("Testing case " +:+ fmt_v i +:+ nl) ++ log)
                        ("FAIL case " +:+ fmt_v i +:+ " (" +:+ msg +:+ ")" +:+ nl))
                tk) as [HF HP]; [lia|].
    split; intros Hrun; [rewrite (HF Hrun)|rewrite (HP Hrun)];
      unfold caseLog, Logf, Errorf; cbn [fst snd];
      destruct pass; by rewrite <- ?app_assoc.
Qed.
End Abort.

Section BatchFrame.
Variable w : reflect.World.

Lemma runCases_frame fuel fnptr allIn allExpect t0 count :
  forall i t,
    runCases w fuel fnptr allIn allExpect count i (t0 ++ t)
    = mapState (app t0) (runCases w fuel fnptr allIn allExpect count i t).
Proof.
  induction count as [|count IH]; intros i t; [reflexivity|].
  cbn [runCases]. unfold Logf. rewrite <- app_assoc.
  destruct (allIn !! i), (allExpect !! i); try reflexivity.
  rewrite RunTest_frame.
  destruct (RunTest w fuel fnptr _ _ _) as [[[] msg] t'| | |]; cbn [mapState];
    try reflexivity.
  - apply IH.
  - unfold Errorf. rewrite <- app_assoc. apply IH.
Qed.
End BatchFrame.

(** X13: a case that does not return ends the batch.  When the cases
    before case [k] return and case [k] is stopped by [t.Fatal] (or
    panics), the batch is stopped by [t.Fatal] (or panics) too: the log
    holds the earlier cases, the announcement of case [k] and what case [k]
    left, and no later case is run. *)
Theorem RunAllTests_stops_at_a_case_that_does_not_return
    w fuel fnptr allInVals allExpectVals allIn allExpect rs x y t tk :
  reflect.Value_Kind w (reflect.ValueOf w allInVals) = reflect.Slice ->
  reflect.Value_Kind w (reflect.ValueOf w allExpectVals) = reflect.Slice ->
  fracture w allInVals = Some allIn ->
  fracture w allExpectVals = Some allExpect ->
  length allIn = length allExpect ->
  (forall i x y r,
      allIn !! i = Some x -> allExpect !! i = Some y -> rs !! i = Some r ->
      RunTest w fuel fnptr x y [] = Done r.1 r.2) ->
  allIn !! length rs = Some x ->
  allExpect !! length rs = Some y ->
  (RunTest w fuel fnptr x y [] = Fatal tk ->
   RunAllTests w fuel fnptr allInVals allExpectVals t
   = Fatal (t ++ batchLog 0 rs
              ++ [Logged ("Testing case " +:+ fmt_v (length rs) +:+ nl)] ++ tk))
  /\ (RunTest w fuel fnptr x y [] = Panic tk ->
      RunAllTests w fuel fnptr allInVals allExpectVals t
      = Panic (t ++ batchLog 0 rs
                 ++ [Logged ("Testing case " +:+ fmt_v (length rs) +:+ nl)] ++ tk)).
Proof.
  intros Hin Hex Hfin Hfex Hlen Hrs Hx Hy.
  unfold RunAllTests.
  rewrite (bool_decide_eq_true_2 _ Hin), (bool_decide_eq_true_2 _ Hex), Hfin, Hfex.
  cbn [negb]. rewrite Hlen, Nat.eqb_refl. cbn [negb]. rewrite <- Hlen.
  assert (Hk : length rs < length allIn) by (by eapply lookup_lt_Some).
  apply (runCases_stops w fuel fnptr allIn allExpect rs x y Hx Hy Hrs
           (length allIn) 0 t tk).
  lia.
Qed.

Lemma RunAllTests_stops_at_a_case_that_does_not_return_witness :
  fracture ints 14 = Some [1; 2; 3; 4; 5]
  /\ fracture ints 15 = Some [2; 4; 7; 8; 10]
  /\ RunTest ints 1 doubleSmall 3 7 [] = Panic []
  /\ RunAllTests ints 1 doubleSmall 14 15 []
     = Panic [ Logged ("Testing case 0" +:+ nl); Logged ("Testing case 1" +:+ nl);
               Logged ("Testing case 2" +:+ nl) ].
Proof.
  split; [reflexivity|]. split; [reflexivity|]. split; [reflexivity|].
  refine (proj2 (RunAllTests_stops_at_a_case_that_does_not_return
                   ints 1 doubleSmall 14 15 [1; 2; 3; 4; 5] [2; 4; 7; 8; 10]
                   [(true, "", []); (true, "", [])] 3 7 [] []
                   eq_refl eq_refl eq_refl eq_refl eq_refl _ eq_refl eq_refl)
            eq_refl).
  intros i x y r Hx Hy Hr.
  destruct i as [|[|i]]; cbn in Hx, Hy, Hr; simplify_eq; reflexivity.
Defined.

(** X14: a batch adds to the test log and never reads it: run after the
    lines [t0], it ends as it does on their continuation, with the same
    lines after them. *)
Theorem RunAllTests_only_appends w fuel fnptr allInVals allExpectVals t0 t :
  RunAllTests w fuel fnptr allInVals allExpectVals (t0 ++ t)
  = mapState (app t0) (RunAllTests w fuel fnptr allInVals allExpectVals t).
Proof.
  unfold RunAllTests.
  destruct (negb _); [unfold Fatal_; cbn; by rewrite app_assoc|].
  destruct (negb _); [unfold Fatal_; cbn; by rewrite app_assoc|].
  destruct (fracture w allInVals) as [allIn|]; [|reflexivity].
  destruct (fracture w allExpectVals) as [allExpect|]; [|reflexivity].
  destruct (negb _); [unfold Fatal_; cbn; by rewrite app_assoc|].
  apply runCases_frame.
Qed.

(** ** What a case reports, and what stops it *)

Section CaseReports.
Variable w : reflect.World.

Lemma compareResults_reports fuel got expect exNames count :
  forall i0 t r t',
    compareResults w fuel got expect exNames count i0 t = Done r t' ->
    if r.1
    then r.2 = "" /\ t' = t
         /\ (forall j g e,
                i0 <= j < i0 + count -> got !! j = Some g -> expect !! j = Some e ->
                IsEqual w fuel g e t = Done (true, "") t)
    else exists i g e name mid,
        i0 <= i
        /\ got !! i = Some g /\ expect !! i = Some e
        /\ (forall j gj ej,
               i0 <= j < i -> got !! j = Some gj -> expect !! j = Some ej ->
               IsEqual w fuel gj ej t = Done (true, "") t)
        /\ IsEqual w fuel g e t = Done (false, r.2) (t ++ mid)
        /\ ((r.2 ∈ plainDiagnostics /\ mid = [])
            \/ (exists fa fb, r.2 = floatDiagnostic w fa fb /\ mid = [Logged r.2]))
        /\ (if (1 <? length got)%nat
            then (λ n, " (" +:+ n +:+ ")") <$> exNames !! i
            else Some "") = Some name
        /\ t' = t ++ mid
                 ++ [ Logged ("Expected" +:+ name +:+ ": "
                                +:+ PrintTruncated w e +:+ nl +:+ nl);
                      Logged ("Got     " +:+ name +:+ ": "
                                +:+ PrintTruncated w g +:+ nl +:+ nl) ].
Proof.
  induction count as [|count IH]; intros i0 t r t' H.
  - cbn in H. simplify_eq. cbn. repeat split. intros j g e Hj. lia.
  - cbn [compareResults] in H.
    destruct (got !! i0) as [g0|] eqn:Hg0; [|discriminate H].
    destruct (expect !! i0) as [e0|] eqn:He0; [|discriminate H].
    destruct (IsEqual w fuel g0 e0 t) as [[[] msg] t1| | |] eqn:Hc; try discriminate H.
    + pose proof Hc as Hs. apply IsEqual_settled in Hs as [h' [_ [Hm Ht]]].
      cbn in Hm, Ht. subst msg t1.
      assert (Hhere : forall j g e,
                 j = i0 -> got !! j = Some g -> expect !! j = Some e ->
                 IsEqual w fuel g e t = Done (true, "") t)
        by (intros j g e -> Hg He; by simplify_eq).
      apply IH in H. destruct r as [[] m]; cbn [fst snd] in *.
      * destruct H as (Hm & Ht & Hall). repeat split; try assumption.
        intros j g e Hj Hg He. destruct (decide (j = i0)) as [Hji|Hji].
        -- by apply (Hhere j).
        -- apply (Hall j); [lia|assumption..].
      * destruct H as (i & g & e & name & mid & Hi & Hg & He & Hbefore & Hrest).
        exists i, g, e, name, mid. split; [lia|]. split; [exact Hg|].
        split; [exact He|]. split; [|exact Hrest].
        intros j gj ej Hj Hgj Hej. destruct (decide (j = i0)) as [Hji|Hji].
        -- by apply (Hhere j).
        -- apply (Hbefore j); [lia|assumption..].
    + destruct (if (1 <? length got)%nat then _ else _) as [name|] eqn:Hname;
        [|discriminate H].
      simplify_eq. cbn [fst snd].
      pose proof Hc as Hs. apply IsEqual_settled in Hs as [h' [_ Hr]]. cbn in Hr.
      assert (Hmid : exists mid,
                 t1 = t ++ mid
                 /\ ((msg ∈ plainDiagnostics /\ mid = [])
                     \/ (exists fa fb, msg = floatDiagnostic w fa fb
                                       /\ mid = [Logged msg]))).
      { destruct Hr as [[Hm ->]|(fa & fb & Hm & ->)].
        - exists []. split; [by rewrite app_nil_r|]. left. by split.
        - exists [Logged msg]. split; [reflexivity|]. right. exists fa, fb. by split. }
      destruct Hmid as (mid & -> & Hkind).
      exists i0, g0, e0, name, mid. split; [lia|]. split; [exact Hg0|].
      split; [exact He0|]. split; [intros j gj ej Hj; lia|].
      split; [exact Hc|]. split; [exact Hkind|]. split; [exact Hname|].
      unfold Logf. by rewrite <- !app_assoc.
Qed.

Lemma compareFrom_not_Fatal cmp at_a at_b :
  (forall x y h t s, cmp x y h t <> Fatal s) ->
  forall count i h t s, compareFrom cmp at_a at_b count i h t <> Fatal s.
Proof.
  intros Hcmp. induction count as [|count IH]; intros i h t s; [discriminate|].
  cbn [compareFrom]. destruct (at_a i) as [x|], (at_b i) as [y|]; try discriminate.
  pose proof (Hcmp x y h t) as Hn.
  destruct (cmp x y h t) as [[[] msg] [h1 t1]| | |]; try discriminate.
  - apply IH.
  - apply Hn.
Qed.

(** The comparator has no [t.Fatal]. *)
Lemma IsEqualLoopBreaker_not_Fatal fuel :
  forall a b h t s, IsEqualLoopBreaker w fuel a b h t <> Fatal s.
Proof.
  induction fuel as [|fuel IH]; intros a b h t s; [discriminate|].
  cbn [IsEqualLoopBreaker].
  destruct (bool_decide _); [discriminate|].
  destruct (negb _); [discriminate|].
  destruct (indirect w a b) as [[a' b']|]; [|discriminate].
  unfold afterIndirect.
  destruct (isFloatKind _).
  { destruct (reflect.Value_Float w a'), (reflect.Value_Float w b'); try discriminate.
    destruct (withinEpsilon _ _); discriminate. }
  cbv zeta. destruct (isSeqKind _).
  { destruct (reflect.Value_Len w a'), (reflect.Value_Len w b'); try discriminate.
    destruct (negb _); [discriminate|]. by apply compareFrom_not_Fatal. }
  destruct (bool_decide _).
  { destruct (reflect.Value_NumField w a'), (reflect.Value_NumField w b');
      try discriminate.
    destruct (negb _); [discriminate|]. by apply compareFrom_not_Fatal. }
  destruct (reflect.Value_Interface w a'), (reflect.Value_Interface w b');
    try discriminate.
  destruct (reflect.DeepEqual _ _ _); discriminate.
Qed.

Lemma IsEqual_not_Fatal fuel a b t t' : IsEqual w fuel a b t <> Fatal t'.
Proof.
  unfold IsEqual.
  pose proof (IsEqualLoopBreaker_not_Fatal fuel a b ∅ t) as Hn.
  destruct (IsEqualLoopBreaker w fuel a b ∅ t) as [r [??]|[h1 t1]|[??]|];
    try discriminate.
  by destruct (Hn (h1, t1)).
Qed.

Lemma compareResults_not_Fatal fuel got expect exNames count :
  forall i t t', compareResults w fuel got expect exNames count i t <> Fatal t'.
Proof.
  induction count as [|count IH]; intros i t t'; [discriminate|].
  cbn [compareResults].
  destruct (got !! i) as [g|], (expect !! i) as [e|]; try discriminate.
  pose proof (IsEqual_not_Fatal fuel g e t) as Hn.
  destruct (IsEqual w fuel g e t) as [[[] msg] t1| | |]; try discriminate.
  - apply IH.
  - destruct (if (1 <? length got)%nat then _ else _); discriminate.
  - apply Hn.
Qed.
End CaseReports.

(** X15: what a case that returns has done.  A case that passes has found
    every result equal to its expected value, logs nothing and has the empty
    message.  A case that fails has found the results before some position
    [i] equal to their expected values and the result at [i] unequal to
    its own; its message is the diagnostic of that comparison, never empty;
    and it has added to the log the line of that comparison, exactly when
    the diagnostic is the one of two floating-point numbers, and then the
    expected and the actual value at [i], named by field [i] when there are
    several results. *)
Theorem RunTest_reports_the_result_that_differs
    w fuel fnptr invals expectvals got t r t' :
  Call fnptr (rvals w invals).1 = Some got ->
  RunTest w fuel fnptr invals expectvals t = Done r t' ->
  if r.1
  then r.2 = "" /\ t' = t
       /\ (forall j g e,
              got !! j = Some g -> (rvals w expectvals).1 !! j = Some e ->
              IsEqual w fuel g e t = Done (true, "") t)
  else exists i g e name mid,
      got !! i = Some g /\ (rvals w expectvals).1 !! i = Some e
      /\ (forall j gj ej,
             j < i -> got !! j = Some gj -> (rvals w expectvals).1 !! j = Some ej ->
             IsEqual w fuel gj ej t = Done (true, "") t)
      /\ IsEqual w fuel g e t = Done (false, r.2) (t ++ mid)
      /\ r.2 <> ""
      /\ ((r.2 ∈ plainDiagnostics /\ mid = [])
          \/ (exists fa fb, r.2 = floatDiagnostic w fa fb /\ mid = [Logged r.2]))
      /\ (if (1 <? length got)%nat
          then (λ n, " (" +:+ n +:+ ")") <$> (rvals w expectvals).2 !! i
          else Some "") = Some name
      /\ t' = t ++ mid
               ++ [ Logged ("Expected" +:+ name +:+ ": "
                              +:+ PrintTruncated w e +:+ nl +:+ nl);
                    Logged ("Got     " +:+ name +:+ ": "
                              +:+ PrintTruncated w g +:+ nl +:+ nl) ].
Proof.
  intros Hcall. unfold RunTest.
  destruct (rvals w invals) as [in_ inNames], (rvals w expectvals) as [expect exNames].
  cbn [fst snd] in *.
  destruct (negb _); [discriminate|]. rewrite Hcall.
  destruct (negb _); [discriminate|].
  intros H. apply compareResults_reports in H.
  destruct r as [[] m]; cbn [fst snd] in *.
  - destruct H as (Hm & Ht & Hall). repeat split; try assumption.
    intros j g e Hg He. apply (Hall j); [|assumption..].
    apply lookup_lt_Some in Hg. lia.
  - destruct H as (i & g & e & name & mid & _ & Hg & He & Hbefore & Hc & Hkind
                   & Hname & Ht).
    exists i, g, e, name, mid. repeat (split; [first [assumption | idtac]|]);
      try assumption.
    + intros j gj ej Hj. apply Hbefore. lia.
    + destruct Hkind as [[Hm _]|(fa & fb & -> & _)]; [|discriminate].
      unfold plainDiagnostics in Hm. rewrite !elem_of_cons, elem_of_nil in Hm.
      destruct Hm as [->|[->|[->|[->|[]]]]]; discriminate.
Qed.

Lemma RunTest_reports_the_result_that_differs_witness :
  Call doubleAndSucc (rvals ints 1).1 = Some [2; 2]
  /\ RunTest ints 1 doubleAndSucc 1 13 []
     = Done (false, "reflect.DeepEqual failed")
         [ Logged ("Expected (Succ): 9" +:+ nl +:+ nl);
           Logged ("Got      (Succ): 2" +:+ nl +:+ nl) ]
  /\ exists i g e name mid,
      [2; 2] !! i = Some g /\ (rvals ints 13).1 !! i = Some e
      /\ (forall j gj ej,
             j < i -> [2; 2] !! j = Some gj -> (rvals ints 13).1 !! j = Some ej ->
             IsEqual ints 1 gj ej [] = Done (true, "") [])
      /\ IsEqual ints 1 g e [] = Done (false, "reflect.DeepEqual failed") ([] ++ mid)
      /\ "reflect.DeepEqual failed" <> ""
      /\ (("reflect.DeepEqual failed" ∈ plainDiagnostics /\ mid = [])
          \/ (exists fa fb,
                 "reflect.DeepEqual failed" = floatDiagnostic ints fa fb
                 /\ mid = [Logged "reflect.DeepEqual failed"]))
      /\ (if (1 <? length [2; 2])%nat
          then (λ n, " (" +:+ n +:+ ")") <$> (rvals ints 13).2 !! i
          else Some "") = Some name
      /\ [ Logged ("Expected (Succ): 9" +:+ nl +:+ nl);
           Logged ("Got      (Succ): 2" +:+ nl +:+ nl) ]
         = [] ++ mid
              ++ [ Logged ("Expected" +:+ name +:+ ": "
                             +:+ PrintTruncated ints e +:+ nl +:+ nl);
                   Logged ("Got     " +:+ name +:+ ": "
                             +:+ PrintTruncated ints g +:+ nl +:+ nl) ].
Proof.
  assert (Hcall : Call doubleAndSucc (rvals ints 1).1 = Some [2; 2]) by reflexivity.
  assert (Hrun : RunTest ints 1 doubleAndSucc 1 13 []
                 = Done (false, "reflect.DeepEqual failed")
                     [ Logged ("Expected (Succ): 9" +:+ nl +:+ nl);
                       Logged ("Got      (Succ): 2" +:+ nl +:+ nl) ])
    by reflexivity.
  split; [exact Hcall|]. split; [exact Hrun|].
  exact (RunTest_reports_the_result_that_differs ints 1 doubleAndSucc 1 13 [2; 2] []
           _ _ Hcall Hrun).
Defined.

(** X16: only the count of the inputs stops a case with [t.Fatal].  A Go
    function returns as many results as its type declares, so the test
    under "The number of expect params doesn't match function results."
    never holds, and the comparator has no [t.Fatal]: a case is stopped by
    [t.Fatal] exactly when the inputs are not as many as the parameters,
    and the log then ends with "The number of in params doesn't match
    function parameters.". *)
Theorem RunTest_is_stopped_only_by_the_input_count
    w fuel fnptr invals expectvals t t' :
  (forall args got, Call fnptr args = Some got -> length got = NumOut fnptr) ->
  RunTest w fuel fnptr invals expectvals t = Fatal t'
  <-> length (rvals w invals).1 <> NumIn fnptr
      /\ t' = t ++ [Fataled "The number of in params doesn't match function parameters."].
Proof.
  intros Hcall. unfold RunTest.
  destruct (rvals w invals) as [in_ inNames], (rvals w expectvals) as [expect exNames].
  cbn [fst].
  destruct (length in_ =? NumIn fnptr)%nat eqn:Hin; cbn [negb].
  - apply Nat.eqb_eq in Hin. split; [|intros [Hne _]; contradiction].
    intros H. exfalso.
    destruct (Call fnptr in_) as [got|] eqn:Hgot; [|discriminate H].
    rewrite (Hcall in_ got Hgot), Nat.eqb_refl in H. cbn [negb] in H.
    by apply compareResults_not_Fatal in H.
  - apply Nat.eqb_neq in Hin. unfold Fatal_. split.
    + intros H. by simplify_eq.
    + intros [_ ->]. reflexivity.
Qed.

Lemma RunTest_is_stopped_only_by_the_input_count_witness :
  length (rvals ints 13).1 <> NumIn double
  /\ RunTest ints 1 double 13 2 []
     = Fatal [Fataled "The number of in params doesn't match function parameters."].
Proof.
  split; [vm_compute; lia|].
  apply (RunTest_is_stopped_only_by_the_input_count ints 1 double 13 2 []).
  - intros args got H. destruct args as [|x [|y args]]; cbn in H; by simplify_eq.
  - split; [vm_compute; lia|reflexivity].
Defined.

(** X12: a function with several results cannot be checked against an
    expected value that is not a struct.  Such a value stands for one
    result and has no field names, so the runner panics once the comparison
    of the first result with it has ended: on the name of the first result
    when the two are found unequal, before anything is logged of the
    result, and on the missing second expected value when they are found
    equal.  The log is then what that comparison left. *)
Theorem RunTest_needs_a_struct_for_several_results
    w fuel fnptr invals expectvals got g t :
  reflect.Value_Kind w (reflect.ValueOf w expectvals) <> reflect.Struct ->
  length (rvals w invals).1 = NumIn fnptr ->
  Call fnptr (rvals w invals).1 = Some got ->
  length got = NumOut fnptr ->
  1 < length got ->
  got !! 0 = Some g ->
  IsEqual w fuel g (reflect.ValueOf w expectvals) t <> Diverge ->
  exists t',
    RunTest w fuel fnptr invals expectvals t = Panic t'
    /\ ((exists r, IsEqual w fuel g (reflect.ValueOf w expectvals) t = Done r t')
        \/ IsEqual w fuel g (reflect.ValueOf w expectvals) t = Panic t').
Proof.
  intros Hk Hin Hcall Hout Hlen Hg Hend. unfold RunTest.
  rewrite (rvals_single w expectvals Hk).
  destruct (rvals w invals) as [in_ inNames]. cbn [fst] in *.
  rewrite Hin, Nat.eqb_refl, Hcall, Hout, Nat.eqb_refl. cbn [negb].
  rewrite <- Hout.
  destruct got as [|g0 [|g1 got]]; cbn [length] in Hlen; [lia | lia |].
  cbn in Hg. simplify_eq.
  cbn [length compareResults lookup list_lookup].
  pose proof (IsEqual_not_Fatal w fuel g (reflect.ValueOf w expectvals) t) as Hnf.
  destruct (IsEqual w fuel g _ t) as [[[] msg] t1|t1|t1|] eqn:Hc.
  - exists t1. split; [reflexivity|]. left. by exists (true, msg).
  - exists t1. split; [reflexivity|]. left. by exists (false, msg).
  - by destruct (Hnf t1).
  - exists t1. split; [reflexivity|]. by right.
  - contradiction.
Qed.

Lemma RunTest_needs_a_struct_for_several_results_witness :
  reflect.Value_Kind ints (reflect.ValueOf ints 5) <> reflect.Struct
  /\ Call doubleAndSucc (rvals ints 1).1 = Some [2; 2]
  /\ IsEqual ints 1 2 (reflect.ValueOf ints 5) []
     = Done (false, "reflect.DeepEqual failed") []
  /\ exists t',
      RunTest ints 1 doubleAndSucc 1 5 [] = Panic t'
      /\ ((exists r, IsEqual ints 1 2 (reflect.ValueOf ints 5) [] = Done r t')
          \/ IsEqual ints 1 2 (reflect.ValueOf ints 5) [] = Panic t').
Proof.
  split; [discriminate|]. split; [reflexivity|]. split; [reflexivity|].
  apply (RunTest_needs_a_struct_for_several_results ints 1 doubleAndSucc 1 5 [2; 2] 2 []);
    [discriminate | reflexivity | reflexivity | reflexivity | cbn; lia | reflexivity
    | discriminate].
Defined.

(** ** The order of the operands *)

Lemma exchanged_elem a b h : (b, a) ∈ exchanged h <-> (a, b) ∈ h.
Proof.
  unfold exchanged. rewrite elem_of_map. split.
  - intros [[x y] [Heq Hin]]. cbn in Heq. by simplify_eq.
  - intros H. by exists (a, b).
Qed.

Lemma exchanged_add a b h : exchanged ({[ (a, b) ]} ∪ h) = {[ (b, a) ]} ∪ exchanged h.
Proof. unfold exchanged. by rewrite set_map_union_L, set_map_singleton_L. Qed.

Section Exchange.
Variable w : reflect.World.
Hypothesis DeepEqual_symmetric :
  forall v1 v2, reflect.deepTraverse w v1 v2 = reflect.deepTraverse w v2 v1.

Lemma DeepEqual_comm x y : reflect.DeepEqual w x y = reflect.DeepEqual w y x.
Proof.
  unfold reflect.DeepEqual, reflect.deepValueEqual. cbv zeta.
  destruct (reflect.IsValid w (reflect.ValueOf w x)),
    (reflect.IsValid w (reflect.ValueOf w y)); cbn; try reflexivity.
  rewrite (DeepEqual_symmetric (reflect.ValueOf w x) (reflect.ValueOf w y)).
  do 2 case_bool_decide; try congruence; cbn; [|reflexivity].
  destruct (reflect.holds w (reflect.ValueOf w x)) as [| |[?|]| | | | | | |],
    (reflect.holds w (reflect.ValueOf w y)) as [| |[?|]| | | | | | |];
    reflexivity.
Qed.

Lemma indirect_exchanged a b :
  reflect.Value_Kind w a = reflect.Value_Kind w b ->
  indirect w b a = prod_swap <$> indirect w a b.
Proof.
  unfold indirect. intros Hk. rewrite <- Hk.
  case_bool_decide as Hp; [|reflexivity].
  rewrite Hp in Hk. symmetry in Hk.
  unfold reflect.Value_Kind in Hp, Hk.
  unfold reflect.Value_IsNil, reflect.Value_Elem.
  destruct (reflect.holds w a) as [| |[ea|]| | | | | | |ka];
    try discriminate Hp; try (destruct ka; discriminate Hp);
    destruct (reflect.holds w b) as [| |[eb|]| | | | | | |kb];
    try discriminate Hk; try (destruct kb; discriminate Hk); reflexivity.
Qed.

Lemma compareFrom_exchanged cmp cmp' (la lb : list reflect.Value) :
  (forall x y h t t',
      (x, y) ∈ zip la lb -> endAlike (cmp x y h t) (cmp' y x (exchanged h) t')) ->
  forall count i h t t',
    endAlike (compareFrom cmp (la !!.) (lb !!.) count i h t)
             (compareFrom cmp' (lb !!.) (la !!.) count i (exchanged h) t').
Proof.
  intros Hcmp. induction count as [|count IH]; intros i h t t'.
  - cbn. by split.
  - cbn [compareFrom].
    destruct (la !! i) as [x|] eqn:Hx, (lb !! i) as [y|] eqn:Hy; try exact I.
    assert (Hin : (x, y) ∈ zip la lb).
    { apply (list_elem_of_lookup_2 _ i). rewrite lookup_zip_with, Hx, Hy. reflexivity. }
    specialize (Hcmp x y h t t' Hin).
    destruct (cmp x y h t) as [[[] m1] [h1 t1]| | |],
      (cmp' y x (exchanged h) t') as [[[] m2] [h2 t2]| | |];
      cbn in Hcmp; try exact Hcmp; try tauto;
      try (destruct Hcmp as [? _]; discriminate).
    destruct Hcmp as [_ ->]. apply IH.
Qed.

Lemma kind_of_basic_plain k :
  isFloatKind (reflect.kind_of_basic k) = false
  /\ isSeqKind (reflect.kind_of_basic k) = false
  /\ reflect.kind_of_basic k <> reflect.Struct.
Proof. destruct k; repeat split; discriminate. Qed.

(** Past the float, sequence and struct tests the answer is [DeepEqual]'s. *)
Lemma afterIndirect_fallback cmp a b h t :
  isFloatKind (reflect.Value_Kind w a) = false ->
  isSeqKind (reflect.Value_Kind w a) = false ->
  reflect.Value_Kind w a <> reflect.Struct ->
  afterIndirect w cmp a b h t
  = match reflect.Value_Interface w a, reflect.Value_Interface w b with
    | Some ia, Some ib =>
        if reflect.DeepEqual w ia ib then Done (true, "") ({[ (a, b) ]} ∪ h, t)
        else Done (false, "reflect.DeepEqual failed") ({[ (a, b) ]} ∪ h, t)
    | _, _ => Panic ({[ (a, b) ]} ∪ h, t)
    end.
Proof.
  intros Hf Hs Hst. unfold afterIndirect.
  rewrite Hf. cbv zeta. rewrite Hs, (bool_decide_eq_false_2 _ Hst). reflexivity.
Qed.

Lemma afterIndirect_fallback_exchanged cmp cmp' a b h t t' :
  reflect.Value_Kind w a = reflect.Value_Kind w b ->
  isFloatKind (reflect.Value_Kind w a) = false ->
  isSeqKind (reflect.Value_Kind w a) = false ->
  reflect.Value_Kind w a <> reflect.Struct ->
  endAlike (afterIndirect w cmp a b h t)
           (afterIndirect w cmp' b a (exchanged h) t').
Proof.
  intros Hk Hf Hs Hst.
  rewrite (afterIndirect_fallback cmp a b) by assumption.
  rewrite (afterIndirect_fallback cmp' b a) by (rewrite <- Hk; assumption).
  destruct (reflect.Value_Interface w a) as [ia|],
    (reflect.Value_Interface w b) as [ib|]; try exact I.
  rewrite (DeepEqual_comm ib ia).
  destruct (reflect.DeepEqual w ia ib); cbn; by rewrite exchanged_add.
Qed.

Lemma afterIndirect_exchanged n a b h t t' :
  (forall x y h t t',
      sameShapeWithin w n x y = true ->
      endAlike (IsEqualLoopBreaker w n x y h t)
               (IsEqualLoopBreaker w n y x (exchanged h) t')) ->
  reflect.Value_Kind w a = reflect.Value_Kind w b ->
  match reflect.holds w a, reflect.holds w b with
  | reflect.RSlice la, reflect.RSlice lb
  | reflect.RArray la, reflect.RArray lb =>
      forallb (λ p, sameShapeWithin w n p.1 p.2) (zip la lb)
  | reflect.RStruct fa, reflect.RStruct fb =>
      forallb (λ p, sameShapeWithin w n p.1 p.2) (zip fa.*2 fb.*2)
  | _, _ => true
  end = true ->
  endAlike (afterIndirect w (IsEqualLoopBreaker w n) a b h t)
           (afterIndirect w (IsEqualLoopBreaker w n) b a (exchanged h) t').
Proof.
  intros IH Hk Hsub.
  assert (Hloop : forall la lb : list reflect.Value,
             forallb (λ p, sameShapeWithin w n p.1 p.2) (zip la lb) = true ->
             forall t t',
               endAlike
                 (if negb (length la =? length lb)%nat
                  then Done (false, "Slices having different lengths")
                         ({[ (a, b) ]} ∪ h, t)
                  else compareFrom (IsEqualLoopBreaker w n) (la !!.) (lb !!.)
                         (length la) 0 ({[ (a, b) ]} ∪ h) t)
                 (if negb (length lb =? length la)%nat
                  then Done (false, "Slices having different lengths")
                         ({[ (b, a) ]} ∪ exchanged h, t')
                  else compareFrom (IsEqualLoopBreaker w n) (lb !!.) (la !!.)
                         (length lb) 0 ({[ (b, a) ]} ∪ exchanged h) t')).
  { intros la lb Hall t0 t0'. rewrite (Nat.eqb_sym (length lb)).
    destruct (length la =? length lb)%nat eqn:Hlen; cbn [negb].
    - apply Nat.eqb_eq in Hlen. rewrite <- Hlen, <- exchanged_add.
      apply compareFrom_exchanged. intros x y h0 t1 t1' Hin. apply IH.
      rewrite forallb_forall in Hall.
      apply list_elem_of_In in Hin. exact (Hall (x, y) Hin).
    - cbn. by rewrite exchanged_add. }
  pose proof Hk as Hk'. unfold reflect.Value_Kind in Hk'.
  destruct (reflect.holds w a) as [fa|fa|ea|la|la|fa|la|na|na|ka] eqn:Ha;
    destruct (reflect.holds w b) as [fb|fb|eb|lb|lb|fb|lb|nb|nb|kb] eqn:Hb;
    try discriminate Hk'; try (destruct ka; discriminate Hk');
    try (destruct kb; discriminate Hk').
  - (* float32 *)
    unfold afterIndirect, reflect.Value_Kind, reflect.Value_Float.
    rewrite Ha, Hb. cbn. rewrite (withinEpsilon_comm fb fa).
    destruct (withinEpsilon fa fb); cbn; done.
  - (* float64 *)
    unfold afterIndirect, reflect.Value_Kind, reflect.Value_Float.
    rewrite Ha, Hb. cbn. rewrite (withinEpsilon_comm fb fa).
    destruct (withinEpsilon fa fb); cbn; done.
  - (* pointers *)
    apply afterIndirect_fallback_exchanged; try assumption;
      unfold reflect.Value_Kind; rewrite Ha; (reflexivity || discriminate).
  - (* slices *)
    rewrite (afterIndirect_sequences w _ a b la lb) by eauto.
    rewrite (afterIndirect_sequences w _ b a lb la) by eauto.
    by apply Hloop.
  - (* arrays *)
    rewrite (afterIndirect_sequences w _ a b la lb) by eauto.
    rewrite (afterIndirect_sequences w _ b a lb la) by eauto.
    by apply Hloop.
  - (* structs *)
    rewrite (afterIndirect_structs w _ a b fa fb) by assumption.
    rewrite (afterIndirect_structs w _ b a fb fa) by assumption.
    rewrite (Nat.eqb_sym (length fb)).
    destruct (length fa =? length fb)%nat eqn:Hlen; cbn [negb].
    + apply Nat.eqb_eq in Hlen. rewrite <- Hlen, <- exchanged_add.
      apply compareFrom_exchanged. intros x y h0 t1 t1' Hin. apply IH.
      rewrite forallb_forall in Hsub.
      apply list_elem_of_In in Hin. exact (Hsub (x, y) Hin).
    + cbn. by rewrite exchanged_add.
  - (* strings *)
    apply afterIndirect_fallback_exchanged; try assumption;
      unfold reflect.Value_Kind; rewrite Ha; (reflexivity || discriminate).
  - (* maps *)
    apply afterIndirect_fallback_exchanged; try assumption;
      unfold reflect.Value_Kind; rewrite Ha; (reflexivity || discriminate).
  - (* channels *)
    apply afterIndirect_fallback_exchanged; try assumption;
      unfold reflect.Value_Kind; rewrite Ha; (reflexivity || discriminate).
  - (* the other kinds *)
    destruct (kind_of_basic_plain ka) as (? & ? & ?).
    apply afterIndirect_fallback_exchanged; try assumption;
      unfold reflect.Value_Kind; rewrite Ha; assumption.
Qed.

Lemma IsEqualLoopBreaker_exchanged n :
  forall a b h t t',
    sameShapeWithin w n a b = true ->
    endAlike (IsEqualLoopBreaker w n a b h t)
             (IsEqualLoopBreaker w n b a (exchanged h) t').
Proof.
  induction n as [|n IH]; intros a b h t t' Hs; [exact I|].
  cbn [IsEqualLoopBreaker].
  rewrite (bool_decide_ext _ _ (exchanged_elem a b h)).
  destruct (bool_decide ((a, b) ∈ h)); [by split|].
  destruct (decide (reflect.Value_Kind w a = reflect.Value_Kind w b)) as [Hk|Hk].
  - rewrite (bool_decide_eq_true_2 _ Hk), (bool_decide_eq_true_2 _ (eq_sym Hk)).
    cbn [negb]. rewrite (indirect_exchanged a b Hk).
    cbn [sameShapeWithin] in Hs.
    destruct (indirect w a b) as [[a' b']|]; [|exact I].
    cbn [fmap option_fmap option_map prod_swap fst snd].
    apply andb_prop in Hs as [Hk' Hsub]. apply bool_decide_eq_true in Hk'.
    by apply afterIndirect_exchanged.
  - rewrite (bool_decide_eq_false_2 _ Hk).
    rewrite bool_decide_eq_false_2 by (intros E; by apply Hk).
    by split.
Qed.
End Exchange.

(** X17: the verdict does not depend on the order of the operands when
    [reflect.DeepEqual] does not and, at every level, what the indirection
    leaves of the two values compared is of one kind: then comparing [b]
    with [a] returns when comparing [a] with [b] does, with the same
    verdict. *)
Theorem IsEqual_symmetric_on_values_of_one_shape w fuel a b t :
  (forall v1 v2, reflect.deepTraverse w v1 v2 = reflect.deepTraverse w v2 v1) ->
  sameShapeWithin w fuel a b = true ->
  fst <$> returned (IsEqual w fuel b a t) = fst <$> returned (IsEqual w fuel a b t).
Proof.
  intros Hsym Hs.
  pose proof (IsEqualLoopBreaker_exchanged w Hsym fuel a b ∅ t t Hs) as H.
  unfold IsEqual. unfold exchanged in H. rewrite set_map_empty in H.
  destruct (IsEqualLoopBreaker w fuel a b ∅ t) as [[r1 m1] [h1 t1]|[??]|[??]|],
    (IsEqualLoopBreaker w fuel b a ∅ t) as [[r2 m2] [h2 t2]|[??]|[??]|];
    cbn in H |- *; try reflexivity; try contradiction.
  destruct H as [-> _]. reflexivity.
Qed.

Lemma world_of_DeepEqual_symmetric cells sprint v1 v2 :
  reflect.deepTraverse (world_of cells sprint) v1 v2
  = reflect.deepTraverse (world_of cells sprint) v2 v1.
Proof. cbn. apply bool_decide_ext. split; intros H; by symmetry. Qed.

Lemma IsEqual_symmetric_on_values_of_one_shape_witness :
  sameShapeWithin seqs 2 5 6 = true
  /\ fst <$> returned (IsEqual seqs 2 6 5 []) = fst <$> returned (IsEqual seqs 2 5 6 []).
Proof.
  split; [reflexivity|].
  apply (IsEqual_symmetric_on_values_of_one_shape seqs 2 5 6 []);
    [apply world_of_DeepEqual_symmetric | reflexivity].
Defined.

(** ** Fields that are not exported *)

Section Stops.
Variable w : reflect.World.
Variable cmp : reflect.Value -> reflect.Value -> callHistory -> T -> compared.

(** The pairs before the [k]th pass and the [k]th panics: so does the
    loop, whatever comes after it. *)
Lemma compareFrom_first_panic la lb k :
  length la = length lb ->
  forall count i h t s1 x y s2,
    count + i = length la ->
    passes (inState cmp) (take k (drop i (zip la lb))) (h, t) s1 ->
    la !! (i + k) = Some x -> lb !! (i + k) = Some y ->
    inState cmp x y s1 = Panic s2 ->
    compareFrom cmp (la !!.) (lb !!.) count i h t = Panic s2.
Proof.
  intros Hlen. induction k as [|k IH]; intros count i h t s1 x y s2 Hi Hp Hx Hy Hc.
  - rewrite Nat.add_0_r in Hx, Hy.
    inversion Hp; subst.
    apply lookup_lt_Some in Hx as Hlt.
    destruct count as [|count]; [lia|].
    cbn [compareFrom]. rewrite Hx, Hy.
    unfold inState in Hc. cbn [fst snd] in Hc. rewrite Hc. reflexivity.
  - assert (Hlt : i + S k < length la) by (by eapply lookup_lt_Some).
    destruct (lookup_lt_is_Some_2 la i) as [x0 Hx0]; [lia|].
    destruct (lookup_lt_is_Some_2 lb i) as [y0 Hy0]; [lia|].
    rewrite (drop_zip_lookup la lb i x0 y0 Hx0 Hy0) in Hp.
    cbn [take] in Hp.
    inversion Hp as [|? ? ? ? msg [h' t'] ? Hc0 Hrest]; subst.
    destruct count as [|count]; [lia|].
    cbn [compareFrom]. rewrite Hx0, Hy0.
    unfold inState in Hc0. cbn [fst snd] in Hc0. rewrite Hc0.
    apply (IH count (S i) h' t' s1 x y s2); try assumption; try lia.
    + by replace (S i + k) with (i + S k) by lia.
    + by replace (S i + k) with (i + S k) by lia.
Qed.
End Stops.

(** X18: a struct with a field that is not exported cannot be compared
    when the comparison of that field ends in [reflect.DeepEqual].  For two
    structs with as many fields, whose fields before position [i] are
    found equal and whose fields at [i] are of one kind, a kind the
    comparator has no branch for (neither a float, a slice, an array, a
    struct nor a pointer): when [Interface()] panics on one of the two
    fields at [i], as it does on a field that is not exported, so does the
    comparison. *)
Theorem IsEqual_panics_on_an_unexported_field w fuel a b fa fb i x y h1 t1 t :
  reflect.holds w a = reflect.RStruct fa ->
  reflect.holds w b = reflect.RStruct fb ->
  length fa = length fb ->
  passes (compareIn w (S fuel)) (take i (zip fa.*2 fb.*2)) ({[ (a, b) ]}, t) (h1, t1) ->
  fa.*2 !! i = Some x -> fb.*2 !! i = Some y ->
  (x, y) ∉ h1 ->
  reflect.Value_Kind w x = reflect.Value_Kind w y ->
  reflect.Value_Kind w x <> reflect.Ptr ->
  isFloatKind (reflect.Value_Kind w x) = false ->
  isSeqKind (reflect.Value_Kind w x) = false ->
  reflect.Value_Kind w x <> reflect.Struct ->
  reflect.Value_Interface w x = None \/ reflect.Value_Interface w y = None ->
  IsEqual w (S (S fuel)) a b t = Panic t1.
Proof.
  intros Ha Hb Hlen Hp Hx Hy Hh Hk Hptr Hf Hs Hst Hbox.
  assert (Hka : reflect.Value_Kind w a = reflect.Value_Kind w b)
    by (unfold reflect.Value_Kind; rewrite Ha, Hb; reflexivity).
  assert (Hia : indirect w a b = Some (a, b)).
  { apply indirect_not_Ptr. unfold reflect.Value_Kind. rewrite Ha. discriminate. }
  assert (Hfield : compareIn w (S fuel) x y (h1, t1) = Panic ({[ (x, y) ]} ∪ h1, t1)).
  { unfold compareIn, inState. cbn [fst snd].
    rewrite (IsEqualLoopBreaker_enter w fuel x y x y h1 t1 Hh Hk
               (indirect_not_Ptr w x y Hptr)).
    rewrite (afterIndirect_fallback w _ x y h1 t1 Hf Hs Hst).
    destruct Hbox as [-> | ->]; [reflexivity|].
    destruct (reflect.Value_Interface w x); reflexivity. }
  unfold IsEqual.
  rewrite (IsEqualLoopBreaker_enter w (S fuel) a b a b ∅ t) by (set_solver || assumption).
  rewrite (afterIndirect_structs w _ a b fa fb) by assumption.
  rewrite (right_id_L ∅ (∪)), Hlen, Nat.eqb_refl. cbn [negb].
  assert (Hlen' : length fa.*2 = length fb.*2) by (by rewrite !length_fmap).
  rewrite (compareFrom_first_panic (IsEqualLoopBreaker w (S fuel)) fa.*2 fb.*2 i Hlen'
             (length fb) 0 {[ (a, b) ]} t (h1, t1) x y ({[ (x, y) ]} ∪ h1, t1));
    [reflexivity | rewrite length_fmap; lia | exact Hp | exact Hx | exact Hy
    | exact Hfield].
Qed.

Lemma IsEqual_panics_on_an_unexported_field_witness :
  reflect.holds hidden 1 = reflect.RStruct [("X", 2); ("n", 3)]
  /\ reflect.Value_Interface hidden 3 = None
  /\ IsEqual hidden 2 1 1 [] = Panic [].
Proof.
  split; [reflexivity|]. split; [reflexivity|].
  apply (IsEqual_panics_on_an_unexported_field hidden 0 1 1
           [("X", 2); ("n", 3)] [("X", 2); ("n", 3)] 1 3 3
           ({[ (1, 1) ]} : callHistory) [] []);
    try reflexivity; try discriminate.
  - apply (passes_cons (compareIn hidden 1) 2 2 [] ({[ (1, 1) ]}, []) ""
             ({[ (1, 1) ]}, []) ({[ (1, 1) ]}, []));
      [vm_compute; reflexivity | apply passes_nil].
  - left. reflexivity.
Defined.

(** ** The earlier comparator on values with cycles *)

Lemma size_list_to_set_le (l : list (reflect.Value * reflect.Value)) :
  size (list_to_set l : callHistory) <= length l.
Proof.
  induction l as [|p l IH]; [rewrite list_to_set_nil, size_empty; cbn; lia|].
  rewrite list_to_set_cons, size_union_alt, size_singleton. cbn [length].
  pose proof (subseteq_size (list_to_set l ∖ {[p]} : callHistory) (list_to_set l)) as H.
  assert (Hs : (list_to_set l ∖ {[p]} : callHistory) ⊆ list_to_set l)
    by (intros q Hq; apply elem_of_difference in Hq; tauto).
  specialize (H Hs). lia.
Qed.

Section Visits.
Variable w : reflect.World.
Variable U : list reflect.Value.
Hypothesis closed : closedUnder w U = true.

Lemma children_closed v c : v ∈ U -> c ∈ children w v -> c ∈ U.
Proof.
  intros Hv Hc. unfold closedUnder in closed.
  rewrite forallb_forall in closed. apply list_elem_of_In in Hv.
  specialize (closed v Hv). rewrite forallb_forall in closed.
  apply list_elem_of_In in Hc. specialize (closed c Hc).
  by apply bool_decide_eq_true in closed.
Qed.

Lemma indirect_closed a b a' b' :
  a ∈ U -> b ∈ U -> indirect w a b = Some (a', b') -> a' ∈ U /\ b' ∈ U.
Proof.
  intros Ha Hb. unfold indirect, reflect.Value_IsNil, reflect.Value_Elem.
  case_bool_decide; [|intros; by simplify_eq].
  destruct (reflect.holds w a) as [| |[ea|]| | | | | | |] eqn:Hha;
    try discriminate; [|intros; by simplify_eq].
  destruct (reflect.holds w b) as [| |[eb|]| | | | | | |] eqn:Hhb;
    try discriminate; [|intros; by simplify_eq].
  intros Hs. simplify_eq. split.
  - apply (children_closed a _ Ha). unfold children. rewrite Hha. set_solver.
  - apply (children_closed b _ Hb). unfold children. rewrite Hhb. set_solver.
Qed.

Lemma Value_Index_closed v i x : v ∈ U -> reflect.Value_Index w v i = Some x -> x ∈ U.
Proof.
  intros Hv Hx. apply (children_closed v _ Hv).
  unfold reflect.Value_Index in Hx. unfold children.
  destruct (reflect.holds w v); try discriminate Hx; by eapply list_elem_of_lookup_2.
Qed.

Lemma Value_Field_closed v i x : v ∈ U -> reflect.Value_Field w v i = Some x -> x ∈ U.
Proof.
  intros Hv Hx. apply (children_closed v _ Hv).
  unfold reflect.Value_Field in Hx. unfold children.
  destruct (reflect.holds w v); try discriminate Hx.
  rewrite <- list_lookup_fmap in Hx. by eapply list_elem_of_lookup_2.
Qed.

Lemma unvisited_shrinks a b h :
  a ∈ U -> b ∈ U -> (a, b) ∉ h ->
  size (unvisited U ({[ (a, b) ]} ∪ h)) < size (unvisited U h).
Proof.
  intros Ha Hb Hh. apply subset_size. unfold unvisited.
  assert (Hin : (a, b) ∈ (list_to_set (list_prod U U) : callHistory)).
  { apply elem_of_list_to_set, list_elem_of_In, in_prod; by apply list_elem_of_In. }
  split.
  - intros p Hp. apply elem_of_difference in Hp as [Hp Hn].
    apply elem_of_difference. split; [exact Hp|].
    intros Hq. apply Hn, elem_of_union. by right.
  - intros Hsub. specialize (Hsub (a, b)).
    rewrite !elem_of_difference, elem_of_union, elem_of_singleton in Hsub.
    tauto.
Qed.

Lemma unvisited_mono h h' : h ⊆ h' -> size (unvisited U h') <= size (unvisited U h).
Proof.
  intros H. apply subseteq_size. unfold unvisited.
  intros p Hp. apply elem_of_difference in Hp as [Hp Hn].
  apply elem_of_difference. split; [exact Hp|]. intros Hq. by apply Hn, H.
Qed.

Lemma allFrom_ends cmp at_a at_b n :
  (forall i x y h,
      at_a i = Some x -> at_b i = Some y -> size (unvisited U h) < n ->
      ends (cmp x y h) h) ->
  forall count i h,
    size (unvisited U h) < n ->
    ends (V2.allFrom cmp at_a at_b count i h) h.
Proof.
  intros Hcmp. induction count as [|count IH]; intros i h Hh.
  - split; [discriminate|]. intros r h' H. cbn in H. by simplify_eq.
  - cbn [V2.allFrom].
    destruct (at_a i) as [x|] eqn:Hx; [|split; [discriminate|intros; discriminate]].
    destruct (at_b i) as [y|] eqn:Hy; [|split; [discriminate|intros; discriminate]].
    destruct (Hcmp i x y h Hx Hy Hh) as [Hd Hg].
    destruct (cmp x y h) as [[] h1| | |] eqn:Hc;
      try (split; [discriminate|intros; discriminate]); try contradiction.
    + specialize (Hg true h1 eq_refl).
      destruct (IH (S i) h1) as [Hd' Hg'].
      { pose proof (unvisited_mono h h1 Hg). lia. }
      split; [exact Hd'|]. intros r h' H. etrans; [exact Hg|exact (Hg' r h' H)].
    + split; [discriminate|]. intros r h' H. simplify_eq. exact (Hg false h' eq_refl).
Qed.

Lemma IsEqual_LoopBreaker_ends n :
  forall a b h,
    a ∈ U -> b ∈ U -> size (unvisited U h) < n ->
    ends (V2.IsEqual_LoopBreaker w n a b h) h.
Proof.
  induction n as [|n IH]; intros a b h Ha Hb Hn; [lia|].
  cbn [V2.IsEqual_LoopBreaker].
  case_bool_decide as Hh.
  { split; [discriminate|]. intros r h' H. by simplify_eq. }
  pose proof (unvisited_shrinks a b h Ha Hb Hh) as Hlt.
  assert (Hg : h ⊆ {[ (a, b) ]} ∪ h) by apply union_subseteq_r.
  set (h1 := {[ (a, b) ]} ∪ h) in *.
  assert (Hn1 : size (unvisited U h1) < n) by lia.
  assert (Hadd : forall o, ends o h1 -> ends o h).
  { intros o [Hd Hr]. split; [exact Hd|]. intros r h' H. etrans; [exact Hg|exact (Hr r h' H)]. }
  apply Hadd.
  destruct (negb _).
  { split; [discriminate|]. intros r h' H. by simplify_eq. }
  destruct (indirect w a b) as [[a' b']|] eqn:Hi;
    [|split; [discriminate|intros; discriminate]].
  destruct (indirect_closed a b a' b' Ha Hb Hi) as [Ha' Hb'].
  unfold V2.afterIndirect.
  destruct (bool_decide (_ = reflect.Slice)).
  { destruct (reflect.Value_Len w a'), (reflect.Value_Len w b');
      try (split; [discriminate|intros; discriminate]).
    destruct (negb _); [split; [discriminate|intros r h' H; by simplify_eq]|].
    apply (allFrom_ends _ _ _ n); [|exact Hn1].
    intros i x y h0 Hx Hy Hh0. apply IH; [| |exact Hh0].
    - exact (Value_Index_closed a' i x Ha' Hx).
    - exact (Value_Index_closed b' i y Hb' Hy). }
  destruct (bool_decide (_ = reflect.Struct)).
  { destruct (reflect.Value_NumField w a'), (reflect.Value_NumField w b');
      try (split; [discriminate|intros; discriminate]).
    destruct (negb _); [split; [discriminate|intros r h' H; by simplify_eq]|].
    apply (allFrom_ends _ _ _ n); [|exact Hn1].
    intros i x y h0 Hx Hy Hh0. apply IH; [| |exact Hh0].
    - exact (Value_Field_closed a' i x Ha' Hx).
    - exact (Value_Field_closed b' i y Hb' Hy). }
  destruct (bool_decide (_ = reflect.Float64)).
  { destruct (reflect.Value_Float w a'), (reflect.Value_Float w b');
      split; try discriminate; intros r h' H; by simplify_eq. }
  destruct (reflect.Value_Interface w a'), (reflect.Value_Interface w b');
    split; try discriminate; intros r h' H; by simplify_eq.
Qed.
End Visits.

Lemma unvisited_at_most (U : list reflect.Value) :
  size (unvisited U ∅) <= length U * length U.
Proof.
  unfold unvisited. rewrite difference_empty_L.
  pose proof (size_list_to_set_le (list_prod U U)) as H.
  rewrite length_prod in H. exact H.
Qed.

(** X19: the earlier comparator ends on values with cycles.  Among
    finitely many values that hold one another's pointees, elements and
    fields, a comparison of two of them goes no deeper than there are pairs
    of them: every call that does not return at once records a pair that
    was not in the history. *)
Theorem V2_IsEqual_ends_on_cyclic_values w U fuel a b :
  closedUnder w U = true ->
  a ∈ U -> b ∈ U ->
  length U * length U < fuel ->
  V2.IsEqual w fuel a b <> Diverge.
Proof.
  intros Hc Ha Hb Hf. unfold V2.IsEqual.
  apply (IsEqual_LoopBreaker_ends w U Hc fuel a b ∅ Ha Hb).
  pose proof (unvisited_at_most U). lia.
Qed.

Lemma V2_IsEqual_ends_on_cyclic_values_witness :
  closedUnder ring [1; 2; 3] = true
  /\ V2.IsEqual ring 10 1 1 <> Diverge.
Proof.
  split; [reflexivity|].
  apply (V2_IsEqual_ends_on_cyclic_values ring [1; 2; 3] 10 1 1);
    [reflexivity | apply list_elem_of_here | apply list_elem_of_here | cbn; lia].
Defined.

(** ** The earlier runners on values with cycles *)

Section RunnersEnd.
Variable w : reflect.World.
Variable Sprint_returns : reflect.Value -> bool.
Variable U : list reflect.Value.
Variable fuel : nat.
Hypothesis closed : closedUnder w U = true.
Hypothesis enough_levels : length U * length U < fuel.

Lemma V2_compareResults_ends got expect exNames count :
  (forall v, v ∈ got -> v ∈ U /\ Sprint_returns v = true) ->
  (forall v, v ∈ expect -> v ∈ U /\ Sprint_returns v = true) ->
  forall i pass t,
    V2Runner.compareResults w Sprint_returns fuel got expect exNames count i pass t
    <> Diverges.
Proof.
  intros Hgot Hexp. induction count as [|count IH]; intros i pass t; [discriminate|].
  cbn [V2Runner.compareResults].
  destruct (got !! i) as [g|] eqn:Hg; [|discriminate].
  destruct (expect !! i) as [e|] eqn:He; [|discriminate].
  destruct (Hgot g) as [HgU Hgp]; [by eapply list_elem_of_lookup_2|].
  destruct (Hexp e) as [HeU Hep]; [by eapply list_elem_of_lookup_2|].
  assert (Hend : V2.IsEqual w fuel g e <> Diverge).
  { destruct (IsEqual_LoopBreaker_ends w U closed fuel g e ∅ HgU HeU) as [Hd _];
      [|exact Hd].
    pose proof (unvisited_at_most U). lia. }
  destruct (V2.IsEqual w fuel g e) as [[] h| | |]; try discriminate.
  - apply IH.
  - destruct (if (1 <? length got)%nat then _ else _); [|discriminate].
    unfold V2Runner.PrintTruncated. rewrite Hep, Hgp. apply IH.
  - contradiction.
Qed.

Lemma V2_RunTest_ends fnptr invals expectvals t :
  (forall got v, Call fnptr (rvals w invals).1 = Some got -> v ∈ got ->
                 v ∈ U /\ Sprint_returns v = true) ->
  (forall v, v ∈ (rvals w expectvals).1 -> v ∈ U /\ Sprint_returns v = true) ->
  V2Runner.RunTest w Sprint_returns fuel fnptr invals expectvals t <> Diverges.
Proof.
  intros Hgot Hexp. unfold V2Runner.RunTest.
  destruct (rvals w invals) as [in_ inNames], (rvals w expectvals) as [expect exNames].
  cbn [fst] in *.
  destruct (negb _); [discriminate|].
  destruct (Call fnptr in_) as [got|]; [|discriminate].
  destruct (negb _); [discriminate|].
  apply V2_compareResults_ends; [|exact Hexp].
  intros v Hv. by apply (Hgot got).
Qed.

Lemma V2_runCases_ends fnptr allIn allExpect count :
  (forall x got v,
      x ∈ allIn -> Call fnptr (rvals w x).1 = Some got -> v ∈ got ->
      v ∈ U /\ Sprint_returns v = true) ->
  (forall y v, y ∈ allExpect -> v ∈ (rvals w y).1 ->
               v ∈ U /\ Sprint_returns v = true) ->
  forall i t,
    V2Runner.runCases w Sprint_returns fuel fnptr allIn allExpect count i t
    <> Diverges.
Proof.
  intros Hgot Hexp. induction count as [|count IH]; intros i t; [discriminate|].
  cbn [V2Runner.runCases].
  destruct (allIn !! i) as [x|] eqn:Hx; [|discriminate].
  destruct (allExpect !! i) as [y|] eqn:Hy; [|discriminate].
  assert (Hend : V2Runner.RunTest w Sprint_returns fuel fnptr x y
                    (Logf t ("Testing case " +:+ fmt_v i +:+ nl)) <> Diverges).
  { apply V2_RunTest_ends.
    - intros got v. apply Hgot. by eapply list_elem_of_lookup_2.
    - intros v. apply Hexp. by eapply list_elem_of_lookup_2. }
  destruct (V2Runner.RunTest w Sprint_returns fuel fnptr x y _) as [[pass t']| | |];
    try discriminate.
  - apply IH.
  - contradiction.
Qed.
End RunnersEnd.

(** X20: with the earlier comparator a case ends on values with cycles,
    where the printer does.  When the call has returned, and its results
    and the expected values are among finitely many values that hold one
    another's pointees, elements and fields, and [fmt.Sprint] returns on
    each of them (as it does on a cycle of pointers, and does not on a value
    that holds itself through a slice, a map or an interface), [RunTest] of
    the earlier version returns, is stopped by [log.Fatal] or panics: the
    comparisons go no deeper than there are pairs of those values. *)
Theorem V2_RunTest_ends_on_cyclic_values
    w Sprint_returns U fuel fnptr invals expectvals t :
  closedUnder w U = true ->
  length U * length U < fuel ->
  (forall got v, Call fnptr (rvals w invals).1 = Some got -> v ∈ got ->
                 v ∈ U /\ Sprint_returns v = true) ->
  (forall v, v ∈ (rvals w expectvals).1 -> v ∈ U /\ Sprint_returns v = true) ->
  V2Runner.RunTest w Sprint_returns fuel fnptr invals expectvals t <> Diverges.
Proof. intros Hc Hf. by apply (V2_RunTest_ends w Sprint_returns U fuel Hc Hf). Qed.

Lemma V2_RunTest_ends_on_cyclic_values_witness :
  closedUnder rings [1; 2; 3; 4; 6; 7; 8; 9] = true
  /\ V2Runner.RunTest rings (λ _, true) 65 same 1 6 []
     = Returns (false, [ Logged ("Expected: 6" +:+ nl +:+ nl);
                         Logged ("Got     : 1" +:+ nl +:+ nl) ])
  /\ V2Runner.RunTest rings (λ _, true) 65 same 1 6 [] <> Diverges.
Proof.
  split; [reflexivity|]. split; [vm_compute; reflexivity|].
  apply (V2_RunTest_ends_on_cyclic_values rings (λ _, true) [1; 2; 3; 4; 6; 7; 8; 9]
           65 same 1 6 []); [reflexivity | cbn; lia | |].
  - intros got v H Hv. vm_compute in H. simplify_eq.
    apply list_elem_of_singleton in Hv. subst v.
    split; [apply list_elem_of_here|reflexivity].
  - intros v Hv. change (v ∈ [6]) in Hv.
    apply list_elem_of_singleton in Hv. subst v.
    split; [|reflexivity].
    repeat first [apply list_elem_of_here | apply list_elem_of_further].
Defined.

(** X21: with the earlier comparator a batch ends on values with cycles,
    where the printer does.  When the calls have returned, and the results
    and the expected values of every case are among finitely many values
    that hold one another's pointees, elements and fields, and [fmt.Sprint]
    returns on each of them, [RunAllTests] of the earlier version returns,
    is stopped by [log.Fatal] or panics. *)
Theorem V2_RunAllTests_ends_on_cyclic_values
    w Sprint_returns U fuel fnptr allInVals allExpectVals t :
  closedUnder w U = true ->
  length U * length U < fuel ->
  (forall allIn x got v,
      fracture w allInVals = Some allIn -> x ∈ allIn ->
      Call fnptr (rvals w x).1 = Some got -> v ∈ got ->
      v ∈ U /\ Sprint_returns v = true) ->
  (forall allExpect y v,
      fracture w allExpectVals = Some allExpect -> y ∈ allExpect ->
      v ∈ (rvals w y).1 -> v ∈ U /\ Sprint_returns v = true) ->
  V2Runner.RunAllTests w Sprint_returns fuel fnptr allInVals allExpectVals t
  <> Diverges.
Proof.
  intros Hc Hf Hgot Hexp. unfold V2Runner.RunAllTests.
  destruct (negb _); [discriminate|].
  destruct (negb _); [discriminate|].
  destruct (fracture w allInVals) as [allIn|]; [|discriminate].
  destruct (fracture w allExpectVals) as [allExpect|]; [|discriminate].
  destruct (negb _); [discriminate|].
  apply (V2_runCases_ends w Sprint_returns U fuel Hc Hf).
  - intros x got v. by apply (Hgot allIn).
  - intros y v. by apply (Hexp allExpect).
Qed.

Lemma V2_RunAllTests_ends_on_cyclic_values_witness :
  closedUnder rings [1; 2; 3; 4; 6; 7; 8; 9] = true
  /\ fracture rings 5 = Some [1]
  /\ fracture rings 10 = Some [6]
  /\ V2Runner.RunAllTests rings (λ _, true) 65 same 5 10 [] <> Diverges.
Proof.
  split; [reflexivity|]. split; [reflexivity|]. split; [reflexivity|].
  apply (V2_RunAllTests_ends_on_cyclic_values rings (λ _, true) [1; 2; 3; 4; 6; 7; 8; 9]
           65 same 5 10 []); [reflexivity | cbn; lia | |].
  - intros allIn x got v Hf Hx H Hv. vm_compute in Hf. simplify_eq.
    apply list_elem_of_singleton in Hx. subst x. vm_compute in H. simplify_eq.
    apply list_elem_of_singleton in Hv. subst v.
    split; [apply list_elem_of_here|reflexivity].
  - intros allExpect y v Hf Hy Hv. vm_compute in Hf. simplify_eq.
    apply list_elem_of_singleton in Hy. subst y. change (v ∈ [6]) in Hv.
    apply list_elem_of_singleton in Hv. subst v.
    split; [|reflexivity].
    repeat first [apply list_elem_of_here | apply list_elem_of_further].
Defined.

(** ** The first version: its comparator *)

Lemma V0_allFrom_exchanged cmp at_a at_b :
  (forall x y, V0.endAlike (cmp x y) (cmp y x)) ->
  forall count i,
    V0.endAlike (V0.allFrom cmp at_a at_b count i) (V0.allFrom cmp at_b at_a count i).
Proof.
  intros Hcmp. induction count as [|count IH]; intros i; [reflexivity|].
  cbn [V0.allFrom].
  destruct (at_a i) as [x|], (at_b i) as [y|]; try exact I.
  specialize (Hcmp x y).
  destruct (cmp x y) as [[]| | |], (cmp y x) as [[]| | |]; cbn in Hcmp;
    try exact Hcmp; try discriminate Hcmp; try contradiction.
  apply IH.
Qed.

(** X22: the first version of the comparator does not depend on the order
    of its operands, provided [reflect.DeepEqual] does not: comparing [b]
    with [a] returns when comparing [a] with [b] does, with the same
    verdict; and one is stopped by [log.Fatal], panics or does not end when
    the other is, panics or does not. *)
Theorem V0_IsEqual_symmetric w float64 fuel a b :
  (forall v1 v2, reflect.deepTraverse w v1 v2 = reflect.deepTraverse w v2 v1) ->
  V0.endAlike (V0.IsEqual w float64 fuel a b) (V0.IsEqual w float64 fuel b a).
Proof.
  intros Hsym. revert a b. induction fuel as [|fuel IH]; intros a b; [exact I|].
  cbn [V0.IsEqual].
  destruct (decide (reflect.Value_Kind w (reflect.ValueOf w a)
                    = reflect.Value_Kind w (reflect.ValueOf w b))) as [Hk|Hk].
  2: { assert (Hk' : reflect.Value_Kind w (reflect.ValueOf w b)
                      <> reflect.Value_Kind w (reflect.ValueOf w a)) by congruence.
       rewrite (bool_decide_eq_false_2 _ Hk), (bool_decide_eq_false_2 _ Hk').
       reflexivity. }
  rewrite (bool_decide_eq_true_2 _ Hk), (bool_decide_eq_true_2 _ (eq_sym Hk)).
  cbn [negb]. rewrite <- Hk.
  destruct (bool_decide (_ = reflect.Slice)).
  { destruct (reflect.Value_Len w (reflect.ValueOf w a)) as [la|],
      (reflect.Value_Len w (reflect.ValueOf w b)) as [lb|]; try exact I.
    rewrite (Nat.eqb_sym lb).
    destruct (la =? lb)%nat eqn:Hlen; [|reflexivity].
    apply Nat.eqb_eq in Hlen. subst lb. cbn [negb].
    by apply V0_allFrom_exchanged. }
  destruct (bool_decide (_ = reflect.Struct)).
  { destruct (reflect.Value_NumField w (reflect.ValueOf w a)) as [la|],
      (reflect.Value_NumField w (reflect.ValueOf w b)) as [lb|]; try exact I.
    rewrite (Nat.eqb_sym lb).
    destruct (la =? lb)%nat eqn:Hlen; [|reflexivity].
    apply Nat.eqb_eq in Hlen. subst lb. cbn [negb].
    by apply V0_allFrom_exchanged. }
  destruct (bool_decide (_ = reflect.Float64)); cbn [andb].
  { destruct (V0.assertFloat64 w float64 a) as [fa|],
      (V0.assertFloat64 w float64 b) as [fb|]; try exact I.
    cbn. apply andb_comm. }
  cbn. apply (DeepEqual_comm w Hsym).
Qed.

Lemma V0_IsEqual_symmetric_witness :
  V0.IsEqual seqs t_float64 2 5 6 = Returns false
  /\ V0.endAlike (V0.IsEqual seqs t_float64 2 5 6) (V0.IsEqual seqs t_float64 2 6 5).
Proof.
  split; [reflexivity|].
  apply (V0_IsEqual_symmetric seqs t_float64 2 5 6), world_of_DeepEqual_symmetric.
Defined.

(** X23: two values of kind [float64] are read with the type assertion
    [a.(float64)], which a named type does not pass.  When the dynamic type
    of [a] is not [float64] itself, the process is stopped by [log.Fatal]
    with "Fail sanity check: a is not a float64"; when the one of [a] is and
    the one of [b] is not, with "... b is not a float64"; when both are
    [float64], the verdict is [(a - b) < EPSILON && (b - a) < EPSILON]. *)
Theorem V0_IsEqual_floats w float64 fuel a b fa fb :
  reflect.holds w (reflect.ValueOf w a) = reflect.RFloat64 fa ->
  reflect.holds w (reflect.ValueOf w b) = reflect.RFloat64 fb ->
  (reflect.TypeOf w (reflect.ValueOf w a) <> float64 ->
   V0.IsEqual w float64 (S fuel) a b
   = Exits "Fail sanity check: a is not a float64")
  /\ (reflect.TypeOf w (reflect.ValueOf w a) = float64 ->
      reflect.TypeOf w (reflect.ValueOf w b) <> float64 ->
      V0.IsEqual w float64 (S fuel) a b
      = Exits "Fail sanity check: b is not a float64")
  /\ (reflect.TypeOf w (reflect.ValueOf w a) = float64 ->
      reflect.TypeOf w (reflect.ValueOf w b) = float64 ->
      V0.IsEqual w float64 (S fuel) a b
      = Returns ((fa - fb <? V0.EPSILON)%float && (fb - fa <? V0.EPSILON)%float)).
Proof.
  intros Ha Hb.
  assert (Hrun : V0.IsEqual w float64 (S fuel) a b
                 = match V0.assertFloat64 w float64 a with
                   | None => Exits "Fail sanity check: a is not a float64"
                   | Some aflt =>
                       match V0.assertFloat64 w float64 b with
                       | None => Exits "Fail sanity check: b is not a float64"
                       | Some bflt =>
                           Returns ((aflt - bflt <? V0.EPSILON)%float
                                       && (bflt - aflt <? V0.EPSILON)%float)
                       end
                   end).
  { cbn [V0.IsEqual]. unfold reflect.Value_Kind. rewrite Ha, Hb. reflexivity. }
  assert (Hyes : forall x f,
             reflect.holds w (reflect.ValueOf w x) = reflect.RFloat64 f ->
             reflect.TypeOf w (reflect.ValueOf w x) = float64 ->
             V0.assertFloat64 w float64 x = Some f).
  { intros x f Hx Ht. unfold V0.assertFloat64, reflect.IsValid, reflect.Value_Kind,
      reflect.Value_Float. cbv zeta. rewrite Hx, (bool_decide_eq_true_2 _ Ht).
    reflexivity. }
  assert (Hno : forall x,
             reflect.TypeOf w (reflect.ValueOf w x) <> float64 ->
             V0.assertFloat64 w float64 x = None).
  { intros x Ht. unfold V0.assertFloat64. cbv zeta.
    rewrite (bool_decide_eq_false_2 _ Ht), andb_false_r. reflexivity. }
  rewrite Hrun. split; [|split].
  - intros Hta. by rewrite (Hno a Hta).
  - intros Hta Htb. by rewrite (Hyes a fa Ha Hta), (Hno b Htb).
  - intros Hta Htb. by rewrite (Hyes a fa Ha Hta), (Hyes b fb Hb Htb).
Qed.

Lemma V0_IsEqual_floats_witness :
  reflect.holds degrees (reflect.ValueOf degrees 1) = reflect.RFloat64 1
  /\ reflect.holds degrees (reflect.ValueOf degrees 2) = reflect.RFloat64 1
  /\ reflect.TypeOf degrees (reflect.ValueOf degrees 1) <> t_float64
  /\ V0.IsEqual degrees t_float64 1 1 2
     = Exits "Fail sanity check: a is not a float64".
Proof.
  split; [reflexivity|]. split; [reflexivity|]. split; [discriminate|].
  apply (proj1 (V0_IsEqual_floats degrees t_float64 0 1 2 1 1 eq_refl eq_refl)).
  discriminate.
Defined.

(** ** The first version on fields that are not exported *)

Lemma V0_allFrom_first_panic cmp at_a at_b k :
  forall count i,
    k < count ->
    (forall j, j < k ->
               exists x y, at_a (i + j) = Some x /\ at_b (i + j) = Some y
                           /\ cmp x y = Returns true) ->
    at_a (i + k) = None \/ at_b (i + k) = None ->
    V0.allFrom cmp at_a at_b count i = Panics.
Proof.
  induction k as [|k IH]; intros count i Hk Hbefore Hat.
  - destruct count as [|count]; [lia|]. cbn [V0.allFrom].
    rewrite Nat.add_0_r in Hat.
    destruct Hat as [-> | ->]; [reflexivity|]. by destruct (at_a i).
  - destruct count as [|count]; [lia|]. cbn [V0.allFrom].
    destruct (Hbefore 0) as (x & y & Hx & Hy & Hc); [lia|].
    rewrite Nat.add_0_r in Hx, Hy. rewrite Hx, Hy, Hc.
    apply IH; [lia | |].
    + intros j Hj. destruct (Hbefore (S j)) as (x' & y' & Hx' & Hy' & Hc'); [lia|].
      exists x', y'. by replace (S i + j) with (i + S j) by lia.
    + by replace (S i + k) with (i + S k) by lia.
Qed.

(** X24: the first version cannot compare structs with a field that is
    not exported, whatever the kind of the field: it boxes every field with
    [Field(i).Interface()] before it compares it.  For two structs with as
    many fields, whose fields before position [i] are found equal, when
    [Interface()] panics on one of the two fields at [i], so does the
    comparison. *)
Theorem V0_IsEqual_panics_on_an_unexported_field w float64 fuel a b fa fb i :
  reflect.holds w (reflect.ValueOf w a) = reflect.RStruct fa ->
  reflect.holds w (reflect.ValueOf w b) = reflect.RStruct fb ->
  length fa = length fb ->
  i < length fa ->
  (forall j, j < i ->
             exists x y, V0.fieldAt w a j = Some x /\ V0.fieldAt w b j = Some y
                         /\ V0.IsEqual w float64 fuel x y = Returns true) ->
  V0.fieldAt w a i = None \/ V0.fieldAt w b i = None ->
  V0.IsEqual w float64 (S fuel) a b = Panics.
Proof.
  intros Ha Hb Hlen Hi Hbefore Hat. cbn [V0.IsEqual].
  unfold reflect.Value_Kind, reflect.Value_NumField. rewrite Ha, Hb. cbn.
  rewrite Hlen, Nat.eqb_refl. cbn [negb].
  apply (V0_allFrom_first_panic _ _ _ i (length fb) 0); [lia | exact Hbefore | exact Hat].
Qed.

Lemma V0_IsEqual_panics_on_an_unexported_field_witness :
  reflect.holds hidden (reflect.ValueOf hidden 1)
  = reflect.RStruct [("X", 2); ("n", 3)]
  /\ V0.fieldAt hidden 1 1 = None
  /\ V0.IsEqual hidden t_float64 2 1 1 = Panics.
Proof.
  split; [reflexivity|]. split; [reflexivity|].
  apply (V0_IsEqual_panics_on_an_unexported_field hidden t_float64 1 1 1
           [("X", 2); ("n", 3)] [("X", 2); ("n", 3)] 1);
    [reflexivity | reflexivity | reflexivity | cbn; lia | | left; reflexivity].
  intros j Hj. assert (j = 0) as -> by lia.
  exists 2, 2. repeat split; reflexivity.
Defined.

(** ** The first version: its printer and its runners *)

(** X25: the printer of the first version cuts at 500 bytes with the same
    test: a rendering shorter than 500 bytes is returned as it is, and one
    of 500 bytes or more is cut to its first 500 bytes and marked, a
    rendering of exactly 500 bytes included; so the printer returns at most
    525 bytes. *)
Theorem V0_PrintTruncated_cuts_at_500 w val :
  (String.length (reflect.Sprint w (reflect.ValueOf w val)) < 500 ->
   V0.PrintTruncated w val = reflect.Sprint w (reflect.ValueOf w val))
  /\ (500 <= String.length (reflect.Sprint w (reflect.ValueOf w val)) ->
      V0.PrintTruncated w val
      = substring 0 500 (reflect.Sprint w (reflect.ValueOf w val))
          +:+ nl +:+ "[...output truncated...]")
  /\ String.length (V0.PrintTruncated w val) <= 525.
Proof.
  unfold V0.PrintTruncated. cbv zeta.
  set (result := reflect.Sprint w (reflect.ValueOf w val)).
  destruct (Nat.ltb_spec (String.length result) 500) as [H|H].
  - split; [reflexivity|]. split; [lia|lia].
  - split; [lia|]. split; [reflexivity|].
    rewrite length_append, length_substring_prefix by exact H.
    change (String.length (nl +:+ "[...output truncated...]")) with 25. lia.
Qed.

Section FirstRunner.
Variable w : reflect.World.
Variable float64 : reflect.rtype.
Variable fuel : nat.

Section Results.
Variables got expect : list reflect.Value.
Variable exNames : list string.
Variables gs es : list reflect.iface.
Variable vs : list bool.
Hypothesis got_boxed :
  Forall2 (λ v x, reflect.Value_Interface w v = Some x) got gs.
Hypothesis expect_boxed :
  Forall2 (λ v x, reflect.Value_Interface w v = Some x)
    (take (length got) expect) es.
Hypothesis enough_expected : length got <= length expect.
Hypothesis named :
  1 < length got -> forall i, i < length got -> is_Some (exNames !! i).
Hypothesis one_verdict_each : length vs = length got.
Hypothesis verdicts :
  forall i g e v,
    gs !! i = Some g -> es !! i = Some e -> vs !! i = Some v ->
    V0.IsEqual w float64 fuel g e = Returns v.

End Results.

Lemma V0_compareResults_frame got expect exNames t0 count :
  forall i pass t,
    V0.compareResults w float64 fuel got expect exNames count i pass (t0 ++ t)
    = V0.after t0 (V0.compareResults w float64 fuel got expect exNames count i pass t).
Proof.
  induction count as [|count IH]; intros i pass t; [reflexivity|].
  cbn [V0.compareResults].
  destruct (got !! i ≫= reflect.Value_Interface w),
    (expect !! i ≫= reflect.Value_Interface w); try reflexivity.
  destruct (V0.IsEqual w float64 fuel _ _) as [[]| | |]; try reflexivity.
  - apply IH.
  - destruct (if (1 <? length got)%nat then _ else _); [|reflexivity].
    unfold Logf. rewrite <- IH. by rewrite <- !app_assoc.
Qed.

Lemma V0_RunTest_frame fnptr invals expectvals t0 t :
  V0.RunTest w float64 fuel fnptr invals expectvals (t0 ++ t)
  = V0.after t0 (V0.RunTest w float64 fuel fnptr invals expectvals t).
Proof.
  unfold V0.RunTest.
  destruct (rvals w invals) as [in_ inNames], (rvals w expectvals) as [expect exNames].
  destruct (negb _); [reflexivity|].
  destruct (Call fnptr in_) as [got|]; [|reflexivity].
  destruct (negb _); [reflexivity|].
  apply V0_compareResults_frame.
Qed.

Section Batch.
Variable fnptr : Func.
Variables allIn allExpect : list reflect.iface.
Variable rs : list (bool * T).
Hypothesis same_length : length allIn = length allExpect.
Hypothesis one_result_each : length rs = length allIn.
Hypothesis each_case_returns :
  forall i x y r,
    allIn !! i = Some x -> allExpect !! i = Some y -> rs !! i = Some r ->
    V0.RunTest w float64 fuel fnptr x y [] = Returns r.

Lemma V0_runCases_log count :
  forall i t,
    count + i = length allIn ->
    V0.runCases w float64 fuel fnptr allIn allExpect count i t
    = Returns (tt, t ++ V0.batchLog i (drop i rs)).
Proof.
  induction count as [|count IH]; intros i t Hi.
  - rewrite drop_ge by lia. cbn. by rewrite app_nil_r.
  - destruct (lookup_lt_is_Some_2 allIn i) as [x Hx]; [lia|].
    destruct (lookup_lt_is_Some_2 allExpect i) as [y Hy]; [lia|].
    destruct (lookup_lt_is_Some_2 rs i) as [r Hr]; [lia|].
    rewrite (drop_S _ _ _ Hr). cbn [V0.runCases V0.batchLog].
    rewrite Hx, Hy.
    rewrite <- (app_nil_r (Logf t _)), V0_RunTest_frame,
      (each_case_returns i x y r Hx Hy Hr).
    destruct r as [pass log]. cbn [V0.after].
    rewrite IH by lia. unfold V0.caseLog, Logf, Errorf. cbn [fst snd].
    destruct pass; by rewrite <- ?app_assoc.
Qed.
End Batch.
End FirstRunner.



(** X27: the batch runner of the first version goes through every case.
    For two slices of one length whose cases each return, [RunAllTests]
    returns, and the log holds, case by case in the order of the slices,
    the line "Testing case i", what the case logged, and for a case that did
    not pass the failure "FAIL case i", which carries no diagnostic. *)
Theorem V0_RunAllTests_runs_every_case
    w float64 fuel fnptr allInVals allExpectVals allIn allExpect rs t :
  reflect.Value_Kind w (reflect.ValueOf w allInVals) = reflect.Slice ->
  reflect.Value_Kind w (reflect.ValueOf w allExpectVals) = reflect.Slice ->
  fracture w allInVals = Some allIn ->
  fracture w allExpectVals = Some allExpect ->
  length allIn = length allExpect ->
  length rs = length allIn ->
  (forall i x y r,
      allIn !! i = Some x -> allExpect !! i = Some y -> rs !! i = Some r ->
      V0.RunTest w float64 fuel fnptr x y [] = Returns r) ->
  V0.RunAllTests w float64 fuel fnptr allInVals allExpectVals t
  = Returns (tt, t ++ V0.batchLog 0 rs).
Proof.
  intros Hin Hex Hfin Hfex Hlen Hrs Hcases. unfold V0.RunAllTests.
  rewrite (bool_decide_eq_true_2 _ Hin), (bool_decide_eq_true_2 _ Hex), Hfin, Hfex.
  cbn [negb]. rewrite Hlen, Nat.eqb_refl. cbn [negb]. rewrite <- Hlen.
  apply (V0_runCases_log w float64 fuel fnptr allIn allExpect rs Hlen Hrs Hcases
           (length allIn) 0 t).
  lia.
Qed.

Lemma V0_RunAllTests_runs_every_case_witness :
  fracture ints 14 = Some [1; 2; 3; 4; 5]
  /\ fracture ints 15 = Some [2; 4; 7; 8; 10]
  /\ V0.RunAllTests ints t_float64 1 double 14 15 []
     = Returns
         (tt,
          [ Logged ("Testing case 0" +:+ nl);
            Logged ("Testing case 1" +:+ nl);
            Logged ("Testing case 2" +:+ nl);
            Logged ("Expected: 7" +:+ nl +:+ nl);
            Logged ("Got     : 6" +:+ nl +:+ nl);
            Errored ("FAIL case 2" +:+ nl);
            Logged ("Testing case 3" +:+ nl);
            Logged ("Testing case 4" +:+ nl) ]).
Proof.
  split; [reflexivity|]. split; [reflexivity|].
  refine (V0_RunAllTests_runs_every_case ints t_float64 1 double 14 15
            [1; 2; 3; 4; 5] [2; 4; 7; 8; 10]
            [ (true, []); (true, []);
              (false, [ Logged ("Expected: 7" +:+ nl +:+ nl);
                        Logged ("Got     : 6" +:+ nl +:+ nl) ]);
              (true, []); (true, []) ]
            [] eq_refl eq_refl eq_refl eq_refl eq_refl eq_refl _).
  intros i x y r Hx Hy Hr.
  destruct i as [|[|[|[|[|i]]]]]; cbn in Hx, Hy, Hr; simplify_eq; reflexivity.
Defined.
